(** * ipres-package-cloud: the package linter [lint_ft.py]

    A shallow embedding of [src/ipres_package_cloud/lint_ft.py] and the
    verification of its specification.

    The linter inspects package directories through [pathlib] and reports
    through the module logger.  The embedding therefore has three layers:

    - a model of the part of the world the code touches: a directory tree
      with permissions and symbolic links, the stream of log records and the
      standard output;
    - the [pathlib] operations the code calls ([iterdir], [rglob], [is_dir],
      [is_file], [exists], [stat]; CPython 3.11), [re.fullmatch] and the
      logger calls, as computations in a state-and-exception monad over that
      world;
    - the functions of [lint_ft.py], translated statement by statement. *)

From Stdlib Require Import String Ascii List NArith Bool Arith Lia.
From stdpp Require Import base decidable countable strings gmap.
Import ListNotations.

Local Open Scope string_scope.
Local Open Scope list_scope.

(** ** The directory tree *)

(** An entry of the tree is

    - a regular file with its size in bytes;
    - a directory with its read permission, its search permission and its
      entries, in the order in which the operating system lists them:
      listing a directory needs its read permission, and reaching anything
      through a directory needs its search permission;
    - something that exists and is none of these (a socket, a FIFO, a
      device);
    - a symbolic link, with what following it gives: an entry, nothing (a
      link that dangles), or a refusal (the target lies behind a directory
      that may not be searched).

    The target of a link is held by value: the module only reads, so
    sharing does not show.  A link that leads back to a directory above
    itself has no finite tree; since a recursive scan never descends through
    a link, unfolding such a link as deep as the paths of one run reach
    gives the same run. *)
#[warnings="-register-all"]
Inductive node : Type :=
| File (size : N)
| Dir (readable searchable : bool) (entries : list (string * node))
| Special
| Link (target : node)
| DanglingLink
| DeniedLink.

(** A path is the list of its components, counted from the root of the
    tree. *)
Definition Path : Type := list string.

(** [Path.name]: the final component, the empty string when there is none. *)
Definition name (p : Path) : string := List.last p "".

(** [p / child] *)
Definition joinpath (p : Path) (c : string) : Path := p ++ [c].

Fixpoint child (nm : string) (es : list (string * node)) : option node :=
  match es with
  | [] => None
  | (k, c) :: es' => if String.eqb k nm then Some c else child nm es'
  end.

(** What [stat] on a path comes to: an entry that is not a link, or the
    error of the system call. *)
Inductive resolved : Type :=
| Found (n : node)
| ENOENT
| ENOTDIR
| EACCES.

(** Following the links at an entry. *)
Fixpoint follow (n : node) : resolved :=
  match n with
  | Link target => follow target
  | DanglingLink => ENOENT
  | DeniedLink => EACCES
  | _ => Found n
  end.

(** Path resolution as [stat] does it: links are followed, and every
    directory passed through must grant search permission. *)
Fixpoint resolve (n : node) (p : Path) : resolved :=
  match follow n with
  | Found m =>
      match p with
      | [] => Found m
      | nm :: q =>
          match m with
          | Dir _ searchable es =>
              if searchable then
                match child nm es with
                | Some c => resolve c q
                | None => ENOENT
                end
              else EACCES
          | _ => ENOTDIR
          end
      end
  | e => e
  end.

(** The recursive walk behind [Path.rglob("*")] (CPython 3.11,
    [_RecursiveWildcardSelector] followed by [_WildcardSelector]), from a
    directory that has been opened.  It yields the entries of the directory
    in listing order, then walks each entry that is a directory itself and
    not a link, in turn.  Both selectors swallow [PermissionError]:

    - a directory without read permission yields nothing;
    - below a directory without search permission nothing can be opened, so
      its entries are yielded and nothing deeper;
    - [entry.is_dir()] follows a link, and when the target may not be
      stat'ed its [PermissionError] ends the descent into the directory
      that holds the link: the entries after it are not walked.

    The file system is taken to report the type of an entry with the
    listing, so that [entry.is_dir()] stats links only.  The pattern ["*"]
    matches every name, names starting with a dot included.  No directory
    lists a name twice, so the selector's set of yielded paths changes
    nothing. *)
Fixpoint walk (base : Path) (n : node) : list Path :=
  match n with
  | Dir true searchable es =>
      List.map (fun e => joinpath base (fst e)) es ++
      (if searchable then
         (fix descend (es : list (string * node)) : list Path :=
            match es with
            | [] => []
            | (nm, c) :: rest =>
                match c with
                | Dir _ _ _ => walk (joinpath base nm) c ++ descend rest
                | DeniedLink => []
                | _ => descend rest
                end
            end) es
       else [])
  | _ => []
  end.

(** ** Log records and output lines *)

Inductive level : Type := WARNING | ERROR.

(** One constructor per logging call of the module, carrying the values the
    call interpolates into its message. *)
Inductive message : Type :=
| msg_name_nonconforming (folder_name : string)
| msg_not_two_subfolders (package : Path)
| msg_subfolder_names (package_name : string) (found : gset string)
| msg_hidden_files (package_name : string) (hidden_ls : list Path)
| msg_zero_bytes_file (package_name : string) (zero_bytes_ls : list Path)
| msg_unexpected_directory (package_name : string) (md_dir_ls : list Path)
| msg_metadata_no_files (package_name : string)
| msg_nonconforming_metadata (package_name : string) (nonconforming : list Path)
| msg_incorrect_structure (package_name : string) (missing : list string)
| msg_empty_folder (package_name : string) (empty : list Path).

Record log_record : Type := { levelname : level; msg : message }.

(** The lines [main] prints. *)
Inductive out_line : Type :=
| line_total (counter : nat)
| line_valid (n : nat) (valid : list string)
| line_invalid (n : nat) (invalid : list string)
| line_needs_review (n : nat) (needs_review : list string).

(** ** The world and the monad *)

Record World : Type := {
  fs : node;
  log : list log_record;
  stdout : list out_line
}.

Inductive exn : Type :=
| FileNotFoundError
| NotADirectoryError
| PermissionError
| TypeError.

Inductive Outcome (A : Type) : Type :=
| Ok (a : A)
| Raise (e : exn).
Arguments Ok {A} a.
Arguments Raise {A} e.

Definition M (A : Type) : Type := World -> Outcome A * World.

Definition ret {A} (a : A) : M A := fun w => (Ok a, w).

Definition raise {A} (e : exn) : M A := fun w => (Raise e, w).

Definition bind {A B} (m : M A) (k : A -> M B) : M B :=
  fun w =>
    match m w with
    | (Ok a, w') => k a w'
    | (Raise e, w') => (Raise e, w')
    end.

Notation "'let*' x ':=' m 'in' k" := (bind m (fun x => k))
  (at level 10, x name, m at level 100, k at level 200).
Notation "m ';;;' k" := (bind m (fun _ => k))
  (at level 100, k at level 200, right associativity).

(** A list comprehension with a condition, [[x for x in xs if c(x)]]. *)
Fixpoint filterM {A} (c : A -> M bool) (xs : list A) : M (list A) :=
  match xs with
  | [] => ret []
  | x :: xs' =>
      let* b := c x in
      let* r := filterM c xs' in
      ret (if b then x :: r else r)
  end.

(** A [for] loop that updates one local variable. *)
Fixpoint foldM {A S} (body : S -> A -> M S) (s : S) (xs : list A) : M S :=
  match xs with
  | [] => ret s
  | x :: xs' => let* s' := body s x in foldM body s' xs'
  end.

(** The truth value of a list: [if xs:]. *)
Definition truthy {A} (xs : list A) : bool :=
  match xs with [] => false | _ => true end.

(** ** pathlib *)

(** [os.listdir]: the directory itself must grant read permission. *)
Definition iterdir (p : Path) : M (list Path) :=
  fun w =>
    match resolve (fs w) p with
    | Found (Dir true _ es) => (Ok (List.map (fun e => joinpath p (fst e)) es), w)
    | Found (Dir false _ _) => (Raise PermissionError, w)
    | Found _ => (Raise NotADirectoryError, w)
    | ENOENT => (Raise FileNotFoundError, w)
    | ENOTDIR => (Raise NotADirectoryError, w)
    | EACCES => (Raise PermissionError, w)
    end.

(** [is_dir], [is_file] and [exists] answer False when [stat] fails for a
    path that does not exist, and let its [PermissionError] through. *)
Definition is_dir (p : Path) : M bool :=
  fun w =>
    match resolve (fs w) p with
    | Found (Dir _ _ _) => (Ok true, w)
    | EACCES => (Raise PermissionError, w)
    | _ => (Ok false, w)
    end.

Definition is_file (p : Path) : M bool :=
  fun w =>
    match resolve (fs w) p with
    | Found (File _) => (Ok true, w)
    | EACCES => (Raise PermissionError, w)
    | _ => (Ok false, w)
    end.

Definition exists_ (p : Path) : M bool :=
  fun w =>
    match resolve (fs w) p with
    | Found _ => (Ok true, w)
    | EACCES => (Raise PermissionError, w)
    | _ => (Ok false, w)
    end.

Record stat_result : Type := { st_size : N }.

(** [p.stat()].  The module calls it on regular files only; the size given
    here to the other kinds of entry is immaterial. *)
Definition stat (p : Path) : M stat_result :=
  fun w =>
    match resolve (fs w) p with
    | Found (File sz) => (Ok {| st_size := sz |}, w)
    | Found _ => (Ok {| st_size := 0 |}, w)
    | ENOENT => (Raise FileNotFoundError, w)
    | ENOTDIR => (Raise NotADirectoryError, w)
    | EACCES => (Raise PermissionError, w)
    end.

(** [p.rglob("*")].  [select_from] asks [is_dir] of the starting path
    outside every [try]: a starting path that may not be stat'ed raises, one
    that is not a directory yields nothing. *)
Definition rglob (p : Path) : M (list Path) :=
  fun w =>
    match resolve (fs w) p with
    | Found n => (Ok (walk p n), w)
    | EACCES => (Raise PermissionError, w)
    | _ => (Ok [], w)
    end.

(** ** logging and print *)

Definition emit (r : log_record) : M unit :=
  fun w => (Ok tt, {| fs := fs w; log := log w ++ [r]; stdout := stdout w |}).

Definition LOGGER_error (m : message) : M unit :=
  emit {| levelname := ERROR; msg := m |}.

Definition LOGGER_warning (m : message) : M unit :=
  emit {| levelname := WARNING; msg := m |}.

Definition print (l : out_line) : M unit :=
  fun w => (Ok tt, {| fs := fs w; log := log w; stdout := stdout w ++ [l] |}).

(** ** re.fullmatch *)

(** The fragment of regular expressions the module's pattern is written in,
    closed under the derivative.  For such expressions (no back-references,
    no look-around) the backtracking search of [re.fullmatch] succeeds
    exactly on the strings of the expression's language.  A Python string is
    modelled by its UTF-8 bytes: the pattern holds ASCII characters only, and
    no byte of a multi-byte character is an ASCII byte. *)
Inductive regex : Type :=
| re_none
| re_eps
| re_lit (c : ascii)
| re_range (lo hi : ascii)
| re_cat (r1 r2 : regex)
| re_alt (r1 r2 : regex).

(** [r{n}] *)
Fixpoint re_repeat (n : nat) (r : regex) : regex :=
  match n with
  | O => re_eps
  | S n' => re_cat r (re_repeat n' r)
  end.

(** A run of literal characters. *)
Fixpoint re_literal (s : string) : regex :=
  match s with
  | EmptyString => re_eps
  | String c s' => re_cat (re_lit c) (re_literal s')
  end.

Definition in_range (lo hi c : ascii) : bool :=
  (N_of_ascii lo <=? N_of_ascii c)%N && (N_of_ascii c <=? N_of_ascii hi)%N.

Fixpoint nullable (r : regex) : bool :=
  match r with
  | re_none => false
  | re_eps => true
  | re_lit _ => false
  | re_range _ _ => false
  | re_cat r1 r2 => nullable r1 && nullable r2
  | re_alt r1 r2 => nullable r1 || nullable r2
  end.

Fixpoint deriv (c : ascii) (r : regex) : regex :=
  match r with
  | re_none => re_none
  | re_eps => re_none
  | re_lit c' => if Ascii.eqb c' c then re_eps else re_none
  | re_range lo hi => if in_range lo hi c then re_eps else re_none
  | re_cat r1 r2 =>
      if nullable r1
      then re_alt (re_cat (deriv c r1) r2) (deriv c r2)
      else re_cat (deriv c r1) r2
  | re_alt r1 r2 => re_alt (deriv c r1) (deriv c r2)
  end.

Fixpoint re_fullmatch (r : regex) (s : string) : bool :=
  match s with
  | EmptyString => nullable r
  | String c s' => re_fullmatch (deriv c r) s'
  end.

(** [r"ACQ_[0-9]{4}_[0-9]{6}"] *)
Definition ACQ_pattern : regex :=
  re_cat (re_literal "ACQ_")
    (re_cat (re_repeat 4 (re_range "0" "9"))
       (re_cat (re_lit "_") (re_repeat 6 (re_range "0" "9")))).

(** [s.startswith(p)] *)
Definition startswith (s p : string) : bool := String.prefix p s.

(** [x in xs] for a list of strings. *)
Definition in_list (x : string) (xs : list string) : bool :=
  List.existsb (String.eqb x) xs.

(** ** lint_ft.py *)

Definition package_has_valid_name (package : Path) : M bool :=
  let folder_name := name package in
  let match_ := re_fullmatch ACQ_pattern folder_name in
  if match_ then ret true
  else LOGGER_error (msg_name_nonconforming folder_name);;; ret false.

Definition package_has_two_subfolders (package : Path) : M bool :=
  let* children := iterdir package in
  let* pkg_folders := filterM is_dir children in
  if Nat.eqb (List.length pkg_folders) 2 then ret true
  else LOGGER_error (msg_not_two_subfolders package);;; ret false.

Definition package_has_valid_subfolder_names (package : Path) : M bool :=
  let expected : gset string := list_to_set ["objects"; "metadata"] in
  let* children := iterdir package in
  let found : gset string := list_to_set (List.map name children) in
  if bool_decide (expected = found) then ret true
  else LOGGER_error (msg_subfolder_names (name package) found);;; ret false.

Definition package_has_no_hidden_file (package : Path) : M bool :=
  let* all := rglob package in
  let hidden_ls :=
    List.filter
      (fun h => startswith (name h) "." || startswith (name h) "Thumbs") all in
  if truthy hidden_ls
  then LOGGER_warning (msg_hidden_files (name package) hidden_ls);;; ret false
  else ret true.

Definition package_has_no_zero_bytes_file (package : Path) : M bool :=
  let* all := rglob package in
  let* all_file := filterM is_file all in
  let* zero_bytes_ls :=
    filterM (fun f => let* st := stat f in ret (N.eqb (st_size st) 0)) all_file in
  if truthy zero_bytes_ls
  then LOGGER_warning (msg_zero_bytes_file (name package) zero_bytes_ls);;; ret false
  else ret true.

Definition metadata_folder_is_flat (package : Path) : M bool :=
  let metadata_path := joinpath package "metadata" in
  let* children := iterdir metadata_path in
  let* md_dir_ls := filterM is_dir children in
  if truthy md_dir_ls
  then LOGGER_error (msg_unexpected_directory (name package) md_dir_ls);;; ret false
  else ret true.

Definition metadata_folder_has_files (package : Path) : M bool :=
  let metadata_path := joinpath package "metadata" in
  let* all := rglob metadata_path in
  let* md_files_ls := filterM is_file all in
  if truthy md_files_ls then ret true
  else LOGGER_warning (msg_metadata_no_files (name package));;; ret false.

Definition metadata_has_correct_naming_convention (package : Path) : M bool :=
  let metadata_path := joinpath package "metadata" in
  let accepted_fn := ["rclone.log"] in
  let* all := rglob metadata_path in
  let* md_files_ls := filterM is_file all in
  let nonconforming :=
    List.fold_left
      (fun nonconforming file =>
         if negb (in_list (name file) accepted_fn)
         then nonconforming ++ [file] else nonconforming)
      md_files_ls [] in
  if truthy nonconforming
  then LOGGER_error (msg_nonconforming_metadata (name package) nonconforming);;;
       ret false
  else ret true.

Definition objects_folder_correct_structure (package : Path) : M bool :=
  let expected_files :=
    ["bag-info.txt"; "bagit.txt"; "manifest-md5.txt"; "tagmanifest-md5.txt"] in
  let data_folder := joinpath (joinpath package "objects") "data" in
  let expected_paths :=
    [data_folder] ++
    List.map (fun file => joinpath (joinpath package "objects") file)
      expected_files in
  let* missing :=
    foldM
      (fun missing fp =>
         let* e := exists_ fp in
         ret (if negb e then missing ++ [name fp] else missing))
      [] expected_paths in
  if truthy missing
  then LOGGER_error (msg_incorrect_structure (name package) missing);;; ret false
  else ret true.

Definition objects_folder_has_no_empty_folder (package : Path) : M bool :=
  let objects_path := joinpath package "objects" in
  let* all := rglob objects_path in
  let* folder_in_obj := filterM is_dir all in
  let* empty :=
    foldM
      (fun empty folder =>
         let* entries := iterdir folder in
         ret (if negb (truthy entries) then empty ++ [folder] else empty))
      [] folder_in_obj in
  if truthy empty
  then LOGGER_error (msg_empty_folder (name package) empty);;; ret false
  else ret true.

Definition less_strict_tests : list (Path -> M bool) :=
  [ package_has_no_hidden_file;
    package_has_no_zero_bytes_file;
    metadata_folder_has_files ].

Definition strict_tests : list (Path -> M bool) :=
  [ package_has_valid_name;
    package_has_two_subfolders;
    package_has_valid_subfolder_names;
    metadata_folder_is_flat;
    metadata_has_correct_naming_convention;
    objects_folder_correct_structure;
    objects_folder_has_no_empty_folder ].

Definition lint_package (package : Path) : M string :=
  let result := "valid" in
  let* result :=
    foldM
      (fun result test =>
         let* passed := test package in
         ret (if negb passed then "needs review" else result))
      result less_strict_tests in
  let* result :=
    foldM
      (fun result test =>
         let* passed := test package in
         ret (if negb passed then "invalid" else result))
      result strict_tests in
  ret result.

(** What [parse_args] returns, as far as [main] uses it.  [--log_folder] has
    no [type=], so [args.log_folder] is a string: the default ["."] or the
    one on the command line. *)
Record Namespace : Type := {
  packages : list Path;
  log_folder : string
}.

(** [_configure_logging(log_folder)] as [main] calls it, on a string: the
    name of the log file is formatted from the clock, and
    [log_folder / log_fn] between two strings raises [TypeError] before the
    file is touched or the logger configured. *)
Definition _configure_logging (log_folder : string) : M unit :=
  raise TypeError.

(** The local lists and the counter of [main]. *)
Record buckets : Type := {
  valid : list string;
  invalid : list string;
  needs_review : list string;
  counter : nat
}.

(** [main], with [args] the result of [parse_args()]. *)
Definition main (args : Namespace) : M unit :=
  _configure_logging (log_folder args);;;
  let* b :=
    foldM
      (fun b package =>
         let counter := counter b + 1 in
         let* result := lint_package package in
         if String.eqb result "valid" then
           ret {| valid := valid b ++ [name package]; invalid := invalid b;
                  needs_review := needs_review b; counter := counter |}
         else if String.eqb result "invalid" then
           ret {| valid := valid b; invalid := invalid b ++ [name package];
                  needs_review := needs_review b; counter := counter |}
         else
           ret {| valid := valid b; invalid := invalid b;
                  needs_review := needs_review b ++ [name package];
                  counter := counter |})
      {| valid := []; invalid := []; needs_review := []; counter := 0 |}
      (packages args) in
  print (line_total (counter b));;;
  (if truthy (valid b)
   then print (line_valid (List.length (valid b)) (valid b)) else ret tt);;;
  (if truthy (invalid b)
   then print (line_invalid (List.length (invalid b)) (invalid b)) else ret tt);;;
  (if truthy (needs_review b)
   then print (line_needs_review (List.length (needs_review b)) (needs_review b))
   else ret tt).

(** Induction on trees, with the hypothesis for each entry of a directory
    and for the target of a link. *)
Fixpoint node_induction (P : node -> Prop)
    (HFile : forall sz, P (File sz))
    (HDir : forall r x es, Forall (fun e => P (snd e)) es -> P (Dir r x es))
    (HSpecial : P Special)
    (HLink : forall target, P target -> P (Link target))
    (HDangling : P DanglingLink)
    (HDenied : P DeniedLink) (n : node) : P n :=
  match n with
  | File sz => HFile sz
  | Dir r x es =>
      HDir r x es
        ((fix entries_induction (es : list (string * node)) :
            Forall (fun e => P (snd e)) es :=
            match es with
            | [] => @List.Forall_nil _ _
            | e :: es' =>
                @List.Forall_cons _ _ e es'
                  (node_induction P HFile HDir HSpecial HLink HDangling HDenied (snd e))
                  (entries_induction es')
            end) es)
  | Special => HSpecial
  | Link target =>
      HLink target
        (node_induction P HFile HDir HSpecial HLink HDangling HDenied target)
  | DanglingLink => HDangling
  | DeniedLink => HDenied
  end.

(** ** Observing a computation *)

(** A world with nothing logged and nothing printed yet. *)
Definition clean (n : node) : World := {| fs := n; log := []; stdout := [] |}.

(** The world after more records have been logged. *)
Definition emits (w : World) (d : list log_record) : World :=
  {| fs := fs w; log := log w ++ d; stdout := stdout w |}.

(** What a computation returns or raises on a tree, and what it logs there. *)
Definition result {A} (m : M A) (n : node) : Outcome A := fst (m (clean n)).

Definition diagnostics {A} (m : M A) (n : node) : list log_record :=
  log (snd (m (clean n))).

(** A computation that only reads the tree. *)
Definition reader {A} (m : M A) : Prop :=
  forall w, m w = (result m (fs w), w).

(** A computation that reads the tree and appends to the log, and does
    nothing else: what it returns and what it logs are functions of the
    tree. *)
Definition logs_only {A} (m : M A) : Prop :=
  forall w, m w = (result m (fs w), emits w (diagnostics m (fs w))).

(** A check of severity [lvl]: it logs nothing when it passes or raises, and
    exactly one record of that severity when it fails. *)
Definition one_record_on_failure (lvl : level) (m : M bool) (n : node) : Prop :=
  match result m n with
  | Ok true => diagnostics m n = []
  | Ok false => exists r, diagnostics m n = [r] /\ levelname r = lvl
  | Raise _ => diagnostics m n = []
  end.

Definition check (lvl : level) (m : M bool) : Prop :=
  logs_only m /\ forall n, one_record_on_failure lvl m n.

(** On the tree [n] the computation [m] leaves the tree as it is, what it
    returns satisfies [Q] and what it raises satisfies [P]. *)
Definition on_tree {A} (n : node) (P : exn -> Prop) (Q : A -> Prop) (m : M A) : Prop :=
  forall w, fs w = n ->
    match m w with
    | (Ok a, w') => fs w' = n /\ Q a
    | (Raise e, _) => P e
    end.

(** No exception. *)
Definition never : exn -> Prop := fun _ => False.

(** No exception but [PermissionError]. *)
Definition denied_only : exn -> Prop := fun e => e = PermissionError.

(** The exceptions of the file system. *)
Definition os_error : exn -> Prop :=
  fun e => e = FileNotFoundError \/ e = NotADirectoryError \/ e = PermissionError.

(** The ten tests in the order in which [lint_package] runs them. *)
Definition all_tests : list (Path -> M bool) := less_strict_tests ++ strict_tests.

(** A test passes, fails or returns on a package in a world. *)
Definition passes (t : Path -> M bool) (p : Path) (w : World) : Prop :=
  fst (t p w) = Ok true.

Definition fails (t : Path -> M bool) (p : Path) (w : World) : Prop :=
  fst (t p w) = Ok false.

Definition returns {A} (m : M A) (w : World) : Prop :=
  exists a, fst (m w) = Ok a.

Definition raises {A} (m : M A) (e : exn) (w : World) : Prop :=
  fst (m w) = Raise e.

Definition failed (p : Path) (n : node) (t : Path -> M bool) : bool :=
  match result (t p) n with Ok false => true | _ => false end.

(** The exception of the first test of [ts] that raises, if one does. *)
Fixpoint first_raise (p : Path) (n : node) (ts : list (Path -> M bool)) : option exn :=
  match ts with
  | [] => None
  | t :: ts' =>
      match result (t p) n with
      | Raise e => Some e
      | Ok _ => first_raise p n ts'
      end
  end.

(** The tests of [ts] that get to run: all of them up to and including the
    first one that raises. *)
Fixpoint ran (p : Path) (n : node) (ts : list (Path -> M bool)) : list (Path -> M bool) :=
  match ts with
  | [] => []
  | t :: ts' =>
      match result (t p) n with
      | Raise _ => [t]
      | Ok _ => t :: ran p n ts'
      end
  end.

(** The aggregation rule, on the outcomes of the tests. *)
Definition verdict (p : Path) (n : node) : string :=
  if existsb (failed p n) strict_tests then "invalid"
  else if existsb (failed p n) less_strict_tests then "needs review"
  else "valid".

(** ** Example packages *)

Module Examples.

Definition some_bytes : node := File 19.

Definition sidecars : list (string * node) :=
  [ ("bag-info.txt", some_bytes); ("bagit.txt", some_bytes);
    ("manifest-md5.txt", some_bytes); ("tagmanifest-md5.txt", some_bytes) ].

Definition objects_with (data : list (string * node)) : node :=
  Dir true true (("data", Dir true true data) :: sidecars).

Definition good_objects : node := objects_with [("file.txt", some_bytes)].

Definition good_metadata : node := Dir true true [("rclone.log", some_bytes)].

(** A package that conforms in every respect. *)
Definition good_package : node :=
  Dir true true [("objects", good_objects); ("metadata", good_metadata)].

(** The same without its metadata folder. *)
Definition no_metadata : node := Dir true true [("objects", good_objects)].

(** The same with a regular file next to the two folders. *)
Definition stray_file : node :=
  Dir true true [("objects", good_objects); ("metadata", good_metadata);
            ("notes.txt", some_bytes)].

(** A regular file called metadata in place of the folder. *)
Definition metadata_is_a_file : node :=
  Dir true true [("objects", good_objects); ("metadata", some_bytes)].

(** The same with a hidden file among the payload. *)
Definition hidden_file : node :=
  Dir true true [("objects", objects_with [("file.txt", some_bytes); (".DS_Store", some_bytes)]);
            ("metadata", good_metadata)].

(** The same with an empty payload file. *)
Definition zero_bytes_file : node :=
  Dir true true [("objects", objects_with [("file.txt", File 0)]);
            ("metadata", good_metadata)].

(** The same with the data folder and one sidecar file missing. *)
Definition incomplete_objects : node :=
  Dir true true [("objects", Dir true true [("bag-info.txt", some_bytes); ("bagit.txt", some_bytes);
                                  ("manifest-md5.txt", some_bytes)]);
            ("metadata", good_metadata)].

(** The same with nothing at all in the objects folder. *)
Definition empty_objects : node :=
  Dir true true [("objects", Dir true true []); ("metadata", good_metadata)].

(** The same with a metadata folder that may not be listed. *)
Definition unreadable_metadata : node :=
  Dir true true [("objects", good_objects); ("metadata", Dir false true [("rclone.log", some_bytes)])].

(** The conforming package with an objects folder that may be listed but
    not searched. *)
Definition unsearchable_objects : node :=
  Dir true true [("objects", Dir true false (("data", Dir true true [("file.txt", some_bytes)])
                                            :: sidecars));
            ("metadata", good_metadata)].

Definition transfers : node :=
  Dir true true
    [ ("ACQ_1234_123456", good_package);
      ("acq_1234_123456", good_package);
      ("ACQ_0000_000001", no_metadata);
      ("ACQ_0000_000002", stray_file);
      ("ACQ_0000_000003", hidden_file);
      ("ACQ_0000_000004", zero_bytes_file);
      ("ACQ_0000_000005", incomplete_objects);
      ("ACQ_0000_000006", empty_objects);
      ("ACQ_0000_000007", metadata_is_a_file);
      ("ACQ_0000_000008", unreadable_metadata);
      ("acq_0000_000009", no_metadata);
      ("ACQ_0000_000010", unsearchable_objects) ].

Definition storage : node := Dir true true [("transfers", transfers)].

(** Another tree, holding the conforming package at the same path and
    nothing else. *)
Definition other_storage : node :=
  Dir true true [("transfers", Dir true true [("ACQ_1234_123456", good_package)]);
            ("scratch", Dir false true [])].

Definition disk : World := clean storage.

Definition package (nm : string) : Path := ["transfers"; nm].

End Examples.

(** ** What a path leads to, as pure tests on the tree *)

Definition is_dir_at (n : node) (p : Path) : bool :=
  match resolve n p with Found (Dir _ _ _) => true | _ => false end.

Definition is_file_at (n : node) (p : Path) : bool :=
  match resolve n p with Found (File _) => true | _ => false end.

Definition exists_at (n : node) (p : Path) : bool :=
  match resolve n p with Found _ => true | _ => false end.

(** Every directory of the tree may be listed. *)
Fixpoint all_readable (n : node) : bool :=
  match n with
  | Dir r _ es => r && forallb (fun '(_, c) => all_readable c) es
  | _ => true
  end.

(** A tree without symbolic links in which every directory may be
    searched. *)
Fixpoint plain (n : node) : bool :=
  match n with
  | File _ => true
  | Dir _ x es => x && forallb (fun '(_, c) => plain c) es
  | Special => true
  | _ => false
  end.

(** A path that [stat] refuses. *)
Definition denied_at (n : node) (p : Path) : bool :=
  match resolve n p with EACCES => true | _ => false end.

(** The names [objects_folder_correct_structure] looks for under [objects]. *)
Definition required_in_objects : list string :=
  ["data"; "bag-info.txt"; "bagit.txt"; "manifest-md5.txt"; "tagmanifest-md5.txt"].

(** The names of the immediate children of [p] that are directories, as a
    set. *)
Definition subfolder_names (n : node) (p : Path) : gset string :=
  match resolve n p with
  | Found (Dir _ _ es) =>
      list_to_set
        (List.map fst
           (List.filter (fun e => match follow (snd e) with
                                  | Found (Dir _ _ _) => true | _ => false end) es))
  | _ => ∅
  end.

(** The names of all the immediate children of [p], as a set. *)
Definition entry_names (n : node) (p : Path) : gset string :=
  match resolve n p with
  | Found (Dir _ _ es) => list_to_set (List.map fst es)
  | _ => ∅
  end.

(** ** The identifier pattern, in the words of the specification *)

(** The strings a regular expression denotes. *)
Fixpoint lang (r : regex) (s : list ascii) : Prop :=
  match r with
  | re_none => False
  | re_eps => s = []
  | re_lit c => s = [c]
  | re_range lo hi => exists c, s = [c] /\ in_range lo hi c = true
  | re_cat r1 r2 => exists s1 s2, s = s1 ++ s2 /\ lang r1 s1 /\ lang r2 s2
  | re_alt r1 r2 => lang r1 s \/ lang r2 s
  end.

Definition is_digit (c : ascii) : bool :=
  List.existsb (Ascii.eqb c)
    ["0"; "1"; "2"; "3"; "4"; "5"; "6"; "7"; "8"; "9"]%char.

(** The token ACQ, an underscore, exactly four digits, an underscore and
    exactly six digits, and nothing else. *)
Definition conforms_to_ACQ (s : string) : Prop :=
  exists d4 d6 : list ascii,
    list_ascii_of_string s =
      list_ascii_of_string "ACQ_" ++ d4 ++ ["_"%char] ++ d6 /\
    List.length d4 = 4 /\ List.length d6 = 6 /\
    forallb is_digit d4 = true /\ forallb is_digit d6 = true.

(** The same string with its ASCII lower-case letters in upper case. *)
Definition upper_char (c : ascii) : ascii :=
  if in_range "a" "z" c then ascii_of_N (N_of_ascii c - 32) else c.

Fixpoint upper (s : string) : string :=
  match s with
  | EmptyString => EmptyString
  | String c s' => String (upper_char c) (upper s')
  end.

(** ** Locality *)

(** Two trees hold the same at a path: the path leads to the same node, with
    all that is below it, or fails in the same way. *)
Definition agree (p : Path) (n1 n2 : node) : Prop :=
  resolve n1 p = resolve n2 p.

(** A path at or below another. *)
Definition below (p x : Path) : Prop := exists q, x = p ++ q.

(** A computation whose result is the same on trees that agree below [p],
    with a property of what it returns. *)
Definition local {A} (p : Path) (P : A -> Prop) (m : M A) : Prop :=
  forall n1 n2, agree p n1 n2 ->
    result m n1 = result m n2 /\ forall a, result m n1 = Ok a -> P a.

(** The same for what it logs. *)
Definition local_check {A} (p : Path) (m : M A) : Prop :=
  forall n1 n2, agree p n1 n2 ->
    result m n1 = result m n2 /\ diagnostics m n1 = diagnostics m n2.

(** A later world over another tree: something has been logged and printed,
    and the tree differs away from the conforming package. *)
Definition later_elsewhere : World :=
  {| fs := Examples.other_storage;
     log := [{| levelname := WARNING; msg := msg_metadata_no_files "ACQ_0000_000009" |}];
     stdout := [line_total 1] |}.

(** ** What a recursive scan sees *)

(** The names of a list are pairwise different. *)
Fixpoint distinct (xs : list string) : bool :=
  match xs with
  | [] => true
  | x :: r => negb (in_list x r) && distinct r
  end.

(** A tree as a file system holds it: no directory has two entries of the
    same name. *)
Fixpoint well_formed (n : node) : bool :=
  match n with
  | Dir _ _ es =>
      distinct (List.map fst es) && forallb (fun '(_, c) => well_formed c) es
  | _ => true
  end.

(** The entry that the relative path [q] leads to from the node [n] when
    every directory on the way, [n] included, can be listed. *)
Fixpoint reachable (n : node) (q : Path) : option node :=
  match q with
  | [] => Some n
  | nm :: rest =>
      match n with
      | Dir true _ es =>
          match child nm es with
          | Some c => reachable c rest
          | None => None
          end
      | _ => None
      end
  end.

(** The entry a recursive scan that starts at [p] sees at [p / q]: an entry
    strictly below [p] that is reached through directories that can all be
    listed. *)
Definition seen (n : node) (p q : Path) : option node :=
  match resolve n p, q with
  | Found c, _ :: _ => reachable c q
  | _, _ => None
  end.

(** What [p.rglob("*")] yields on the tree [n]. *)
Definition walk_at (n : node) (p : Path) : list Path :=
  match resolve n p with Found c => walk p c | _ => [] end.

(** The names [package_has_no_hidden_file] looks for. *)
Definition hidden_name (s : string) : bool :=
  startswith s "." || startswith s "Thumbs".

Definition is_directory (c : node) : bool :=
  match c with Dir _ _ _ => true | _ => false end.

Definition is_regular_file (c : node) : bool :=
  match c with File _ => true | _ => false end.

(** ** parse_args: the two argument types *)

(** What a [type=] function of [argparse] gives: the converted argument, or
    the [ArgumentTypeError] it raises, with the path its message names. *)
Inductive argument (A : Type) : Type :=
| Converted (a : A)
| ArgumentTypeError (path : Path).
Arguments Converted {A} a.
Arguments ArgumentTypeError {A} path.

(** [extant_dir]; the argument is taken as the path it denotes. *)
Definition extant_dir (p : Path) : M (argument Path) :=
  let path := p in
  let* d := is_dir path in
  if negb d then ret (ArgumentTypeError path)
  else ret (Converted path).

Definition list_of_paths (p : Path) : M (argument (list Path)) :=
  let* converted := extant_dir p in
  match converted with
  | ArgumentTypeError path => ret (ArgumentTypeError path)
  | Converted path =>
      let* children := iterdir path in
      let* child_dirs :=
        foldM
          (fun child_dirs child =>
             let* d := is_dir child in
             ret (if d then child_dirs ++ [child] else child_dirs))
          [] children in
      ret (Converted child_dirs)
  end.

(** A directory that may not be listed, and a directory without entries. *)
Definition unreadable_at (n : node) (p : Path) : bool :=
  match resolve n p with Found (Dir false _ _) => true | _ => false end.

Definition empty_at (n : node) (p : Path) : bool :=
  match resolve n p with Found (Dir _ _ []) => true | _ => false end.

(** The paths of the entries of the directory [d] that are directories. *)
Definition subfolders (d : Path) (es : list (string * node)) : list Path :=
  List.map (fun e => joinpath d (fst e))
    (List.filter (fun e => is_directory (snd e)) es).

(** ** The layout of a package that conforms *)

(** The conditions on the tree the ten tests come to, taken together: the
    name of the package folder; its two entries, the directories objects and
    metadata, the second without a directory among its entries; nothing
    hidden and no empty file anywhere the scan of the package gets to; a
    file below metadata, and only files called rclone.log there; the five
    paths below objects; and below objects only directories that can be
    listed and are not empty. *)
Definition conforming_layout (n : node) (p : Path) : Prop :=
  conforms_to_ACQ (name p) /\
  (exists es,
     resolve n p = Found (Dir true true es) /\ List.length es = 2 /\
     (exists r s c, child "objects" es = Some (Dir r s c)) /\
     (exists s ms, child "metadata" es = Some (Dir true s ms) /\
                 Forall (fun e => is_directory (snd e) = false) ms)) /\
  (forall q c, seen n p q = Some c ->
               hidden_name (name q) = false /\ c <> File 0) /\
  (exists q sz, seen n (joinpath p "metadata") q = Some (File sz)) /\
  (forall q sz, seen n (joinpath p "metadata") q = Some (File sz) ->
                name q = "rclone.log") /\
  Forall (fun nm => exists_at n (joinpath (joinpath p "objects") nm) = true)
    required_in_objects /\
  (forall q r s es, seen n (joinpath p "objects") q = Some (Dir r s es) ->
                  r = true /\ es <> []).

(** A tree whose objects folder holds a data folder that may not be
    listed. *)
Definition locked_data : World :=
  clean (Dir true true [("objects", Dir true true [("data", Dir false true [])])]).

(** A conforming package inside a folder that may be listed but not
    searched. *)
Definition locked_parent : World :=
  clean (Dir true false [("ACQ_0000_000011", Examples.good_package)]).

(** * Verification *)

(** ** The monad laws the proofs use *)

Lemma emits_nil w : emits w [] = w.
Proof. destruct w; unfold emits; simpl. by rewrite app_nil_r. Qed.

Lemma emits_emits w d1 d2 : emits (emits w d1) d2 = emits w (d1 ++ d2).
Proof. unfold emits; simpl. by rewrite app_assoc. Qed.

Lemma fs_emits w d : fs (emits w d) = fs w.
Proof. reflexivity. Qed.

Lemma logs_only_intro {A} (m : M A) (f : node -> Outcome A) (g : node -> list log_record) :
  (forall w, m w = (f (fs w), emits w (g (fs w)))) -> logs_only m.
Proof.
  intros H w. unfold result, diagnostics. rewrite (H (clean (fs w))). simpl.
  apply H.
Qed.

Lemma reader_intro {A} (m : M A) (f : node -> Outcome A) :
  (forall w, m w = (f (fs w), w)) -> reader m.
Proof. intros H w. unfold result. rewrite (H (clean (fs w))). simpl. apply H. Qed.

Lemma reader_diagnostics {A} (m : M A) n : reader m -> diagnostics m n = [].
Proof. intros H. unfold diagnostics. by rewrite (H (clean n)). Qed.

Lemma reader_logs_only {A} (m : M A) : reader m -> logs_only m.
Proof.
  intros H w. rewrite (reader_diagnostics m _ H), emits_nil. apply H.
Qed.

Lemma reader_ret {A} (a : A) : reader (ret a).
Proof. by apply (reader_intro _ (fun _ => Ok a)). Qed.

Lemma reader_bind {A B} (m : M A) (k : A -> M B) :
  reader m -> (forall a, reader (k a)) -> reader (bind m k).
Proof.
  intros Hm Hk.
  apply (reader_intro _
    (fun n => match result m n with Ok a => result (k a) n | Raise e => Raise e end)).
  intros w. unfold bind. rewrite (Hm w).
  destruct (result m (fs w)); [apply Hk | done].
Qed.

Lemma logs_only_ret {A} (a : A) : logs_only (ret a).
Proof. apply reader_logs_only, reader_ret. Qed.

Lemma logs_only_bind {A B} (m : M A) (k : A -> M B) :
  logs_only m -> (forall a, logs_only (k a)) -> logs_only (bind m k).
Proof.
  intros Hm Hk.
  apply (logs_only_intro _
    (fun n => match result m n with Ok a => result (k a) n | Raise e => Raise e end)
    (fun n => diagnostics m n ++
              match result m n with Ok a => diagnostics (k a) n | Raise _ => [] end)).
  intros w. unfold bind. rewrite (Hm w).
  destruct (result m (fs w)) as [a|e].
  - rewrite (Hk a). by rewrite emits_emits.
  - by rewrite app_nil_r.
Qed.

Lemma logs_only_emit r : logs_only (emit r).
Proof. by apply (logs_only_intro _ (fun _ => Ok tt) (fun _ => [r])). Qed.

Lemma reader_filterM {A} (c : A -> M bool) xs :
  (forall x, reader (c x)) -> reader (filterM c xs).
Proof.
  intros Hc. induction xs as [|x xs IH]; simpl.
  - apply reader_ret.
  - apply reader_bind; [apply Hc|]. intros b.
    apply reader_bind; [apply IH|]. intros r. apply reader_ret.
Qed.

Lemma reader_foldM {A S} (body : S -> A -> M S) xs :
  (forall s x, reader (body s x)) -> forall s, reader (foldM body s xs).
Proof.
  intros Hb. induction xs as [|x xs IH]; intros s; simpl.
  - apply reader_ret.
  - apply reader_bind; [apply Hb | apply IH].
Qed.

(** The pathlib operations only read. *)

Ltac by_resolution :=
  intros w; unfold result; cbn [fs clean];
  destruct (resolve (fs w) _) as [[|[] ? ?| | | |]| | |]; reflexivity.

Lemma reader_iterdir p : reader (iterdir p).
Proof. unfold iterdir. by_resolution. Qed.

Lemma reader_is_dir p : reader (is_dir p).
Proof. unfold is_dir. by_resolution. Qed.

Lemma reader_is_file p : reader (is_file p).
Proof. unfold is_file. by_resolution. Qed.

Lemma reader_exists p : reader (exists_ p).
Proof. unfold exists_. by_resolution. Qed.

Lemma reader_rglob p : reader (rglob p).
Proof. unfold rglob. by_resolution. Qed.

Lemma reader_stat p : reader (stat p).
Proof. unfold stat. by_resolution. Qed.

Ltac reads :=
  repeat first
    [ apply reader_ret
    | apply reader_iterdir | apply reader_is_dir | apply reader_is_file
    | apply reader_exists | apply reader_rglob | apply reader_stat
    | apply reader_filterM; intros
    | apply reader_foldM; intros
    | apply reader_bind; [|intros] ].

(** ** Every test is a check of its severity *)

Lemma check_pass lvl : check lvl (ret true).
Proof.
  split; [apply logs_only_ret|]. intros n. by unfold one_record_on_failure.
Qed.

Lemma check_error m : check ERROR (LOGGER_error m;;; ret false).
Proof.
  split.
  - apply logs_only_bind; [apply logs_only_emit | intros; apply logs_only_ret].
  - intros n. unfold one_record_on_failure. simpl. eauto.
Qed.

Lemma check_warning m : check WARNING (LOGGER_warning m;;; ret false).
Proof.
  split.
  - apply logs_only_bind; [apply logs_only_emit | intros; apply logs_only_ret].
  - intros n. unfold one_record_on_failure. simpl. eauto.
Qed.

Lemma check_bind {A} lvl (m : M A) (k : A -> M bool) :
  reader m -> (forall a, check lvl (k a)) -> check lvl (bind m k).
Proof.
  intros Hm Hk. split.
  - apply logs_only_bind; [by apply reader_logs_only | intros a; apply Hk].
  - intros n. unfold one_record_on_failure, result, diagnostics, bind.
    rewrite (Hm (clean n)). simpl.
    destruct (result m n) as [a|e]; [|done].
    apply (proj2 (Hk a) n).
Qed.

Ltac checks :=
  repeat first
    [ apply check_pass | apply check_error | apply check_warning
    | match goal with |- check _ (if ?b then _ else _) => destruct b end
    | apply check_bind; [reads|intros] ].

Lemma check_package_has_no_hidden_file p :
  check WARNING (package_has_no_hidden_file p).
Proof. unfold package_has_no_hidden_file. checks. Qed.

Lemma check_package_has_no_zero_bytes_file p :
  check WARNING (package_has_no_zero_bytes_file p).
Proof. unfold package_has_no_zero_bytes_file. checks. Qed.

Lemma check_metadata_folder_has_files p :
  check WARNING (metadata_folder_has_files p).
Proof. unfold metadata_folder_has_files. checks. Qed.

Lemma check_package_has_valid_name p :
  check ERROR (package_has_valid_name p).
Proof. unfold package_has_valid_name. checks. Qed.

Lemma check_package_has_two_subfolders p :
  check ERROR (package_has_two_subfolders p).
Proof. unfold package_has_two_subfolders. checks. Qed.

Lemma check_package_has_valid_subfolder_names p :
  check ERROR (package_has_valid_subfolder_names p).
Proof.
  unfold package_has_valid_subfolder_names. checks.
Qed.

Lemma check_metadata_folder_is_flat p :
  check ERROR (metadata_folder_is_flat p).
Proof. unfold metadata_folder_is_flat. checks. Qed.

Lemma check_metadata_has_correct_naming_convention p :
  check ERROR (metadata_has_correct_naming_convention p).
Proof. unfold metadata_has_correct_naming_convention. checks. Qed.

Lemma check_objects_folder_correct_structure p :
  check ERROR (objects_folder_correct_structure p).
Proof. unfold objects_folder_correct_structure. checks. Qed.

Lemma check_objects_folder_has_no_empty_folder p :
  check ERROR (objects_folder_has_no_empty_folder p).
Proof. unfold objects_folder_has_no_empty_folder. checks. Qed.

Lemma check_less_strict_tests t p :
  In t less_strict_tests -> check WARNING (t p).
Proof.
  unfold less_strict_tests. simpl.
  intros [<-|[<-|[<-|[]]]];
    [ apply check_package_has_no_hidden_file
    | apply check_package_has_no_zero_bytes_file
    | apply check_metadata_folder_has_files ].
Qed.

Lemma check_strict_tests t p :
  In t strict_tests -> check ERROR (t p).
Proof.
  unfold strict_tests. simpl.
  intros [<-|[<-|[<-|[<-|[<-|[<-|[<-|[]]]]]]]];
    [ apply check_package_has_valid_name
    | apply check_package_has_two_subfolders
    | apply check_package_has_valid_subfolder_names
    | apply check_metadata_folder_is_flat
    | apply check_metadata_has_correct_naming_convention
    | apply check_objects_folder_correct_structure
    | apply check_objects_folder_has_no_empty_folder ].
Qed.

(** ** The two loops of lint_package *)

Section Loop.
Variable p : Path.
Variable v : string.
Variable ts : list (Path -> M bool).
Hypothesis ts_logs_only : forall t, In t ts -> logs_only (t p).

Let body : string -> (Path -> M bool) -> M string :=
  fun result test =>
    let* passed := test p in
    ret (if negb passed then v else result).

Lemma loop_spec : forall (us : list (Path -> M bool)) s w,
  incl us ts ->
  foldM body s us w =
  (match first_raise p (fs w) us with
   | Some e => Raise e
   | None => Ok (if existsb (failed p (fs w)) us then v else s)
   end,
   emits w (flat_map (fun t => diagnostics (t p) (fs w)) (ran p (fs w) us))).
Proof.
  induction us as [|t us IH]; intros s w Hin.
  - simpl. unfold ret. by rewrite emits_nil.
  - assert (Ht : logs_only (t p)) by (apply ts_logs_only, Hin; by left).
    assert (Hus : incl us ts) by (intros x Hx; apply Hin; by right).
    cbn [foldM first_raise ran existsb]. unfold bind at 1, body at 1, bind at 1.
    rewrite (Ht w). unfold failed at 1.
    destruct (result (t p) (fs w)) as [b|e].
    + unfold ret at 1. rewrite (IH _ _ Hus). rewrite fs_emits, emits_emits.
      cbn [flat_map]. f_equal.
      destruct (first_raise p (fs w) us); [done|].
      destruct b; simpl; [done|]. by destruct (existsb _ us).
    + cbn [flat_map]. by rewrite app_nil_r.
Qed.
End Loop.

Lemma first_raise_app p n ts1 ts2 :
  first_raise p n (ts1 ++ ts2) =
  match first_raise p n ts1 with
  | Some e => Some e
  | None => first_raise p n ts2
  end.
Proof.
  induction ts1 as [|t ts1 IH]; simpl; [done|].
  by destruct (result (t p) n).
Qed.

Lemma ran_app p n ts1 ts2 :
  ran p n (ts1 ++ ts2) =
  match first_raise p n ts1 with
  | Some _ => ran p n ts1
  | None => ran p n ts1 ++ ran p n ts2
  end.
Proof.
  induction ts1 as [|t ts1 IH]; simpl; [done|].
  destruct (result (t p) n); [|done]. rewrite IH.
  by destruct (first_raise p n ts1).
Qed.

Lemma first_raise_None p n ts :
  first_raise p n ts = None <-> forall t, In t ts -> exists b, result (t p) n = Ok b.
Proof.
  induction ts as [|t ts IH]; simpl.
  - split; [intros _ t []|done].
  - destruct (result (t p) n) as [b|e] eqn:E.
    + rewrite IH. split.
      * intros H u [<-|Hu]; [eauto|by apply H].
      * intros H u Hu. apply H. by right.
    + split; [done|]. intros H. destruct (H t) as [b Hb]; [by left|congruence].
Qed.

Lemma ran_all p n ts : first_raise p n ts = None -> ran p n ts = ts.
Proof.
  induction ts as [|t ts IH]; simpl; [done|].
  destruct (result (t p) n); [|done]. intros H. by rewrite IH.
Qed.

(** What [lint_package] does, in one equation: it raises the exception of the
    first test that raises, returns the aggregated verdict when none does,
    and in both cases has logged the records of the tests that ran. *)
Lemma lint_package_spec p w :
  lint_package p w =
  (match first_raise p (fs w) all_tests with
   | Some e => Raise e
   | None => Ok (verdict p (fs w))
   end,
   emits w (flat_map (fun t => diagnostics (t p) (fs w)) (ran p (fs w) all_tests))).
Proof.
  unfold lint_package, all_tests. unfold bind at 1.
  rewrite (loop_spec p "needs review" less_strict_tests); [|
    by intros t Ht; apply (check_less_strict_tests t p Ht) | apply incl_refl].
  rewrite first_raise_app, ran_app.
  destruct (first_raise p (fs w) less_strict_tests) as [e|]; [done|].
  unfold bind at 1.
  rewrite (loop_spec p "invalid" strict_tests); [|
    by intros t Ht; apply (check_strict_tests t p Ht) | apply incl_refl].
  rewrite fs_emits, emits_emits, flat_map_app.
  destruct (first_raise p (fs w) strict_tests) as [e|]; [done|].
  unfold ret, verdict.
  by destruct (existsb (failed p (fs w)) strict_tests).
Qed.

Lemma logs_only_lint_package p : logs_only (lint_package p).
Proof.
  apply (logs_only_intro _
    (fun n => match first_raise p n all_tests with
              | Some e => Raise e | None => Ok (verdict p n) end)
    (fun n => flat_map (fun t => diagnostics (t p) n) (ran p n all_tests))).
  apply lint_package_spec.
Qed.

Lemma check_all_tests t p :
  In t all_tests -> exists lvl, check lvl (t p).
Proof.
  unfold all_tests. rewrite in_app_iff. intros [H|H].
  - exists WARNING. by apply check_less_strict_tests.
  - exists ERROR. by apply check_strict_tests.
Qed.

Lemma test_result t p w :
  In t all_tests -> fst (t p w) = result (t p) (fs w).
Proof.
  intros H. destruct (check_all_tests t p H) as [lvl [Hl _]].
  by rewrite (Hl w).
Qed.

Lemma failed_fails t p w :
  In t all_tests -> failed p (fs w) t = true <-> fails t p w.
Proof.
  intros H. unfold fails, failed. rewrite (test_result t p w H).
  destruct (result (t p) (fs w)) as [[]|]; split; congruence.
Qed.

Lemma all_return_first_raise p w :
  (forall t, In t all_tests -> returns (t p) w) <->
  first_raise p (fs w) all_tests = None.
Proof.
  rewrite first_raise_None. split; intros H t Ht.
  - destruct (H t Ht) as [b Hb]. exists b. by rewrite <- (test_result t p w Ht).
  - destruct (H t Ht) as [b Hb]. exists b. by rewrite (test_result t p w Ht).
Qed.

(** [lint_package] returns exactly when each of its ten tests does. *)
Lemma lint_package_returns_iff p w :
  returns (lint_package p) w <-> forall t, In t all_tests -> returns (t p) w.
Proof.
  rewrite all_return_first_raise. unfold returns. rewrite lint_package_spec.
  destruct (first_raise p (fs w) all_tests); simpl.
  - split; [intros [a Ha]; discriminate | discriminate].
  - split; eauto.
Qed.

(** ** The verdict *)

Lemma verdict_invalid p w :
  verdict p (fs w) = "invalid" <-> exists t, In t strict_tests /\ fails t p w.
Proof.
  unfold verdict.
  destruct (existsb (failed p (fs w)) strict_tests) eqn:E.
  - split; [intros _|done]. apply existsb_exists in E as [t [Ht Hf]].
    exists t. split; [done|]. apply failed_fails; [|done].
    unfold all_tests. apply in_app_iff. by right.
  - split.
    + by destruct (existsb (failed p (fs w)) less_strict_tests).
    + intros [t [Ht Hf]]. exfalso.
      assert (existsb (failed p (fs w)) strict_tests = true); [|congruence].
      apply existsb_exists. exists t. split; [done|]. apply failed_fails; [|done].
      unfold all_tests. apply in_app_iff. by right.
Qed.

Lemma verdict_needs_review p w :
  verdict p (fs w) = "needs review" <->
  (~ exists t, In t strict_tests /\ fails t p w) /\
  exists t, In t less_strict_tests /\ fails t p w.
Proof.
  rewrite <- verdict_invalid. unfold verdict.
  destruct (existsb (failed p (fs w)) strict_tests); [split; [done|tauto]|].
  destruct (existsb (failed p (fs w)) less_strict_tests) eqn:E.
  - split; [intros _|done]. split; [done|].
    apply existsb_exists in E as [t [Ht Hf]].
    exists t. split; [done|]. apply failed_fails; [|done].
    unfold all_tests. apply in_app_iff. by left.
  - split; [done|]. intros [_ [t [Ht Hf]]]. exfalso.
    assert (existsb (failed p (fs w)) less_strict_tests = true); [|congruence].
    apply existsb_exists. exists t. split; [done|]. apply failed_fails; [|done].
    unfold all_tests. apply in_app_iff. by left.
Qed.

Lemma verdict_cases p n :
  verdict p n = "valid" \/ verdict p n = "needs review" \/ verdict p n = "invalid".
Proof.
  unfold verdict.
  destruct (existsb (failed p n) strict_tests); [tauto|].
  destruct (existsb (failed p n) less_strict_tests); tauto.
Qed.

Lemma verdict_valid p w :
  (forall t, In t all_tests -> returns (t p) w) ->
  verdict p (fs w) = "valid" <-> forall t, In t all_tests -> passes t p w.
Proof.
  intros Hret. split.
  - intros Hv t Ht. destruct (Hret t Ht) as [[|] Hb]; [done|]. exfalso.
    unfold all_tests in Ht. apply in_app_iff in Ht as [Ht|Ht].
    + unfold verdict in Hv.
      destruct (existsb (failed p (fs w)) strict_tests); [done|].
      assert (existsb (failed p (fs w)) less_strict_tests = true) as E.
      { apply existsb_exists. exists t. split; [done|]. apply failed_fails; [|done].
        unfold all_tests. apply in_app_iff. by left. }
      by rewrite E in Hv.
    + assert (verdict p (fs w) = "invalid"); [|congruence].
      apply verdict_invalid. by exists t.
  - intros Hall.
    destruct (verdict_cases p (fs w)) as [H|[H|H]]; [done|exfalso..].
    + apply verdict_needs_review in H as [_ [t [Ht Hf]]].
      assert (passes t p w) by (apply Hall; unfold all_tests; apply in_app_iff; by left).
      unfold passes, fails in *. congruence.
    + apply verdict_invalid in H as [t [Ht Hf]].
      assert (passes t p w) by (apply Hall; unfold all_tests; apply in_app_iff; by right).
      unfold passes, fails in *. congruence.
Qed.

(** ** The scenarios of the specification, evaluated *)

Example scenario_A_valid :
  lint_package (Examples.package "ACQ_1234_123456") Examples.disk =
  (Ok "valid", Examples.disk).
Proof. vm_compute. reflexivity. Qed.

Example scenario_B_wrong_case :
  lint_package (Examples.package "acq_1234_123456") Examples.disk =
  (Ok "invalid",
   emits Examples.disk
     [{| levelname := ERROR; msg := msg_name_nonconforming "acq_1234_123456" |}]).
Proof. vm_compute. reflexivity. Qed.

Example scenario_E_zero_bytes :
  lint_package (Examples.package "ACQ_0000_000004") Examples.disk =
  (Ok "needs review",
   emits Examples.disk
     [{| levelname := WARNING;
         msg := msg_zero_bytes_file "ACQ_0000_000004"
                  [["transfers"; "ACQ_0000_000004"; "objects"; "data"; "file.txt"]] |}]).
Proof. vm_compute. reflexivity. Qed.

(** ** The claims about lint_package *)

(** C1.  On a package on which each of the ten tests returns, [lint_package]
    returns a verdict; the verdict is ["invalid"] if and only if one of the
    seven strict (blocking) tests fails, ["needs review"] if and only if no
    strict test fails and one of the three less strict (advisory) tests
    fails, and ["valid"] if and only if all ten tests pass. *)
Theorem lint_package_verdict (p : Path) (w : World) :
  (forall t, In t all_tests -> returns (t p) w) ->
  exists v, fst (lint_package p w) = Ok v /\
    (v = "invalid" <-> exists t, In t strict_tests /\ fails t p w) /\
    (v = "needs review" <->
       (~ exists t, In t strict_tests /\ fails t p w) /\
       exists t, In t less_strict_tests /\ fails t p w) /\
    (v = "valid" <-> forall t, In t all_tests -> passes t p w).
Proof.
  intros Hret. exists (verdict p (fs w)).
  rewrite lint_package_spec.
  rewrite (proj1 (all_return_first_raise p w) Hret). simpl.
  split; [done|]. split; [apply verdict_invalid|].
  split; [apply verdict_needs_review | by apply verdict_valid].
Qed.

Ltac each_test :=
  let t := fresh "t" in
  let H := fresh "H" in
  intros t H; cbv [all_tests less_strict_tests strict_tests app In] in H;
  repeat (destruct H as [<-|H]; [eexists; vm_compute; reflexivity|]);
  destruct H.

Lemma lint_package_verdict_witness :
  exists v, fst (lint_package (Examples.package "ACQ_0000_000003") Examples.disk) = Ok v /\
    (v = "invalid" <->
       exists t, In t strict_tests /\
                 fails t (Examples.package "ACQ_0000_000003") Examples.disk) /\
    (v = "needs review" <->
       (~ exists t, In t strict_tests /\
                    fails t (Examples.package "ACQ_0000_000003") Examples.disk) /\
       exists t, In t less_strict_tests /\
                 fails t (Examples.package "ACQ_0000_000003") Examples.disk) /\
    (v = "valid" <->
       forall t, In t all_tests ->
                 passes t (Examples.package "ACQ_0000_000003") Examples.disk).
Proof.
  apply (lint_package_verdict (Examples.package "ACQ_0000_000003") Examples.disk).
  each_test.
Defined.

(** C5, as the code has it.  [lint_package] returns the verdict alone, one of
    the three strings.  The diagnostics go to the log: when [lint_package]
    returns, it has appended to the log the records of its ten tests in the
    order in which it runs them, where a test that passes logs nothing, a
    less strict test that fails logs exactly one record of level WARNING and
    a strict test that fails exactly one record of level ERROR. *)
Theorem lint_package_logs_diagnostics (p : Path) (w : World) (v : string) :
  fst (lint_package p w) = Ok v ->
  In v ["valid"; "needs review"; "invalid"] /\
  snd (lint_package p w) =
    emits w (flat_map (fun t => diagnostics (t p) (fs w)) all_tests) /\
  Forall (fun t => forall w', fs w' = fs w ->
                   snd (t p w') = emits w' (diagnostics (t p) (fs w))) all_tests /\
  Forall (fun t => passes t p w -> diagnostics (t p) (fs w) = []) all_tests /\
  Forall (fun t => fails t p w ->
                   exists r, diagnostics (t p) (fs w) = [r] /\ levelname r = WARNING)
    less_strict_tests /\
  Forall (fun t => fails t p w ->
                   exists r, diagnostics (t p) (fs w) = [r] /\ levelname r = ERROR)
    strict_tests.
Proof.
  intros Hv. rewrite lint_package_spec in Hv |- *. cbn [fst snd] in Hv |- *.
  destruct (first_raise p (fs w) all_tests) eqn:E; [discriminate Hv|].
  injection Hv as <-. rewrite (ran_all _ _ _ E).
  split.
  { cbn [In]. destruct (verdict_cases p (fs w)) as [H|[H|H]]; rewrite H; tauto. }
  split; [done|].
  assert (Hshape : forall lvl t, check lvl (t p) ->
            (passes t p w -> diagnostics (t p) (fs w) = []) /\
            (fails t p w ->
             exists r, diagnostics (t p) (fs w) = [r] /\ levelname r = lvl)).
  { intros lvl t [Hl Hs]. specialize (Hs (fs w)).
    unfold one_record_on_failure in Hs. unfold passes, fails.
    rewrite (Hl w). cbn [fst].
    destruct (result (t p) (fs w)) as [[|]|]; split; intros; congruence. }
  repeat split; apply List.Forall_forall; intros t Ht.
  - intros w' Hw'. destruct (check_all_tests t p Ht) as [lvl [Hl _]].
    rewrite (Hl w'). cbn [snd]. by rewrite Hw'.
  - destruct (check_all_tests t p Ht) as [lvl Hc]. apply (Hshape lvl t Hc).
  - apply (Hshape WARNING t), check_less_strict_tests, Ht.
  - apply (Hshape ERROR t), check_strict_tests, Ht.
Qed.

Lemma lint_package_logs_diagnostics_witness :
  In "needs review" ["valid"; "needs review"; "invalid"] /\
  snd (lint_package (Examples.package "ACQ_0000_000004") Examples.disk) =
    emits Examples.disk
      (flat_map (fun t => diagnostics (t (Examples.package "ACQ_0000_000004"))
                            (fs Examples.disk)) all_tests).
Proof.
  pose proof (lint_package_logs_diagnostics
                (Examples.package "ACQ_0000_000004") Examples.disk "needs review") as H.
  split; apply H; vm_compute; reflexivity.
Defined.

(** C5, as the claim has it, fails: no function recovers the diagnostics
    from the value [lint_package] returns, since two packages with the same
    verdict have different diagnostics. *)
Lemma lint_package_value_lacks_diagnostics :
  ~ exists diagnostics_of : string -> list log_record,
      forall p n v, result (lint_package p) n = Ok v ->
                    diagnostics (lint_package p) n = diagnostics_of v.
Proof.
  intros [f Hf].
  pose proof (Hf (Examples.package "ACQ_0000_000003") Examples.storage "needs review") as H3.
  pose proof (Hf (Examples.package "ACQ_0000_000004") Examples.storage "needs review") as H4.
  assert (diagnostics (lint_package (Examples.package "ACQ_0000_000003")) Examples.storage =
          diagnostics (lint_package (Examples.package "ACQ_0000_000004")) Examples.storage) as E.
  { rewrite H3, H4; [done| |]; vm_compute; reflexivity. }
  vm_compute in E. discriminate E.
Qed.

(** C9.  [lint_package] and each of its ten tests leave the tree as they
    found it, whether they return or raise: they only list directories and
    stat entries.  In particular what the package path leads to is the same
    before and after.  The standard output is left alone as well. *)
Theorem lint_package_read_only (p : Path) (w : World) :
  fs (snd (lint_package p w)) = fs w /\
  resolve (fs (snd (lint_package p w))) p = resolve (fs w) p /\
  stdout (snd (lint_package p w)) = stdout w /\
  Forall (fun t => fs (snd (t p w)) = fs w) all_tests.
Proof.
  rewrite (logs_only_lint_package p w). cbn [snd emits fs stdout].
  repeat split. apply List.Forall_forall. intros t Ht.
  destruct (check_all_tests t p Ht) as [lvl [Hl _]]. by rewrite (Hl w).
Qed.

(** ** Outcomes on a tree *)

Lemma result_lint_package p n :
  result (lint_package p) n =
  match first_raise p n all_tests with
  | Some e => Raise e
  | None => Ok (verdict p n)
  end.
Proof. unfold result. by rewrite lint_package_spec. Qed.

Lemma returns_result {A} (m : M A) w :
  logs_only m -> returns m w <-> exists a, result m (fs w) = Ok a.
Proof. intros H. unfold returns. by rewrite (H w). Qed.

Lemma returns_emits {A} (m : M A) w d :
  logs_only m -> returns m (emits w d) <-> returns m w.
Proof. intros H. by rewrite !(returns_result m _ H), fs_emits. Qed.


(** ** The batch run *)

(** C7 fails on the code.  [main] hands [args.log_folder], a string, to
    [_configure_logging], whose [log_folder / log_fn] raises [TypeError]:
    every run of [main] stops there, whatever the packages and the tree.
    No package is linted, nothing is logged and no total is printed. *)
Theorem main_raises_TypeError (args : Namespace) (w : World) :
  main args w = (Raise TypeError, w).
Proof. unfold main, bind, _configure_logging, raise. reflexivity. Qed.

(** ** Paths and the tree *)

Lemma name_joinpath p c : name (joinpath p c) = c.
Proof. unfold name, joinpath. apply last_last. Qed.

Lemma follow_not_link n m : follow n = Found m -> follow m = Found m.
Proof.
  induction n using node_induction; cbn [follow]; try done;
    by intros [= <-].
Qed.

Lemma resolve_nil n : resolve n [] = follow n.
Proof. cbn [resolve]. by destruct (follow n). Qed.

Lemma resolve_follow n q :
  resolve n q =
  match follow n with
  | Found m => resolve m q
  | e => e
  end.
Proof.
  destruct (follow n) as [m| | |] eqn:Hn.
  - destruct q as [|nm q]; cbn [resolve]; by rewrite Hn, (follow_not_link n m Hn).
  - destruct q; cbn [resolve]; by rewrite Hn.
  - destruct q; cbn [resolve]; by rewrite Hn.
  - destruct q; cbn [resolve]; by rewrite Hn.
Qed.

Lemma resolve_found n q m : resolve n q = Found m -> follow m = Found m.
Proof.
  revert n. induction q as [|nm q IH]; intros n; cbn [resolve].
  - destruct (follow n) as [x| | |] eqn:Hn; try done. intros [= <-].
    by apply (follow_not_link n).
  - destruct (follow n) as [[|r x es| | | |]| | |]; try done.
    destruct x; [|done]. destruct (child nm es); [apply IH|done].
Qed.

Lemma resolve_app n p q :
  resolve n (p ++ q) =
  match resolve n p with
  | Found c => resolve c q
  | e => e
  end.
Proof.
  revert n. induction p as [|nm p IH]; intros n.
  - cbn [app]. rewrite resolve_nil. apply resolve_follow.
  - cbn [app resolve]. destruct (follow n) as [[|r x es| | | |]| | |]; try done.
    destruct x; [|done]. destruct (child nm es); [apply IH|done].
Qed.

Lemma resolve_joinpath n p c :
  resolve n (joinpath p c) =
  match resolve n p with
  | Found (Dir _ true es) =>
      match child c es with Some y => follow y | None => ENOENT end
  | Found (Dir _ false _) => EACCES
  | Found _ => ENOTDIR
  | e => e
  end.
Proof.
  unfold joinpath. rewrite resolve_app.
  destruct (resolve n p) as [m| | |] eqn:Hp; try done.
  pose proof (resolve_found n p m Hp) as Hm. cbn [resolve]. rewrite Hm.
  destruct m as [|r [] es| | | |]; try done.
  destruct (child c es) as [y|]; [apply resolve_nil|done].
Qed.

Lemma below_refl p : below p p.
Proof. exists []. by rewrite app_nil_r. Qed.

Lemma below_joinpath p x c : below p x -> below p (joinpath x c).
Proof. intros [q ->]. exists (q ++ [c]). unfold joinpath. by rewrite app_assoc. Qed.

(** [rglob] yields paths strictly below its starting point. *)
Lemma walk_below n : forall base q,
  In q (walk base n) -> exists nm rest, q = base ++ nm :: rest.
Proof.
  induction n as [sz|r x es IH| |target _| |] using node_induction;
    intros base q Hq; try (by destruct Hq).
  destruct r; [|destruct Hq]. cbn [walk] in Hq.
  apply in_app_iff in Hq as [Hq|Hq].
  - apply in_map_iff in Hq as [e [<- _]]. by exists (fst e), [].
  - destruct x; [|destruct Hq].
    induction es as [|[nm c] es IHes]; [destruct Hq|].
    apply Forall_cons in IH as [IHc IHrest]. cbn [snd] in IHc.
    destruct c as [|r' x' es'| | | |]; try (by apply IHes); try (by destruct Hq).
    apply in_app_iff in Hq as [Hq|Hq]; [|by apply IHes].
    destruct (IHc (joinpath base nm) q Hq) as (nm' & rest & ->).
    exists nm, (nm' :: rest). unfold joinpath. by rewrite <- app_assoc.
Qed.

(** ** List comprehensions and loops over total readers *)

Lemma filterM_total {A} (c : A -> M bool) (g : A -> bool) xs w :
  (forall x, In x xs -> c x w = (Ok (g x), w)) ->
  filterM c xs w = (Ok (List.filter g xs), w).
Proof.
  induction xs as [|x xs IH]; intros Hc; [done|].
  cbn [filterM List.filter]. unfold bind at 1. rewrite (Hc x); [|by left].
  unfold bind at 1. rewrite IH; [|intros y Hy; apply Hc; by right].
  unfold ret. by destruct (g x).
Qed.

(** A comprehension stops at the first element whose test raises. *)
Lemma filterM_raises {A} (c : A -> M bool) (g : A -> bool) xs1 x xs2 e w :
  (forall y, In y xs1 -> c y w = (Ok (g y), w)) ->
  c x w = (Raise e, w) ->
  filterM c (xs1 ++ x :: xs2) w = (Raise e, w).
Proof.
  induction xs1 as [|y xs1 IH]; intros Hc Hx; cbn [app filterM].
  - unfold bind at 1. by rewrite Hx.
  - unfold bind at 1. rewrite (Hc y); [|by left]. unfold bind at 1.
    rewrite IH; [done| |done]. intros z Hz. apply Hc. by right.
Qed.

Lemma is_dir_run p w :
  denied_at (fs w) p = false -> is_dir p w = (Ok (is_dir_at (fs w) p), w).
Proof.
  unfold denied_at, is_dir, is_dir_at.
  by destruct (resolve (fs w) p) as [[| | | | |]| | |].
Qed.

Lemma is_file_run p w :
  denied_at (fs w) p = false -> is_file p w = (Ok (is_file_at (fs w) p), w).
Proof.
  unfold denied_at, is_file, is_file_at.
  by destruct (resolve (fs w) p) as [[| | | | |]| | |].
Qed.

Lemma exists_run p w :
  denied_at (fs w) p = false -> exists_ p w = (Ok (exists_at (fs w) p), w).
Proof.
  unfold denied_at, exists_, exists_at.
  by destruct (resolve (fs w) p) as [[| | | | |]| | |].
Qed.

Lemma is_dir_denied p w :
  denied_at (fs w) p = true -> is_dir p w = (Raise PermissionError, w).
Proof. unfold denied_at, is_dir. by destruct (resolve (fs w) p) as [[| | | | |]| | |]. Qed.

Lemma is_file_denied p w :
  denied_at (fs w) p = true -> is_file p w = (Raise PermissionError, w).
Proof. unfold denied_at, is_file. by destruct (resolve (fs w) p) as [[| | | | |]| | |]. Qed.

Lemma exists_denied p w :
  denied_at (fs w) p = true -> exists_ p w = (Raise PermissionError, w).
Proof. unfold denied_at, exists_. by destruct (resolve (fs w) p) as [[| | | | |]| | |]. Qed.

Lemma filterM_is_dir xs w :
  (forall x, In x xs -> denied_at (fs w) x = false) ->
  filterM is_dir xs w = (Ok (List.filter (is_dir_at (fs w)) xs), w).
Proof. intros H. apply filterM_total. intros x Hx. by apply is_dir_run, H. Qed.

Lemma filterM_is_file xs w :
  (forall x, In x xs -> denied_at (fs w) x = false) ->
  filterM is_file xs w = (Ok (List.filter (is_file_at (fs w)) xs), w).
Proof. intros H. apply filterM_total. intros x Hx. by apply is_file_run, H. Qed.

(** ** Plain trees *)

Lemma plain_follow n : plain n = true -> follow n = Found n.
Proof. by destruct n. Qed.

Lemma plain_child nm es c r x :
  plain (Dir r x es) = true -> child nm es = Some c -> plain c = true.
Proof.
  cbn [plain]. intros [_ Hes]%andb_prop. induction es as [|[k y] es IH]; [done|].
  cbn [forallb child] in *. apply andb_prop in Hes as [Hy Hes].
  destruct (String.eqb k nm); [by intros [= <-]|by apply IH].
Qed.

(** In a plain tree no path is refused, and what a path leads to is plain. *)
Lemma plain_resolve q : forall n,
  plain n = true ->
  match resolve n q with
  | Found c => plain c = true
  | EACCES => False
  | _ => True
  end.
Proof.
  induction q as [|nm q IH]; intros n Hn; cbn [resolve]; rewrite (plain_follow n Hn).
  - done.
  - destruct n as [|r x es| | | |]; try done.
    pose proof Hn as Hx. cbn [plain] in Hx. apply andb_prop in Hx as [-> _].
    destruct (child nm es) as [c|] eqn:Hc; [|done].
    apply IH. by apply (plain_child nm es c r true).
Qed.

Lemma plain_below n p c q :
  resolve n p = Found c -> plain c = true -> denied_at n (p ++ q) = false.
Proof.
  intros Hp Hc. unfold denied_at. rewrite resolve_app, Hp.
  pose proof (plain_resolve q c Hc) as H. by destruct (resolve c q).
Qed.

Lemma child_all_readable nm es c :
  forallb (fun '(_, c) => all_readable c) es = true ->
  child nm es = Some c -> all_readable c = true.
Proof.
  induction es as [|[k x] es IH]; [done|]. cbn [forallb child].
  intros [Hx Hes]%andb_prop. destruct (String.eqb k nm).
  - by intros [= <-].
  - by apply IH.
Qed.

(** In a plain tree whose directories may all be listed, every directory a
    path leads to may be listed. *)
Lemma all_readable_resolve q : forall n r x es,
  plain n = true -> all_readable n = true ->
  resolve n q = Found (Dir r x es) -> r = true.
Proof.
  induction q as [|nm q IH]; intros n r x es Hp Hn; cbn [resolve];
    rewrite (plain_follow n Hp).
  - intros [= ->]. cbn [all_readable] in Hn. by apply andb_prop in Hn as [-> _].
  - destruct n as [|r0 x0 es0| | | |]; try done. destruct x0; [|done].
    destruct (child nm es0) as [c|] eqn:Hc; [|done].
    cbn [all_readable] in Hn. apply andb_prop in Hn as [_ Hes].
    apply (IH c r x es); [by apply (plain_child nm es0 c r0 true)|].
    by apply (child_all_readable nm es0).
Qed.

(** ** objects_folder_correct_structure *)

Lemma missing_loop (objects : Path) (names : list string) : forall missing w,
  foldM
    (fun missing fp =>
       let* e := exists_ fp in
       ret (if negb e then missing ++ [name fp] else missing))
    missing (List.map (fun file => joinpath objects file) names) w =
  if existsb (fun nm => denied_at (fs w) (joinpath objects nm)) names
  then (Raise PermissionError, w)
  else (Ok (missing ++
            List.filter (fun nm => negb (exists_at (fs w) (joinpath objects nm))) names),
        w).
Proof.
  induction names as [|nm names IH]; intros missing w.
  - cbn. unfold ret. by rewrite app_nil_r.
  - cbn [List.map foldM List.filter existsb]. unfold bind at 1, bind at 1.
    destruct (denied_at (fs w) (joinpath objects nm)) eqn:Hd; cbn [orb].
    + by rewrite (exists_denied _ _ Hd).
    + rewrite (exists_run _ _ Hd). unfold ret at 1. rewrite IH, name_joinpath.
      destruct (existsb _ names); [done|].
      destruct (exists_at (fs w) (joinpath objects nm)); cbn [negb];
        by rewrite <- ?app_assoc.
Qed.

Lemma objects_folder_correct_structure_run p w :
  objects_folder_correct_structure p w =
  if existsb (fun nm => denied_at (fs w) (joinpath (joinpath p "objects") nm))
       required_in_objects
  then (Raise PermissionError, w)
  else
    if forallb (fun nm => exists_at (fs w) (joinpath (joinpath p "objects") nm))
         required_in_objects
    then (Ok true, w)
    else (Ok false,
          emits w
            [{| levelname := ERROR;
                msg := msg_incorrect_structure (name p)
                         (List.filter
                            (fun nm => negb (exists_at (fs w)
                                               (joinpath (joinpath p "objects") nm)))
                            required_in_objects) |}]).
Proof.
  unfold objects_folder_correct_structure. unfold bind at 1.
  change ([joinpath (joinpath p "objects") "data"] ++
          List.map (fun file => joinpath (joinpath p "objects") file)
            ["bag-info.txt"; "bagit.txt"; "manifest-md5.txt"; "tagmanifest-md5.txt"])
    with (List.map (fun file => joinpath (joinpath p "objects") file)
            required_in_objects).
  rewrite missing_loop. destruct (existsb _ required_in_objects); [done|].
  cbv beta iota. cbn [app].
  assert (Hm : forall (present : string -> bool) names,
            truthy (List.filter (fun nm => negb (present nm)) names) =
            negb (forallb present names)).
  { intros present. induction names as [|nm names IH]; [done|].
    cbn [List.filter forallb]. by destruct (present nm). }
  rewrite (Hm (fun nm => exists_at (fs w) (joinpath (joinpath p "objects") nm))).
  by destruct (forallb _ required_in_objects).
Qed.




(** ** objects_folder_has_no_empty_folder *)

(** C10.  When the objects folder exists and has no entries,
    [objects_folder_has_no_empty_folder] returns True and logs nothing.  In
    general the folders it tests for emptiness lie strictly below the
    objects folder, which is never among them. *)
Theorem empty_objects_folder_passes (p : Path) (w : World) (r x : bool) :
  resolve (fs w) (joinpath p "objects") = Found (Dir r x []) ->
  objects_folder_has_no_empty_folder p w = (Ok true, w) /\
  exists below, rglob (joinpath p "objects") w = (Ok below, w) /\
    Forall (fun q => exists nm rest, q = joinpath p "objects" ++ nm :: rest) below /\
    ~ In (joinpath p "objects") below.
Proof.
  intros Hobj. split.
  - unfold objects_folder_has_no_empty_folder, bind, rglob. rewrite Hobj.
    by destruct r, x.
  - unfold rglob. rewrite Hobj. eexists. split; [reflexivity|].
    assert (Hbelow : forall q,
      In q (walk (joinpath p "objects") (Dir r x [])) ->
      exists nm rest, q = joinpath p "objects" ++ nm :: rest)
      by (intros q Hq; by apply (walk_below (Dir r x []))).
    split; [by apply List.Forall_forall|].
    intros Hin. apply Hbelow in Hin as (nm & rest & Heq).
    apply (f_equal (@List.length string)) in Heq. rewrite length_app in Heq.
    simpl in Heq. lia.
Qed.

Lemma empty_objects_folder_passes_witness :
  objects_folder_has_no_empty_folder (Examples.package "ACQ_0000_000006") Examples.disk =
  (Ok true, Examples.disk).
Proof.
  apply (empty_objects_folder_passes
           (Examples.package "ACQ_0000_000006") Examples.disk true true).
  vm_compute. reflexivity.
Defined.

(** ** package_has_valid_subfolder_names *)

(** What the code compares with the expected set is the set of the names of
    all the entries of the package folder, whatever their kind. *)
Lemma package_has_valid_subfolder_names_spec p w x es :
  resolve (fs w) p = Found (Dir true x es) ->
  passes package_has_valid_subfolder_names p w <->
  entry_names (fs w) p = {[ "objects"; "metadata" ]}.
Proof.
  intros Hp. unfold passes, package_has_valid_subfolder_names, entry_names.
  unfold bind at 1, iterdir. rewrite Hp.
  rewrite List.map_map.
  rewrite (List.map_ext (fun e => name (joinpath p (fst e))) fst);
    [|intros e; apply name_joinpath].
  assert (Hexp : (list_to_set ["objects"; "metadata"] : gset string) =
                 {[ "objects"; "metadata" ]}).
  { apply set_eq. intros y. set_solver. }
  rewrite Hexp. case_bool_decide as Hd; cbn [fst].
  - split; [intros _; by symmetry|done].
  - split; [done|]. intros E. by rewrite E in Hd.
Qed.

(** C3 fails on the code.  A regular file next to the two folders makes the
    test fail although the names of the subfolders are exactly objects and
    metadata; and a regular file called metadata next to the objects folder
    makes it pass although objects is the only subfolder. *)
Theorem package_has_valid_subfolder_names_counts_files :
  (subfolder_names Examples.storage (Examples.package "ACQ_0000_000002") =
     {[ "objects"; "metadata" ]} /\
   package_has_valid_subfolder_names (Examples.package "ACQ_0000_000002") Examples.disk =
     (Ok false,
      emits Examples.disk
        [{| levelname := ERROR;
            msg := msg_subfolder_names "ACQ_0000_000002"
                     {[ "objects"; "metadata"; "notes.txt" ]} |}])) /\
  (subfolder_names Examples.storage (Examples.package "ACQ_0000_000007") = {[ "objects" ]} /\
   package_has_valid_subfolder_names (Examples.package "ACQ_0000_000007") Examples.disk =
     (Ok true, Examples.disk)).
Proof. repeat split; vm_compute; reflexivity. Qed.

(** ** Which exceptions the tests raise *)

Lemma on_tree_ret {A} n P (Q : A -> Prop) a : Q a -> on_tree n P Q (ret a).
Proof. intros Ha w Hw. by cbn. Qed.

Lemma on_tree_bind {A B} n P (Q : A -> Prop) (R : B -> Prop) m (k : A -> M B) :
  on_tree n P Q m -> (forall a, Q a -> on_tree n P R (k a)) ->
  on_tree n P R (bind m k).
Proof.
  intros Hm Hk w Hw. unfold bind. specialize (Hm w Hw).
  destruct (m w) as [[a|e] w']; [|done]. destruct Hm as [Hw' Ha].
  by apply Hk.
Qed.

Lemma on_tree_weaken {A} n (P P' : exn -> Prop) (Q Q' : A -> Prop) m :
  (forall e, P e -> P' e) -> (forall a, Q a -> Q' a) ->
  on_tree n P Q m -> on_tree n P' Q' m.
Proof.
  intros HP HQ Hm w Hw. specialize (Hm w Hw).
  destruct (m w) as [[a|e] w']; [|by apply HP]. destruct Hm. split; [done|by apply HQ].
Qed.

Lemma on_tree_never {A} n P (Q : A -> Prop) m : on_tree n never Q m -> on_tree n P Q m.
Proof. apply on_tree_weaken; [intros e []|done]. Qed.

Lemma on_tree_emit n P r : on_tree n P (fun _ => True) (emit r).
Proof. intros w Hw. by cbn. Qed.

Lemma on_tree_returns {A} (Q : A -> Prop) m w :
  on_tree (fs w) never Q m -> exists a, fst (m w) = Ok a /\ Q a.
Proof.
  intros Hm. specialize (Hm w eq_refl). destruct (m w) as [[a|e] w']; [|done].
  exists a. by destruct Hm.
Qed.

Lemma on_tree_raises {A} P (Q : A -> Prop) m w e :
  on_tree (fs w) P Q m -> raises m e w -> P e.
Proof.
  unfold raises. intros Hm He. specialize (Hm w eq_refl).
  destruct (m w) as [[a|e'] w']; cbn [fst] in He; [done|]. by injection He as <-.
Qed.

Lemma on_tree_filterM {A} n P (G : A -> Prop) (c : A -> M bool) xs :
  (forall x, In x xs -> on_tree n P (fun b => b = true -> G x) (c x)) ->
  on_tree n P (fun l => forall x, In x l -> In x xs /\ G x) (filterM c xs).
Proof.
  induction xs as [|x xs IH]; intros Hc; cbn [filterM].
  - by apply on_tree_ret.
  - eapply on_tree_bind; [apply Hc; by left|]. intros b Hb.
    eapply on_tree_bind; [apply IH; intros y Hy; apply Hc; by right|].
    intros r Hr. apply on_tree_ret. intros y Hy.
    destruct b; [destruct Hy as [<-|Hy]|].
    + split; [by left|by apply Hb].
    + destruct (Hr y Hy). split; [by right|done].
    + destruct (Hr y Hy). split; [by right|done].
Qed.

Lemma on_tree_foldM {A S} n P (body : S -> A -> M S) xs :
  (forall s x, In x xs -> on_tree n P (fun _ => True) (body s x)) ->
  forall s, on_tree n P (fun _ => True) (foldM body s xs).
Proof.
  induction xs as [|x xs IH]; intros Hb s; cbn [foldM].
  - by apply on_tree_ret.
  - eapply on_tree_bind; [apply Hb; by left|]. intros s' _.
    apply IH. intros s0 y Hy. apply Hb. by right.
Qed.

(** The verdict of a test: a log record and False, or True. *)
Ltac on_tree_verdict :=
  repeat first
    [ apply on_tree_ret; exact I
    | match goal with |- on_tree _ _ _ (if ?b then _ else _) => destruct b end
    | eapply on_tree_bind; [apply on_tree_emit|intros ? _] ].

(** *** The primitives *)

Lemma rglob_on_tree n x :
  on_tree n denied_only
    (fun l => forall q, In q l -> exists nm rest, q = x ++ nm :: rest) (rglob x).
Proof.
  intros w <-. unfold rglob. destruct (resolve (fs w) x) as [c| | |] eqn:E;
    try (split; [done|]; by intros q []); [|done].
  split; [done|]. intros q. apply walk_below.
Qed.

Lemma is_dir_on_tree n x :
  on_tree n denied_only (fun b => b = true -> is_dir_at n x = true) (is_dir x).
Proof.
  intros w <-. unfold is_dir, is_dir_at.
  by destruct (resolve (fs w) x) as [[| | | | |]| | |].
Qed.

Lemma is_file_on_tree n x :
  on_tree n denied_only (fun b => b = true -> is_file_at n x = true) (is_file x).
Proof.
  intros w <-. unfold is_file, is_file_at.
  by destruct (resolve (fs w) x) as [[| | | | |]| | |].
Qed.

Lemma exists_on_tree n x :
  on_tree n denied_only (fun _ => True) (exists_ x).
Proof.
  intros w <-. unfold exists_.
  by destruct (resolve (fs w) x) as [[| | | | |]| | |].
Qed.

(** [stat] of what [is_file] has accepted does not raise. *)
Lemma stat_on_tree n x :
  is_file_at n x = true -> on_tree n never (fun _ => True) (stat x).
Proof.
  intros Hx w <-. unfold stat. unfold is_file_at in Hx.
  by destruct (resolve (fs w) x) as [[| | | | |]| | |].
Qed.

(** [iterdir] of what [is_dir] has accepted raises when the directory may not
    be listed, and for no other reason. *)
Lemma iterdir_dir_on_tree n x :
  is_dir_at n x = true -> on_tree n denied_only (fun _ => True) (iterdir x).
Proof.
  intros Hx w <-. unfold iterdir. unfold is_dir_at in Hx.
  by destruct (resolve (fs w) x) as [[|[] ? ?| | | |]| | |].
Qed.

Lemma iterdir_on_tree n x :
  on_tree n os_error (fun l => forall q, In q l -> exists nm, q = joinpath x nm)
    (iterdir x).
Proof.
  intros w <-. unfold iterdir, os_error.
  destruct (resolve (fs w) x) as [[|[] ? es| | | |]| | |]; try tauto.
  split; [done|]. intros q Hq. apply in_map_iff in Hq as [e [<- _]]. by eexists.
Qed.

(** *** The tests *)

Lemma package_has_valid_name_never_raises n p :
  on_tree n never (fun _ => True) (package_has_valid_name p).
Proof. unfold package_has_valid_name. on_tree_verdict. Qed.

Lemma package_has_no_hidden_file_denied_only n p :
  on_tree n denied_only (fun _ => True) (package_has_no_hidden_file p).
Proof.
  unfold package_has_no_hidden_file.
  eapply on_tree_bind; [apply rglob_on_tree|]. intros all _. on_tree_verdict.
Qed.

Lemma package_has_no_zero_bytes_file_denied_only n p :
  on_tree n denied_only (fun _ => True) (package_has_no_zero_bytes_file p).
Proof.
  unfold package_has_no_zero_bytes_file.
  eapply on_tree_bind; [apply rglob_on_tree|]. intros all _.
  eapply on_tree_bind.
  { apply (on_tree_filterM n denied_only (fun x => is_file_at n x = true)).
    intros x _. apply is_file_on_tree. }
  intros files Hfiles.
  eapply on_tree_bind.
  { apply (on_tree_filterM n denied_only (fun _ => True)).
    intros x Hx. eapply on_tree_bind.
    - apply on_tree_never, stat_on_tree. by apply Hfiles.
    - intros st _. by apply on_tree_ret. }
  intros zero _. on_tree_verdict.
Qed.

Lemma metadata_folder_has_files_denied_only n p :
  on_tree n denied_only (fun _ => True) (metadata_folder_has_files p).
Proof.
  unfold metadata_folder_has_files.
  eapply on_tree_bind; [apply rglob_on_tree|]. intros all _.
  eapply on_tree_bind.
  { apply (on_tree_filterM n denied_only (fun _ => True)).
    intros x _. eapply on_tree_weaken; [| |apply is_file_on_tree]; done. }
  intros files _. on_tree_verdict.
Qed.

Lemma metadata_has_correct_naming_convention_denied_only n p :
  on_tree n denied_only (fun _ => True) (metadata_has_correct_naming_convention p).
Proof.
  unfold metadata_has_correct_naming_convention.
  eapply on_tree_bind; [apply rglob_on_tree|]. intros all _.
  eapply on_tree_bind.
  { apply (on_tree_filterM n denied_only (fun _ => True)).
    intros x _. eapply on_tree_weaken; [| |apply is_file_on_tree]; done. }
  intros files _. on_tree_verdict.
Qed.

Lemma objects_folder_correct_structure_denied_only n p :
  on_tree n denied_only (fun _ => True) (objects_folder_correct_structure p).
Proof.
  unfold objects_folder_correct_structure.
  eapply on_tree_bind.
  { apply on_tree_foldM. intros missing fp _.
    eapply on_tree_bind; [apply exists_on_tree|]. intros e _. by apply on_tree_ret. }
  intros missing _. on_tree_verdict.
Qed.

Lemma objects_folder_has_no_empty_folder_denied_only n p :
  on_tree n denied_only (fun _ => True) (objects_folder_has_no_empty_folder p).
Proof.
  unfold objects_folder_has_no_empty_folder.
  eapply on_tree_bind; [apply rglob_on_tree|]. intros all _.
  eapply on_tree_bind.
  { apply (on_tree_filterM n denied_only (fun x => is_dir_at n x = true)).
    intros x _. apply is_dir_on_tree. }
  intros folders Hfolders.
  eapply on_tree_bind.
  { apply on_tree_foldM. intros empty folder Hfolder.
    eapply on_tree_bind; [apply iterdir_dir_on_tree; by apply Hfolders|].
    intros entries _. by apply on_tree_ret. }
  intros empty _. on_tree_verdict.
Qed.

Lemma denied_only_os_error e : denied_only e -> os_error e.
Proof. unfold denied_only, os_error. tauto. Qed.

Lemma package_has_two_subfolders_os_error n p :
  on_tree n os_error (fun _ => True) (package_has_two_subfolders p).
Proof.
  unfold package_has_two_subfolders.
  eapply on_tree_bind; [apply iterdir_on_tree|]. intros children _.
  eapply on_tree_bind.
  { apply (on_tree_filterM n os_error (fun _ => True)).
    intros x _. eapply on_tree_weaken; [apply denied_only_os_error| |apply is_dir_on_tree].
    done. }
  intros folders _. on_tree_verdict.
Qed.

Lemma package_has_valid_subfolder_names_os_error n p :
  on_tree n os_error (fun _ => True) (package_has_valid_subfolder_names p).
Proof.
  unfold package_has_valid_subfolder_names.
  eapply on_tree_bind; [apply iterdir_on_tree|]. intros children _.
  cbv zeta. on_tree_verdict.
Qed.

Lemma metadata_folder_is_flat_os_error n p :
  on_tree n os_error (fun _ => True) (metadata_folder_is_flat p).
Proof.
  unfold metadata_folder_is_flat.
  eapply on_tree_bind; [apply iterdir_on_tree|]. intros children _.
  eapply on_tree_bind.
  { apply (on_tree_filterM n os_error (fun _ => True)).
    intros x _. eapply on_tree_weaken; [apply denied_only_os_error| |apply is_dir_on_tree].
    done. }
  intros folders _. on_tree_verdict.
Qed.

(** The exception of the listing of the metadata folder is the exception of
    [metadata_folder_is_flat], which logs nothing then. *)
Lemma metadata_folder_is_flat_raises p w e :
  raises (iterdir (joinpath p "metadata")) e w ->
  metadata_folder_is_flat p w = (Raise e, w).
Proof.
  unfold raises, metadata_folder_is_flat. unfold bind at 1.
  rewrite (reader_iterdir _ w). cbn [fst]. by intros ->.
Qed.

(** ** A package without links whose folders may all be searched *)

Section PlainPackage.
Variables (n : node) (p : Path) (c : node).
Hypothesis at_p : resolve n p = Found c.
Hypothesis plain_c : plain c = true.

Lemma below_not_denied x : below p x -> denied_at n x = false.
Proof. intros [q ->]. by apply (plain_below n p c q). Qed.

Lemma rglob_total x :
  below p x -> on_tree n never (fun l => forall q, In q l -> below p q) (rglob x).
Proof.
  intros Hx w Hw. pose proof (below_not_denied x Hx) as Hd.
  unfold rglob. unfold denied_at in Hd. rewrite Hw.
  destruct (resolve n x) as [m| | |] eqn:E; try done;
    try (split; [done|]; by intros q []).
  split; [done|]. intros q Hq. apply walk_below in Hq as (nm & rest & ->).
  destruct Hx as [r ->]. exists (r ++ nm :: rest). by rewrite app_assoc.
Qed.

Lemma is_dir_total x :
  below p x ->
  on_tree n never (fun b => b = true -> is_dir_at n x = true) (is_dir x).
Proof.
  intros Hx w Hw. pose proof (below_not_denied x Hx) as Hd.
  unfold is_dir, is_dir_at. unfold denied_at in Hd. rewrite Hw.
  by destruct (resolve n x) as [[| | | | |]| | |].
Qed.

Lemma is_file_total x :
  below p x ->
  on_tree n never (fun b => b = true -> is_file_at n x = true) (is_file x).
Proof.
  intros Hx w Hw. pose proof (below_not_denied x Hx) as Hd.
  unfold is_file, is_file_at. unfold denied_at in Hd. rewrite Hw.
  by destruct (resolve n x) as [[| | | | |]| | |].
Qed.

Lemma exists_total x : below p x -> on_tree n never (fun _ => True) (exists_ x).
Proof.
  intros Hx w Hw. pose proof (below_not_denied x Hx) as Hd.
  unfold exists_. unfold denied_at in Hd. rewrite Hw.
  by destruct (resolve n x) as [[| | | | |]| | |].
Qed.

Lemma iterdir_total x s es :
  below p x -> resolve n x = Found (Dir true s es) ->
  on_tree n never (fun l => forall q, In q l -> below p q) (iterdir x).
Proof.
  intros Hx Hes w Hw. unfold iterdir. rewrite Hw, Hes. split; [done|].
  intros q Hq. apply in_map_iff in Hq as [e [<- _]]. by apply below_joinpath.
Qed.

Lemma filterM_is_file_total xs :
  (forall q, In q xs -> below p q) ->
  on_tree n never (fun l => forall x, In x l -> In x xs /\ is_file_at n x = true)
    (filterM is_file xs).
Proof. intros Hxs. apply on_tree_filterM. intros x Hx. by apply is_file_total, Hxs. Qed.

Lemma filterM_is_dir_total xs :
  (forall q, In q xs -> below p q) ->
  on_tree n never (fun l => forall x, In x l -> In x xs /\ is_dir_at n x = true)
    (filterM is_dir xs).
Proof. intros Hxs. apply on_tree_filterM. intros x Hx. by apply is_dir_total, Hxs. Qed.

Lemma package_has_no_hidden_file_total :
  on_tree n never (fun _ => True) (package_has_no_hidden_file p).
Proof.
  unfold package_has_no_hidden_file.
  eapply on_tree_bind; [apply rglob_total, below_refl|]. intros all _.
  on_tree_verdict.
Qed.

Lemma package_has_no_zero_bytes_file_total :
  on_tree n never (fun _ => True) (package_has_no_zero_bytes_file p).
Proof.
  unfold package_has_no_zero_bytes_file.
  eapply on_tree_bind; [apply rglob_total, below_refl|]. intros all Hall.
  eapply on_tree_bind; [by apply filterM_is_file_total|]. intros files Hfiles.
  eapply on_tree_bind.
  { apply (on_tree_filterM n never (fun _ => True)).
    intros x Hx. eapply on_tree_bind.
    - apply stat_on_tree. by apply Hfiles.
    - intros st _. by apply on_tree_ret. }
  intros zero _. on_tree_verdict.
Qed.

Lemma metadata_folder_has_files_total :
  on_tree n never (fun _ => True) (metadata_folder_has_files p).
Proof.
  unfold metadata_folder_has_files.
  eapply on_tree_bind; [apply rglob_total, below_joinpath, below_refl|].
  intros all Hall.
  eapply on_tree_bind; [by apply filterM_is_file_total|]. intros files _.
  on_tree_verdict.
Qed.

Lemma metadata_has_correct_naming_convention_total :
  on_tree n never (fun _ => True) (metadata_has_correct_naming_convention p).
Proof.
  unfold metadata_has_correct_naming_convention.
  eapply on_tree_bind; [apply rglob_total, below_joinpath, below_refl|].
  intros all Hall.
  eapply on_tree_bind; [by apply filterM_is_file_total|]. intros files _.
  on_tree_verdict.
Qed.

Lemma objects_folder_correct_structure_total :
  on_tree n never (fun _ => True) (objects_folder_correct_structure p).
Proof.
  unfold objects_folder_correct_structure.
  eapply on_tree_bind.
  { apply on_tree_foldM. intros missing fp Hfp.
    eapply on_tree_bind; [|intros e _; by apply on_tree_ret].
    apply exists_total. cbn [app List.map In] in Hfp.
    destruct Hfp as [<-|[<-|[<-|[<-|[<-|[]]]]]];
      apply below_joinpath, below_joinpath, below_refl. }
  intros missing _. on_tree_verdict.
Qed.

Lemma package_has_two_subfolders_total s es :
  c = Dir true s es ->
  on_tree n never (fun _ => True) (package_has_two_subfolders p).
Proof.
  intros Hc. unfold package_has_two_subfolders.
  eapply on_tree_bind.
  { apply (iterdir_total p s es); [apply below_refl|by rewrite at_p, Hc]. }
  intros children Hchildren.
  eapply on_tree_bind; [by apply filterM_is_dir_total|]. intros folders _.
  on_tree_verdict.
Qed.

Lemma package_has_valid_subfolder_names_total s es :
  c = Dir true s es ->
  on_tree n never (fun _ => True) (package_has_valid_subfolder_names p).
Proof.
  intros Hc. unfold package_has_valid_subfolder_names.
  eapply on_tree_bind.
  { apply (iterdir_total p s es); [apply below_refl|by rewrite at_p, Hc]. }
  intros children _. cbv zeta. on_tree_verdict.
Qed.

Lemma metadata_folder_is_flat_total s ms :
  resolve n (joinpath p "metadata") = Found (Dir true s ms) ->
  on_tree n never (fun _ => True) (metadata_folder_is_flat p).
Proof.
  intros Hm. unfold metadata_folder_is_flat.
  eapply on_tree_bind.
  { apply (iterdir_total _ s ms); [apply below_joinpath, below_refl|done]. }
  intros children Hchildren.
  eapply on_tree_bind; [by apply filterM_is_dir_total|]. intros folders _.
  on_tree_verdict.
Qed.

Lemma objects_folder_has_no_empty_folder_total :
  all_readable c = true ->
  on_tree n never (fun _ => True) (objects_folder_has_no_empty_folder p).
Proof.
  intros Hr. unfold objects_folder_has_no_empty_folder.
  eapply on_tree_bind; [apply rglob_total, below_joinpath, below_refl|].
  intros all Hall.
  eapply on_tree_bind; [by apply filterM_is_dir_total|]. intros folders Hfolders.
  eapply on_tree_bind.
  { apply on_tree_foldM. intros empty folder Hfolder.
    destruct (Hfolders folder Hfolder) as [Hin Hdir].
    destruct (Hall folder Hin) as [q ->].
    unfold is_dir_at in Hdir.
    destruct (resolve n (p ++ q)) as [[|r s es| | | |]| | |] eqn:E; try done.
    assert (r = true) as ->.
    { rewrite resolve_app, at_p in E. by apply (all_readable_resolve q c r s es). }
    eapply on_tree_bind; [|intros entries _; by apply on_tree_ret].
    eapply on_tree_weaken; [| |apply (iterdir_total (p ++ q) s es)]; try done.
    by exists q. }
  intros empty _. on_tree_verdict.
Qed.

End PlainPackage.

(** ** Exceptions *)

Lemma raises_result {A} (m : M A) e w :
  logs_only m -> raises m e w <-> result m (fs w) = Raise e.
Proof. intros H. unfold raises. by rewrite (H w). Qed.

Lemma returns_on_tree {A} (m : M A) w :
  on_tree (fs w) never (fun _ => True) m -> returns m w.
Proof. intros H. destruct (on_tree_returns _ m w H) as [a [Ha _]]. by exists a. Qed.

Lemma result_on_tree (t : Path -> M bool) p w :
  In t all_tests -> on_tree (fs w) never (fun _ => True) (t p) ->
  exists b, result (t p) (fs w) = Ok b.
Proof.
  intros Ht H. destruct (returns_on_tree _ w H) as [b Hb].
  exists b. by rewrite <- (test_result t p w Ht).
Qed.

(** The first six tests return on a package folder without links that may be
    listed and whose folders may all be searched. *)
Lemma first_six_return p w s es :
  resolve (fs w) p = Found (Dir true s es) -> plain (Dir true s es) = true ->
  first_raise p (fs w) all_tests =
  match result (metadata_folder_is_flat p) (fs w) with
  | Raise e => Some e
  | Ok _ =>
      first_raise p (fs w)
        [metadata_has_correct_naming_convention; objects_folder_correct_structure;
         objects_folder_has_no_empty_folder]
  end.
Proof.
  intros Hp Hc.
  cbn [all_tests less_strict_tests strict_tests app first_raise].
  destruct (result_on_tree package_has_no_hidden_file p w) as [b1 ->];
    [cbn; tauto|by apply (package_has_no_hidden_file_total _ _ _ Hp)|].
  destruct (result_on_tree package_has_no_zero_bytes_file p w) as [b2 ->];
    [cbn; tauto|by apply (package_has_no_zero_bytes_file_total _ _ _ Hp)|].
  destruct (result_on_tree metadata_folder_has_files p w) as [b3 ->];
    [cbn; tauto|by apply (metadata_folder_has_files_total _ _ _ Hp)|].
  destruct (result_on_tree package_has_valid_name p w) as [b4 ->];
    [cbn; tauto|apply package_has_valid_name_never_raises|].
  destruct (result_on_tree package_has_two_subfolders p w) as [b5 ->];
    [cbn; tauto|by apply (package_has_two_subfolders_total _ _ _ Hp Hc s es)|].
  destruct (result_on_tree package_has_valid_subfolder_names p w) as [b6 ->];
    [cbn; tauto|by apply (package_has_valid_subfolder_names_total _ _ _ Hp s es)|].
  done.
Qed.

(** On such a package the exception of the listing of its metadata folder is
    the exception of [lint_package]. *)
Lemma lint_package_raises p w s es e :
  resolve (fs w) p = Found (Dir true s es) -> plain (Dir true s es) = true ->
  raises (iterdir (joinpath p "metadata")) e w ->
  raises (lint_package p) e w.
Proof.
  intros Hp Hc He. unfold raises. rewrite lint_package_spec. cbn [fst].
  rewrite (first_six_return p w s es Hp Hc).
  assert (result (metadata_folder_is_flat p) (fs w) = Raise e) as ->; [|done].
  apply (proj1 (raises_result _ e w (proj1 (check_metadata_folder_is_flat p)))).
  unfold raises. by rewrite (metadata_folder_is_flat_raises p w e He).
Qed.

(** An exception of a test is not caught: [lint_package] raises. *)
Lemma lint_package_lets_through t p w e :
  In t all_tests -> raises (t p) e w -> exists e', raises (lint_package p) e' w.
Proof.
  intros Ht He. unfold raises. rewrite lint_package_spec. cbn [fst].
  destruct (first_raise p (fs w) all_tests) as [e'|] eqn:E; [by exists e'|].
  destruct (proj1 (first_raise_None p (fs w) all_tests) E t Ht) as [b Hb].
  unfold raises in He. rewrite (test_result t p w Ht) in He. congruence.
Qed.




(** ** re.fullmatch and the identifier pattern *)

Lemma nullable_lang r : nullable r = true <-> lang r [].
Proof.
  induction r as [| |c|lo hi|r1 IH1 r2 IH2|r1 IH1 r2 IH2]; simpl.
  - split; [discriminate|done].
  - done.
  - split; discriminate.
  - split; [discriminate|]. intros (c & Hc & _). discriminate.
  - rewrite andb_true_iff, IH1, IH2. split.
    + intros [H1 H2]. by exists [], [].
    + intros (s1 & s2 & Hs & H1 & H2). symmetry in Hs.
      apply app_eq_nil in Hs as [-> ->]. done.
  - rewrite orb_true_iff, IH1, IH2. done.
Qed.

Lemma deriv_lang r : forall c s, lang (deriv c r) s <-> lang r (c :: s).
Proof.
  induction r as [| |c'|lo hi|r1 IH1 r2 IH2|r1 IH1 r2 IH2]; intros c s; simpl.
  - done.
  - split; [done|discriminate].
  - destruct (Ascii.eqb_spec c' c) as [->|Hne]; simpl.
    + split; [by intros ->|by intros [= ->]].
    + split; [done|]. intros [= -> _]. done.
  - destruct (in_range lo hi c) eqn:E; simpl.
    + split; [intros ->; by exists c|]. by intros (c0 & [= -> ->] & _).
    + split; [done|]. intros (c0 & [= -> ->] & Hc). congruence.
  - assert (Hcat : lang (re_cat (deriv c r1) r2) s <->
                   exists s1 s2, s = s1 ++ s2 /\ lang r1 (c :: s1) /\ lang r2 s2).
    { simpl. split; intros (s1 & s2 & Hs & H1 & H2); exists s1, s2;
        (split; [done|]); (split; [by apply IH1|done]). }
    destruct (nullable r1) eqn:N.
    + cbn [lang] in Hcat |- *. rewrite Hcat, IH2. split.
      * intros [(s1 & s2 & -> & H1 & H2)|H2].
        -- by exists (c :: s1), s2.
        -- exists [], (c :: s). repeat split; [|done]. by apply nullable_lang.
      * intros (s1 & s2 & Hs & H1 & H2). destruct s1 as [|c1 s1].
        -- right. simpl in Hs. by rewrite Hs.
        -- left. injection Hs as -> ->. by exists s1, s2.
    + rewrite Hcat. split.
      * intros (s1 & s2 & -> & H1 & H2). by exists (c :: s1), s2.
      * intros (s1 & s2 & Hs & H1 & H2). destruct s1 as [|c1 s1].
        -- apply nullable_lang in H1. congruence.
        -- injection Hs as -> ->. by exists s1, s2.
  - by rewrite IH1, IH2.
Qed.

(** The matcher decides the language of the expression. *)
Lemma re_fullmatch_lang s : forall r,
  re_fullmatch r s = true <-> lang r (list_ascii_of_string s).
Proof.
  induction s as [|c s IH]; intros r; simpl.
  - apply nullable_lang.
  - by rewrite IH, deriv_lang.
Qed.

Lemma lang_literal t s :
  lang (re_literal t) s <-> s = list_ascii_of_string t.
Proof.
  revert s. induction t as [|c t IH]; intros s; simpl; [done|]. split.
  - intros (s1 & s2 & -> & -> & H2). apply IH in H2. by rewrite H2.
  - intros ->. exists [c], (list_ascii_of_string t). repeat split. by apply IH.
Qed.

Lemma digit_range c : in_range "0" "9" c = is_digit c.
Proof. by destruct c as [[] [] [] [] [] [] [] []]. Qed.

Lemma lang_digits n s :
  lang (re_repeat n (re_range "0" "9")) s <->
  List.length s = n /\ forallb is_digit s = true.
Proof.
  revert s. induction n as [|n IH]; intros s; simpl.
  - split; [by intros ->|]. intros [Hl _]. by destruct s.
  - split.
    + intros (s1 & s2 & -> & (c & -> & Hc) & H2). apply IH in H2 as [<- H2].
      simpl. by rewrite <- digit_range, Hc, H2.
    + intros [Hl Hd]. destruct s as [|c s]; [done|]. simpl in Hl, Hd.
      apply andb_prop in Hd as [Hc Hd]. exists [c], s. repeat split.
      * exists c. by rewrite digit_range.
      * apply IH. split; [lia|done].
Qed.

Lemma ACQ_pattern_conforms s :
  re_fullmatch ACQ_pattern s = true <-> conforms_to_ACQ s.
Proof.
  rewrite re_fullmatch_lang. unfold ACQ_pattern, conforms_to_ACQ.
  cbn [lang]. split.
  - intros (s1 & s2 & -> & H1%lang_literal & s3 & s4 & -> & [H3l H3d]%lang_digits &
            s5 & s6 & -> & -> & [H6l H6d]%lang_digits).
    exists s3, s6. by rewrite H1.
  - intros (d4 & d6 & -> & H4 & H6 & Hd4 & Hd6).
    exists (list_ascii_of_string "ACQ_"), (d4 ++ ["_"%char] ++ d6).
    split; [done|]. split; [by apply lang_literal|].
    exists d4, (["_"%char] ++ d6). split; [done|]. split; [by apply lang_digits|].
    exists ["_"%char], d6. repeat split. by apply lang_digits.
Qed.

Lemma upper_digit c : is_digit c = true -> upper_char c = c.
Proof. by destruct c as [[] [] [] [] [] [] [] []]. Qed.

Lemma upper_string_of_list l :
  upper (string_of_list_ascii l) = string_of_list_ascii (List.map upper_char l).
Proof. induction l as [|c l IH]; simpl; [done|]. by rewrite IH. Qed.

Lemma map_upper_digits l :
  forallb is_digit l = true -> List.map upper_char l = l.
Proof.
  induction l as [|c l IH]; simpl; [done|].
  intros [Hc Hl]%andb_prop. by rewrite (upper_digit c Hc), IH.
Qed.

(** A conforming name has no lower-case letter. *)
Lemma conforms_upper s : conforms_to_ACQ s -> upper s = s.
Proof.
  intros (d4 & d6 & Hs & _ & _ & Hd4 & Hd6).
  rewrite <- (string_of_list_ascii_of_string s), Hs, upper_string_of_list.
  rewrite !List.map_app, (map_upper_digits d4 Hd4), (map_upper_digits d6 Hd6).
  reflexivity.
Qed.

Lemma package_has_valid_name_run p w :
  package_has_valid_name p w =
  if re_fullmatch ACQ_pattern (name p) then (Ok true, w)
  else (Ok false,
        emits w [{| levelname := ERROR; msg := msg_name_nonconforming (name p) |}]).
Proof.
  unfold package_has_valid_name. by destruct (re_fullmatch ACQ_pattern (name p)).
Qed.

(** C4, as the code has it.  [package_has_valid_name] returns True if and only if the whole name
    of the package folder is the token ACQ, an underscore, exactly four
    digits, an underscore and exactly six digits, and False otherwise.  The
    match is case sensitive: a name that differs from a conforming one in
    letter case only fails.  When the test fails, ["invalid"] is the only
    verdict [lint_package] can return, and it does return it when the ten
    tests return. *)
Theorem package_has_valid_name_spec (p : Path) (w : World) :
  (passes package_has_valid_name p w <-> conforms_to_ACQ (name p)) /\
  (fails package_has_valid_name p w <-> ~ conforms_to_ACQ (name p)) /\
  (forall s0, conforms_to_ACQ s0 -> upper (name p) = s0 -> name p <> s0 ->
     fails package_has_valid_name p w) /\
  (fails package_has_valid_name p w ->
   (forall v, fst (lint_package p w) = Ok v -> v = "invalid") /\
   ((forall t, In t all_tests -> returns (t p) w) ->
    fst (lint_package p w) = Ok "invalid")).
Proof.
  assert (Hpass : passes package_has_valid_name p w <-> conforms_to_ACQ (name p)).
  { rewrite <- ACQ_pattern_conforms. unfold passes.
    rewrite package_has_valid_name_run.
    by destruct (re_fullmatch ACQ_pattern (name p)). }
  assert (Hfail : fails package_has_valid_name p w <-> ~ conforms_to_ACQ (name p)).
  { rewrite <- ACQ_pattern_conforms. unfold fails.
    rewrite package_has_valid_name_run.
    destruct (re_fullmatch ACQ_pattern (name p)); cbn [fst]; split; done. }
  split; [done|]. split; [done|]. split.
  - intros s0 Hs0 Hup Hne. apply Hfail. intros Hc.
    apply conforms_upper in Hc. congruence.
  - intros Hf.
    assert (Hv : verdict p (fs w) = "invalid").
    { apply verdict_invalid. exists package_has_valid_name. split; [|done].
      unfold strict_tests. by left. }
    rewrite lint_package_spec. cbn [fst]. split.
    + intros v. destruct (first_raise p (fs w) all_tests); [done|].
      intros [= <-]. exact Hv.
    + intros Hret. rewrite (proj1 (all_return_first_raise p w) Hret). by rewrite Hv.
Qed.

Lemma package_has_valid_name_spec_witness :
  fails package_has_valid_name (Examples.package "acq_1234_123456") Examples.disk /\
  fst (lint_package (Examples.package "acq_1234_123456") Examples.disk) = Ok "invalid".
Proof.
  destruct (package_has_valid_name_spec
              (Examples.package "acq_1234_123456") Examples.disk)
    as (_ & _ & Hcase & Hinvalid).
  assert (Hf : fails package_has_valid_name
                 (Examples.package "acq_1234_123456") Examples.disk).
  { apply (Hcase "ACQ_1234_123456").
    - apply ACQ_pattern_conforms. reflexivity.
    - reflexivity.
    - discriminate. }
  split; [exact Hf|]. apply (proj2 (Hinvalid Hf)). each_test.
Defined.

(** C4, as the claim has it, fails: the name acq_0000_000009 differs from a
    conforming one in letter case only, the name test fails on it, and the
    verdict is not ["invalid"]: the package has no metadata folder, so
    [lint_package] raises [FileNotFoundError] and returns no verdict. *)
Lemma nonconforming_name_without_verdict :
  upper "acq_0000_000009" = "ACQ_0000_000009" /\
  re_fullmatch ACQ_pattern "ACQ_0000_000009" = true /\
  package_has_valid_name (Examples.package "acq_0000_000009") Examples.disk =
    (Ok false,
     emits Examples.disk
       [{| levelname := ERROR; msg := msg_name_nonconforming "acq_0000_000009" |}]) /\
  fst (lint_package (Examples.package "acq_0000_000009") Examples.disk) =
    Raise FileNotFoundError.
Proof. repeat split; vm_compute; reflexivity. Qed.

(** ** The tests look at the package only *)

Lemma agree_below p q n1 n2 :
  agree p n1 n2 -> resolve n1 (p ++ q) = resolve n2 (p ++ q).
Proof. unfold agree. intros H. by rewrite !resolve_app, H. Qed.

Lemma result_bind_reader {A B} (m : M A) (k : A -> M B) n :
  reader m ->
  result (bind m k) n =
  match result m n with Ok a => result (k a) n | Raise e => Raise e end.
Proof.
  intros Hm. unfold result at 1, bind. rewrite (Hm (clean n)). simpl.
  by destruct (result m n).
Qed.

Lemma diagnostics_bind_reader {A B} (m : M A) (k : A -> M B) n :
  reader m ->
  diagnostics (bind m k) n =
  match result m n with Ok a => diagnostics (k a) n | Raise e => [] end.
Proof.
  intros Hm. unfold diagnostics at 1, bind. rewrite (Hm (clean n)). simpl.
  by destruct (result m n).
Qed.

Lemma local_ret {A} p (P : A -> Prop) a : P a -> local p P (ret a).
Proof. intros Ha n1 n2 _. split; [done|]. by intros ? [= <-]. Qed.

Lemma local_weaken {A} p (P Q : A -> Prop) m :
  (forall a, P a -> Q a) -> local p P m -> local p Q m.
Proof.
  intros HPQ Hm n1 n2 Hn. destruct (Hm n1 n2 Hn) as [Hr HP].
  split; [done|]. intros a Ha. by apply HPQ, HP.
Qed.

Lemma local_bind {A B} p (P : A -> Prop) (Q : B -> Prop) m (k : A -> M B) :
  reader m -> local p P m -> (forall a, P a -> local p Q (k a)) ->
  local p Q (bind m k).
Proof.
  intros Hrd Hm Hk n1 n2 Hn. rewrite !result_bind_reader by done.
  destruct (Hm n1 n2 Hn) as [<- HP].
  destruct (result m n1) as [a|e]; [|done].
  apply (Hk a (HP a eq_refl) n1 n2 Hn).
Qed.

Lemma local_check_bind {A B} p (P : A -> Prop) m (k : A -> M B) :
  reader m -> local p P m -> (forall a, P a -> local_check p (k a)) ->
  local_check p (bind m k).
Proof.
  intros Hrd Hm Hk n1 n2 Hn.
  rewrite !result_bind_reader, !diagnostics_bind_reader by done.
  destruct (Hm n1 n2 Hn) as [<- HP].
  destruct (result m n1) as [a|e]; [|done].
  apply (Hk a (HP a eq_refl) n1 n2 Hn).
Qed.

Lemma local_check_const {A} p (m : M A) :
  (forall n1 n2, m (clean n1) = (fst (m (clean n2)), emits (clean n1) (log (snd (m (clean n2)))))) ->
  local_check p m.
Proof.
  intros H n1 n2 _. unfold result, diagnostics. rewrite (H n1 n2). simpl. done.
Qed.

Lemma local_check_pass p : local_check p (ret true).
Proof. by apply local_check_const. Qed.

Lemma local_check_error p m : local_check p (LOGGER_error m;;; ret false).
Proof. by apply local_check_const. Qed.

Lemma local_check_warning p m : local_check p (LOGGER_warning m;;; ret false).
Proof. by apply local_check_const. Qed.

Lemma local_iterdir p x :
  below p x -> local p (Forall (below p)) (iterdir x).
Proof.
  intros [q ->] n1 n2 Hn. unfold result, iterdir. cbn [fs clean].
  rewrite (agree_below p q n1 n2 Hn).
  split; [by destruct (resolve n2 (p ++ q)) as [[|[] ? ?| | | |]| | |]|].
  intros l Hl. destruct (resolve n2 (p ++ q)) as [[|[] ? es| | | |]| | |]; try done.
  injection Hl as <-. apply List.Forall_forall. intros y Hy.
  apply in_map_iff in Hy as [e [<- _]]. apply below_joinpath. by exists q.
Qed.

Lemma local_rglob p x :
  below p x -> local p (Forall (below p)) (rglob x).
Proof.
  intros [q ->] n1 n2 Hn. unfold result, rglob. cbn [fs clean].
  rewrite (agree_below p q n1 n2 Hn).
  split; [by destruct (resolve n2 (p ++ q))|]. intros l Hl.
  destruct (resolve n2 (p ++ q)) as [c| | |]; cbn [fst] in Hl; try done;
    injection Hl as <-; [|done..].
  apply List.Forall_forall. intros y Hy.
  apply walk_below in Hy as (nm & rest & ->).
  exists (q ++ nm :: rest). by rewrite app_assoc.
Qed.

Lemma local_is_dir p x : below p x -> local p (fun _ => True) (is_dir x).
Proof.
  intros [q ->] n1 n2 Hn. unfold result, is_dir. cbn [fs clean].
  rewrite (agree_below p q n1 n2 Hn).
  by destruct (resolve n2 (p ++ q)) as [[| | | | |]| | |].
Qed.

Lemma local_is_file p x : below p x -> local p (fun _ => True) (is_file x).
Proof.
  intros [q ->] n1 n2 Hn. unfold result, is_file. cbn [fs clean].
  rewrite (agree_below p q n1 n2 Hn).
  by destruct (resolve n2 (p ++ q)) as [[| | | | |]| | |].
Qed.

Lemma local_exists p x : below p x -> local p (fun _ => True) (exists_ x).
Proof.
  intros [q ->] n1 n2 Hn. unfold result, exists_. cbn [fs clean].
  rewrite (agree_below p q n1 n2 Hn).
  by destruct (resolve n2 (p ++ q)) as [[| | | | |]| | |].
Qed.

Lemma local_stat p x : below p x -> local p (fun _ => True) (stat x).
Proof.
  intros [q ->] n1 n2 Hn. unfold result, stat. cbn [fs clean].
  rewrite (agree_below p q n1 n2 Hn).
  by destruct (resolve n2 (p ++ q)) as [[| | | | |]| | |].
Qed.

Lemma local_filterM p (c : Path -> M bool) xs :
  (forall x, reader (c x)) ->
  (forall x, below p x -> local p (fun _ => True) (c x)) ->
  Forall (below p) xs ->
  local p (Forall (below p)) (filterM c xs).
Proof.
  intros Hrd Hc. induction 1 as [|x xs Hx Hxs IH]; cbn [filterM].
  - by apply local_ret.
  - apply (local_bind p (fun _ => True)); [apply Hrd | by apply Hc |].
    intros b _. apply (local_bind p (Forall (below p)));
      [by apply reader_filterM | apply IH |].
    intros r Hr. apply local_ret. destruct b; [by constructor|done].
Qed.

Lemma local_foldM {S} p (I : S -> Prop) (body : S -> Path -> M S) xs :
  (forall s x, reader (body s x)) ->
  (forall s x, I s -> below p x -> local p I (body s x)) ->
  Forall (below p) xs ->
  forall s, I s -> local p I (foldM body s xs).
Proof.
  intros Hrd Hb. induction 1 as [|x xs Hx Hxs IH]; intros s Hs; cbn [foldM].
  - by apply local_ret.
  - apply (local_bind p I); [apply Hrd | by apply Hb |].
    intros s' Hs'. by apply IH.
Qed.

Ltac verdict_step :=
  repeat first
    [ apply local_check_pass | apply local_check_error | apply local_check_warning
    | match goal with |- local_check _ (if ?b then _ else _) => destruct b end ].

Ltac scan p :=
  apply (local_check_bind p (Forall (below p))); [reads | | intros ? ?].

Ltac below_package :=
  repeat first [ apply below_refl | apply below_joinpath ].

Lemma local_package_has_no_hidden_file p :
  local_check p (package_has_no_hidden_file p).
Proof.
  unfold package_has_no_hidden_file.
  scan p; [apply local_rglob; below_package|]. verdict_step.
Qed.

Lemma local_package_has_no_zero_bytes_file p :
  local_check p (package_has_no_zero_bytes_file p).
Proof.
  unfold package_has_no_zero_bytes_file.
  scan p; [apply local_rglob; below_package|].
  scan p; [apply local_filterM; [reads | intros; by apply local_is_file | done]|].
  scan p; [|verdict_step].
  apply local_filterM; [intros; reads| |done].
  intros x Hx. apply (local_bind p (fun _ => True)); [reads | by apply local_stat |].
  intros st _. by apply local_ret.
Qed.

Lemma local_metadata_folder_has_files p :
  local_check p (metadata_folder_has_files p).
Proof.
  unfold metadata_folder_has_files.
  scan p; [apply local_rglob; below_package|].
  scan p; [apply local_filterM; [reads | intros; by apply local_is_file | done]|].
  verdict_step.
Qed.

Lemma local_package_has_valid_name p :
  local_check p (package_has_valid_name p).
Proof. unfold package_has_valid_name. verdict_step. Qed.

Lemma local_package_has_two_subfolders p :
  local_check p (package_has_two_subfolders p).
Proof.
  unfold package_has_two_subfolders.
  scan p; [apply local_iterdir; below_package|].
  scan p; [apply local_filterM; [reads | intros; by apply local_is_dir | done]|].
  verdict_step.
Qed.

Lemma local_package_has_valid_subfolder_names p :
  local_check p (package_has_valid_subfolder_names p).
Proof.
  unfold package_has_valid_subfolder_names.
  scan p; [apply local_iterdir; below_package|]. verdict_step.
Qed.

Lemma local_metadata_folder_is_flat p :
  local_check p (metadata_folder_is_flat p).
Proof.
  unfold metadata_folder_is_flat.
  scan p; [apply local_iterdir; below_package|].
  scan p; [apply local_filterM; [reads | intros; by apply local_is_dir | done]|].
  verdict_step.
Qed.

Lemma local_metadata_has_correct_naming_convention p :
  local_check p (metadata_has_correct_naming_convention p).
Proof.
  unfold metadata_has_correct_naming_convention.
  scan p; [apply local_rglob; below_package|].
  scan p; [apply local_filterM; [reads | intros; by apply local_is_file | done]|].
  verdict_step.
Qed.

Lemma local_objects_folder_correct_structure p :
  local_check p (objects_folder_correct_structure p).
Proof.
  unfold objects_folder_correct_structure.
  apply (local_check_bind p (fun _ => True)); [reads| |intros; verdict_step].
  apply local_foldM; [intros; reads| | |done].
  - intros missing fp _ Hfp.
    apply (local_bind p (fun _ => True)); [reads | by apply local_exists |].
    intros e _. by apply local_ret.
  - cbn [app List.map]. repeat constructor; below_package.
Qed.

Lemma local_objects_folder_has_no_empty_folder p :
  local_check p (objects_folder_has_no_empty_folder p).
Proof.
  unfold objects_folder_has_no_empty_folder.
  scan p; [apply local_rglob; below_package|].
  scan p; [apply local_filterM; [reads | intros; by apply local_is_dir | done]|].
  apply (local_check_bind p (fun _ => True)); [reads| |intros; verdict_step].
  apply local_foldM; [intros; reads| |done|done].
  intros empty folder _ Hfolder.
  apply (local_bind p (fun _ => True)); [reads| |].
  - apply (local_weaken p (Forall (below p))); [done|]. by apply local_iterdir.
  - intros entries _. by apply local_ret.
Qed.

Lemma local_all_tests t p : In t all_tests -> local_check p (t p).
Proof.
  unfold all_tests, less_strict_tests, strict_tests. cbn [app In].
  intros [<-|[<-|[<-|[<-|[<-|[<-|[<-|[<-|[<-|[<-|[]]]]]]]]]]].
  - apply local_package_has_no_hidden_file.
  - apply local_package_has_no_zero_bytes_file.
  - apply local_metadata_folder_has_files.
  - apply local_package_has_valid_name.
  - apply local_package_has_two_subfolders.
  - apply local_package_has_valid_subfolder_names.
  - apply local_metadata_folder_is_flat.
  - apply local_metadata_has_correct_naming_convention.
  - apply local_objects_folder_correct_structure.
  - apply local_objects_folder_has_no_empty_folder.
Qed.

Lemma flat_map_same {A B} (f g : A -> list B) l :
  (forall x, In x l -> f x = g x) -> flat_map f l = flat_map g l.
Proof.
  induction l as [|x l IH]; intros H; [done|]. cbn [flat_map].
  rewrite (H x) by (by left). f_equal. apply IH. intros y Hy. apply H. by right.
Qed.

Lemma ran_incl p n ts : incl (ran p n ts) ts.
Proof.
  induction ts as [|t ts IH]; [intros x []|]. cbn [ran].
  destruct (result (t p) n).
  - intros x [<-|Hx]; [by left|right; by apply IH].
  - intros x [<-|[]]. by left.
Qed.

Section SameOutcomes.
Variables (p : Path) (n1 n2 : node).
Variable ts : list (Path -> M bool).
Hypothesis same_results : forall t, In t ts -> result (t p) n1 = result (t p) n2.

Lemma first_raise_same us : incl us ts -> first_raise p n1 us = first_raise p n2 us.
Proof.
  induction us as [|t us IH]; intros Hin; [done|]. cbn [first_raise].
  rewrite (same_results t) by (apply Hin; by left).
  destruct (result (t p) n2); [|done]. apply IH. intros x Hx. apply Hin. by right.
Qed.

Lemma ran_same us : incl us ts -> ran p n1 us = ran p n2 us.
Proof.
  induction us as [|t us IH]; intros Hin; [done|]. cbn [ran].
  rewrite (same_results t) by (apply Hin; by left).
  destruct (result (t p) n2); [|done]. f_equal. apply IH.
  intros x Hx. apply Hin. by right.
Qed.

Lemma existsb_failed_same us :
  incl us ts -> existsb (failed p n1) us = existsb (failed p n2) us.
Proof.
  induction us as [|t us IH]; intros Hin; [done|]. cbn [existsb].
  unfold failed at 1 3. rewrite (same_results t) by (apply Hin; by left).
  f_equal. apply IH. intros x Hx. apply Hin. by right.
Qed.
End SameOutcomes.

(** What [lint_package] returns or raises and what it logs are the same on
    two trees that hold the same at the package path. *)
Lemma local_lint_package p : local_check p (lint_package p).
Proof.
  intros n1 n2 Hn.
  assert (Hres : forall t, In t all_tests -> result (t p) n1 = result (t p) n2).
  { intros t Ht. apply (local_all_tests t p Ht n1 n2 Hn). }
  assert (Hdiag : forall t, In t all_tests ->
                    diagnostics (t p) n1 = diagnostics (t p) n2).
  { intros t Ht. apply (local_all_tests t p Ht n1 n2 Hn). }
  unfold result, diagnostics. rewrite !lint_package_spec. cbn [fst snd fs clean emits log app].
  rewrite (first_raise_same p n1 n2 all_tests Hres all_tests) by apply incl_refl.
  rewrite (ran_same p n1 n2 all_tests Hres all_tests) by apply incl_refl.
  split.
  - destruct (first_raise p n2 all_tests); [done|]. f_equal. unfold verdict.
    rewrite (existsb_failed_same p n1 n2 all_tests Hres strict_tests),
            (existsb_failed_same p n1 n2 all_tests Hres less_strict_tests); [done|..];
      unfold all_tests; intros x Hx; apply in_app_iff; tauto.
  - apply flat_map_same. intros t Ht. apply Hdiag. by apply (ran_incl p n2).
Qed.

(** C8.  Two evaluations of [lint_package] on a package whose folder holds
    the same in the two trees give the same outcome (the same verdict, or
    the same exception) and log the same records, whatever has been logged
    or printed before and whatever the trees hold elsewhere.  In particular
    a second evaluation right after the first repeats its outcome and its
    records: nothing is remembered from one call to the next. *)
Theorem lint_package_deterministic (p : Path) (w1 w2 : World) :
  resolve (fs w1) p = resolve (fs w2) p ->
  (fst (lint_package p w1) = fst (lint_package p w2) /\
   exists d, snd (lint_package p w1) = emits w1 d /\
             snd (lint_package p w2) = emits w2 d) /\
  (fst (lint_package p (snd (lint_package p w1))) = fst (lint_package p w1) /\
   exists d, snd (lint_package p w1) = emits w1 d /\
             snd (lint_package p (snd (lint_package p w1))) =
               emits (snd (lint_package p w1)) d).
Proof.
  intros Hsame. split.
  - destruct (local_lint_package p (fs w1) (fs w2) Hsame)
      as [Hr Hd].
    rewrite (logs_only_lint_package p w1), (logs_only_lint_package p w2).
    cbn [fst snd]. split; [done|].
    exists (diagnostics (lint_package p) (fs w1)). by rewrite Hd.
  - rewrite (logs_only_lint_package p w1). cbn [fst snd].
    rewrite (logs_only_lint_package p (emits w1 _)). cbn [fst snd].
    rewrite fs_emits. split; [done|]. by eexists.
Qed.

Lemma lint_package_deterministic_witness :
  fst (lint_package (Examples.package "ACQ_1234_123456") Examples.disk) =
  fst (lint_package (Examples.package "ACQ_1234_123456") later_elsewhere).
Proof.
  apply (lint_package_deterministic
           (Examples.package "ACQ_1234_123456") Examples.disk later_elsewhere).
  vm_compute. reflexivity.
Defined.

(** C1, as the claim has it, fails: on a package without a metadata folder
    the strict test [package_has_two_subfolders] fails, and [lint_package]
    does not return ["invalid"]: it raises. *)
Lemma lint_package_no_verdict_without_metadata :
  In package_has_two_subfolders strict_tests /\
  fails package_has_two_subfolders (Examples.package "ACQ_0000_000001") Examples.disk /\
  fst (lint_package (Examples.package "ACQ_0000_000001") Examples.disk) <> Ok "invalid".
Proof.
  split; [right; by left|]. split; [vm_compute; reflexivity|].
  intros H. vm_compute in H. discriminate H.
Qed.

(** * Further properties of the module *)

(** ** Well-formed trees and recursive scans *)

Lemma child_In nm es c : child nm es = Some c -> In (nm, c) es.
Proof.
  induction es as [|[k x] es IH]; [done|]. cbn [child].
  destruct (String.eqb_spec k nm) as [->|Hne].
  - intros [= ->]. by left.
  - intros H. right. by apply IH.
Qed.

Lemma in_list_In x xs : in_list x xs = true <-> In x xs.
Proof.
  unfold in_list. rewrite existsb_exists. split.
  - intros (y & Hy & Heq). apply String.eqb_eq in Heq. by subst.
  - intros H. exists x. split; [done|]. apply String.eqb_refl.
Qed.

Lemma In_child nm es c :
  distinct (List.map fst es) = true -> In (nm, c) es -> child nm es = Some c.
Proof.
  induction es as [|[k x] es IH]; [done|]. cbn [List.map fst distinct child].
  intros [Hk Hes]%andb_prop [[= -> ->]|Hin].
  - by rewrite String.eqb_refl.
  - destruct (String.eqb_spec k nm) as [->|Hne]; [|by apply IH].
    exfalso. apply negb_true_iff in Hk.
    assert (in_list nm (List.map fst es) = true); [|congruence].
    apply in_list_In, in_map_iff. by exists (nm, c).
Qed.

Lemma well_formed_child nm es c r s :
  well_formed (Dir r s es) = true -> In (nm, c) es -> well_formed c = true.
Proof.
  cbn [well_formed]. intros [_ Hes]%andb_prop Hin.
  rewrite forallb_forall in Hes. apply (Hes (nm, c) Hin).
Qed.

Lemma plain_In nm es c r s :
  plain (Dir r s es) = true -> In (nm, c) es -> plain c = true.
Proof.
  cbn [plain]. intros [_ Hes]%andb_prop Hin.
  rewrite forallb_forall in Hes. apply (Hes (nm, c) Hin).
Qed.

Lemma plain_searchable r s es : plain (Dir r s es) = true -> s = true.
Proof. cbn [plain]. by intros [-> _]%andb_prop. Qed.

Lemma well_formed_resolve p : forall n c,
  plain n = true -> well_formed n = true -> resolve n p = Found c ->
  well_formed c = true.
Proof.
  induction p as [|nm p IH]; intros n c Hpl Hn Hp.
  - rewrite resolve_nil, (plain_follow n Hpl) in Hp. by injection Hp as <-.
  - cbn [resolve] in Hp. rewrite (plain_follow n Hpl) in Hp.
    destruct n as [|r s es| | | |]; try done.
    rewrite (plain_searchable r s es Hpl) in Hp.
    destruct (child nm es) as [x|] eqn:Hx; [|done].
    apply child_In in Hx.
    apply (IH x c); [by apply (plain_In nm es x r s)| |done].
    by apply (well_formed_child nm es x r s).
Qed.

Lemma reachable_resolve q : forall n c,
  plain n = true -> reachable n q = Some c -> resolve n q = Found c.
Proof.
  induction q as [|nm q IH]; intros n c Hpl; cbn [reachable resolve];
    rewrite (plain_follow n Hpl).
  - by intros [= ->].
  - destruct n as [|[] s es| | | |]; try done.
    rewrite (plain_searchable true s es Hpl).
    destruct (child nm es) as [x|] eqn:Hx; [|done].
    apply IH. apply child_In in Hx. by apply (plain_In nm es x true s).
Qed.

(** Without links and with every directory searchable, a scan goes down
    into each directory among the entries. *)
Lemma walk_plain base s es :
  plain (Dir true s es) = true ->
  walk base (Dir true s es) =
  List.map (fun e => joinpath base (fst e)) es ++
  flat_map (fun e => walk (joinpath base (fst e)) (snd e)) es.
Proof.
  intros Hpl. pose proof (plain_searchable true s es Hpl) as ->.
  cbn [walk]. f_equal.
  cbn [plain andb] in Hpl.
  induction es as [|[nm c] es IH]; [done|].
  cbn [forallb] in Hpl. apply andb_prop in Hpl as [Hc Hes].
  cbn [flat_map fst snd]. rewrite <- (IH Hes).
  by destruct c.
Qed.

(** Every path a scan yields is the path of an entry it sees. *)
Lemma walk_sound n : forall base x,
  plain n = true -> well_formed n = true -> In x (walk base n) ->
  exists nm rest c, x = base ++ nm :: rest /\ reachable n (nm :: rest) = Some c.
Proof.
  induction n as [sz|r s es IH| |target _| |] using node_induction;
    intros base x Hpl Hwf Hx; try (by destruct Hx).
  destruct r; [|destruct Hx]. rewrite (walk_plain base s es Hpl) in Hx.
  pose proof Hwf as Hwf'. cbn [well_formed] in Hwf'.
  apply andb_prop in Hwf' as [Hdistinct _].
  apply in_app_iff in Hx as [Hx|Hx].
  - apply in_map_iff in Hx as [[nm c] [<- He]].
    exists nm, [], c. split; [done|]. cbn [reachable].
    by rewrite (In_child nm es c Hdistinct He).
  - apply in_flat_map in Hx as [[nm c] [He Hx]].
    rewrite List.Forall_forall in IH.
    destruct (IH _ He (joinpath base nm) x (plain_In nm es c true s Hpl He)
                (well_formed_child nm es c true s Hwf He) Hx)
      as (nm' & rest & c' & -> & Hc').
    exists nm, (nm' :: rest), c'. split.
    + unfold joinpath. by rewrite <- app_assoc.
    + cbn [reachable] in Hc' |- *. by rewrite (In_child nm es c Hdistinct He).
Qed.

(** Every entry a scan sees has its path among those the scan yields. *)
Lemma walk_complete rest : forall n base nm c,
  plain n = true ->
  reachable n (nm :: rest) = Some c -> In (base ++ nm :: rest) (walk base n).
Proof.
  induction rest as [|nm' rest IH]; intros n base nm c Hpl Hc;
    cbn [reachable] in Hc; destruct n as [|[] s es| | | |]; try done;
    destruct (child nm es) as [x|] eqn:Hx; try done;
    apply child_In in Hx; rewrite (walk_plain base s es Hpl); apply in_app_iff.
  - left. apply in_map_iff. by exists (nm, x).
  - right. apply in_flat_map. exists (nm, x). split; [done|].
    cbn [fst snd]. replace (base ++ nm :: nm' :: rest)
      with (joinpath base nm ++ nm' :: rest)
      by (unfold joinpath; by rewrite <- app_assoc).
    apply (IH x (joinpath base nm) nm' c); [|done].
    by apply (plain_In nm es x true s).
Qed.

Lemma name_below p q : q <> [] -> name (p ++ q) = name q.
Proof.
  intros Hq. unfold name. destruct (exists_last Hq) as (q' & c & ->).
  by rewrite app_assoc, !last_last.
Qed.

Lemma seen_nonempty n p q c : seen n p q = Some c -> q <> [].
Proof. unfold seen. destruct (resolve n p); destruct q; done. Qed.

Lemma truthy_filter {A} (f : A -> bool) l : truthy (List.filter f l) = existsb f l.
Proof.
  induction l as [|x l IH]; [done|]. cbn [List.filter existsb].
  by destruct (f x).
Qed.

(** *** Scans inside a package without links *)

Section ScanOfPackage.
Variables (n : node) (p : Path) (c : node).
Hypothesis at_p : resolve n p = Found c.
Hypothesis plain_c : plain c = true.
Hypothesis well_formed_c : well_formed c = true.

(** What is at a path below the package: nothing, or a plain well-formed
    node. *)
Lemma below_cases r :
  (exists m, resolve n (p ++ r) = Found m /\ plain m = true /\ well_formed m = true) \/
  resolve n (p ++ r) = ENOENT \/ resolve n (p ++ r) = ENOTDIR.
Proof.
  rewrite resolve_app, at_p. pose proof (plain_resolve r c plain_c) as Hpl.
  destruct (resolve c r) as [m| | |] eqn:E; [left|tauto|tauto|done].
  exists m. split; [done|]. split; [done|].
  by apply (well_formed_resolve r c m).
Qed.

Lemma below_found x :
  below p x ->
  (exists m, resolve n x = Found m /\ plain m = true /\ well_formed m = true) \/
  resolve n x = ENOENT \/ resolve n x = ENOTDIR.
Proof. intros [r ->]. apply below_cases. Qed.

Lemma seen_resolve x q y :
  below p x -> seen n x q = Some y -> resolve n (x ++ q) = Found y.
Proof.
  intros Hx. unfold seen. rewrite (resolve_app n x q).
  destruct (below_found x Hx) as [(m & -> & Hm & _)|[-> | ->]]; [|done..].
  destruct q; [done|]. by apply reachable_resolve.
Qed.

Lemma In_walk_at x y :
  below p x ->
  In y (walk_at n x) <-> exists q z, y = x ++ q /\ seen n x q = Some z.
Proof.
  intros Hx. unfold walk_at, seen.
  destruct (below_found x Hx) as [(m & -> & Hm & Hwf)|[-> | ->]].
  - split.
    + intros Hy. apply walk_sound in Hy as (nm & rest & z & -> & Hz); [|done..].
      by exists (nm :: rest), z.
    + intros (q & z & -> & Hz). destruct q as [|nm rest]; [done|].
      by apply (walk_complete rest m x nm z).
  - split; [done|]. by intros (q & z & _ & Hz).
  - split; [done|]. by intros (q & z & _ & Hz).
Qed.

Lemma rglob_run x w :
  below p x -> fs w = n -> rglob x w = (Ok (walk_at n x), w).
Proof.
  intros Hx Hw. unfold rglob, walk_at. rewrite Hw.
  by destruct (below_found x Hx) as [(m & -> & _)|[-> | ->]].
Qed.

Lemma walk_at_below x y : below p x -> In y (walk_at n x) -> below p y.
Proof.
  intros Hx Hy. apply In_walk_at in Hy as (q & z & -> & _); [|done].
  destruct Hx as [r ->]. exists (r ++ q). by rewrite app_assoc.
Qed.

Lemma walk_at_not_denied x y :
  below p x -> In y (walk_at n x) -> denied_at n y = false.
Proof.
  intros Hx Hy. destruct (walk_at_below x y Hx Hy) as [q ->].
  by apply (plain_below n p c).
Qed.

Lemma filterM_is_file_walk x w :
  below p x -> fs w = n ->
  filterM is_file (walk_at n x) w =
  (Ok (List.filter (is_file_at n) (walk_at n x)), w).
Proof.
  intros Hx Hw. rewrite filterM_is_file; rewrite Hw; [done|].
  intros y. by apply walk_at_not_denied.
Qed.

Lemma filterM_is_dir_walk x w :
  below p x -> fs w = n ->
  filterM is_dir (walk_at n x) w =
  (Ok (List.filter (is_dir_at n) (walk_at n x)), w).
Proof.
  intros Hx Hw. rewrite filterM_is_dir; rewrite Hw; [done|].
  intros y. by apply walk_at_not_denied.
Qed.

End ScanOfPackage.

(** ** The tests that scan recursively *)

Lemma stat_files_total n xs w :
  fs w = n ->
  filterM (fun f => let* st := stat f in ret (N.eqb (st_size st) 0))
    (List.filter (is_file_at n) xs) w =
  (Ok (List.filter
         (fun f => match resolve n f with Found (File sz) => N.eqb sz 0 | _ => false end)
         (List.filter (is_file_at n) xs)), w).
Proof.
  intros <-. apply filterM_total. intros x Hx.
  apply filter_In in Hx as [_ Hx]. unfold is_file_at in Hx.
  unfold bind, stat, ret.
  by destruct (resolve (fs w) x) as [[| | | | |]| | |].
Qed.

Lemma package_has_no_hidden_file_run p w c :
  resolve (fs w) p = Found c -> plain c = true -> well_formed c = true ->
  package_has_no_hidden_file p w =
  if existsb (fun h => hidden_name (name h)) (walk_at (fs w) p)
  then (Ok false,
        emits w [{| levelname := WARNING;
                    msg := msg_hidden_files (name p)
                             (List.filter (fun h => hidden_name (name h))
                                (walk_at (fs w) p)) |}])
  else (Ok true, w).
Proof.
  intros Hp Hpl Hwf.
  unfold package_has_no_hidden_file. unfold bind at 1.
  rewrite (rglob_run (fs w) p c Hp Hpl Hwf p w (below_refl p) eq_refl).
  change (fun h => startswith (name h) "." || startswith (name h) "Thumbs")
    with (fun h => hidden_name (name h)).
  rewrite truthy_filter. by destruct (existsb _ (walk_at (fs w) p)).
Qed.

(** X1.  On a package folder without symbolic links, in which every
    directory may be searched and no directory has two entries of one name,
    [package_has_no_hidden_file] returns, and it fails exactly when the scan
    of the package sees an entry, of any kind, whose name starts with a dot
    or with Thumbs.  The record it logs then lists the paths of exactly
    these entries.  An entry inside a directory that may not be listed is
    not seen. *)
Theorem package_has_no_hidden_file_sees (p : Path) (w : World) (c : node) :
  resolve (fs w) p = Found c -> plain c = true -> well_formed c = true ->
  (fails package_has_no_hidden_file p w <->
   exists q c, seen (fs w) p q = Some c /\ hidden_name (name q) = true) /\
  (passes package_has_no_hidden_file p w <->
   ~ exists q c, seen (fs w) p q = Some c /\ hidden_name (name q) = true) /\
  (fails package_has_no_hidden_file p w ->
   exists hidden_ls,
     snd (package_has_no_hidden_file p w) =
       emits w [{| levelname := WARNING;
                   msg := msg_hidden_files (name p) hidden_ls |}] /\
     forall x, In x hidden_ls <->
       exists q c, x = p ++ q /\ seen (fs w) p q = Some c /\
                   hidden_name (name q) = true).
Proof.
  intros Hp Hpl Hwf.
  assert (Hin : forall x,
            In x (List.filter (fun h => hidden_name (name h)) (walk_at (fs w) p)) <->
            exists q c, x = p ++ q /\ seen (fs w) p q = Some c /\
                        hidden_name (name q) = true).
  { intros x.
    rewrite filter_In, (In_walk_at (fs w) p c Hp Hpl Hwf p x (below_refl p)). split.
    - intros [(q & y & -> & Hy) Hh]. exists q, y. repeat split; [done|].
      by rewrite <- (name_below p q (seen_nonempty _ _ _ _ Hy)).
    - intros (q & y & -> & Hy & Hh). split; [by exists q, y|].
      by rewrite (name_below p q (seen_nonempty _ _ _ _ Hy)). }
  assert (Hex : existsb (fun h => hidden_name (name h)) (walk_at (fs w) p) = true <->
                exists q c, seen (fs w) p q = Some c /\ hidden_name (name q) = true).
  { rewrite existsb_exists. split.
    - intros (x & Hx & Hh).
      destruct (proj1 (Hin x)) as (q & y & _ & Hy & Hq); [by apply filter_In|].
      by exists q, y.
    - intros (q & y & Hy & Hh). exists (p ++ q).
      assert (Hx : In (p ++ q)
                     (List.filter (fun h => hidden_name (name h)) (walk_at (fs w) p)))
        by (apply Hin; by exists q, y).
      by apply filter_In in Hx. }
  unfold fails, passes. rewrite (package_has_no_hidden_file_run p w c Hp Hpl Hwf).
  destruct (existsb _ (walk_at (fs w) p)) eqn:E; cbn [fst snd].
  - split; [|split].
    + split; [intros _; by apply Hex|done].
    + split; [done|]. intros Hno. exfalso. apply Hno. by apply Hex.
    + intros _. eexists. split; [reflexivity|exact Hin].
  - assert (Hno : ~ exists q c, seen (fs w) p q = Some c /\ hidden_name (name q) = true).
    { intros H. apply Hex in H. discriminate H. }
    by repeat split.
Qed.

Lemma package_has_no_hidden_file_sees_witness :
  fails package_has_no_hidden_file (Examples.package "ACQ_0000_000003") Examples.disk.
Proof.
  apply (proj1 (package_has_no_hidden_file_sees
                  (Examples.package "ACQ_0000_000003") Examples.disk
                  Examples.hidden_file eq_refl eq_refl eq_refl)).
  exists ["objects"; "data"; ".DS_Store"], Examples.some_bytes. by split.
Defined.

Lemma package_has_no_zero_bytes_file_run p w c :
  resolve (fs w) p = Found c -> plain c = true -> well_formed c = true ->
  package_has_no_zero_bytes_file p w =
  let zero_bytes_ls :=
    List.filter
      (fun f => match resolve (fs w) f with Found (File sz) => N.eqb sz 0 | _ => false end)
      (List.filter (is_file_at (fs w)) (walk_at (fs w) p)) in
  if truthy zero_bytes_ls
  then (Ok false,
        emits w [{| levelname := WARNING;
                    msg := msg_zero_bytes_file (name p) zero_bytes_ls |}])
  else (Ok true, w).
Proof.
  intros Hp Hpl Hwf.
  unfold package_has_no_zero_bytes_file. unfold bind at 1.
  rewrite (rglob_run (fs w) p c Hp Hpl Hwf p w (below_refl p) eq_refl).
  unfold bind at 1.
  rewrite (filterM_is_file_walk (fs w) p c Hp Hpl Hwf p w (below_refl p) eq_refl).
  unfold bind at 1.
  rewrite (stat_files_total (fs w)); [|done]. cbv zeta.
  by destruct (truthy _).
Qed.

(** X2.  On a package folder without symbolic links, in which every
    directory may be searched and no directory has two entries of one name,
    [package_has_no_zero_bytes_file] returns, and it fails exactly when the
    scan of the package sees a regular file of size zero; directories and
    other entries are never stat'ed.  The record it logs then lists the
    paths of exactly these files. *)
Theorem package_has_no_zero_bytes_file_sees (p : Path) (w : World) (c : node) :
  resolve (fs w) p = Found c -> plain c = true -> well_formed c = true ->
  (fails package_has_no_zero_bytes_file p w <->
   exists q, seen (fs w) p q = Some (File 0)) /\
  (passes package_has_no_zero_bytes_file p w <->
   ~ exists q, seen (fs w) p q = Some (File 0)) /\
  (fails package_has_no_zero_bytes_file p w ->
   exists zero_bytes_ls,
     snd (package_has_no_zero_bytes_file p w) =
       emits w [{| levelname := WARNING;
                   msg := msg_zero_bytes_file (name p) zero_bytes_ls |}] /\
     forall x, In x zero_bytes_ls <->
       exists q, x = p ++ q /\ seen (fs w) p q = Some (File 0)).
Proof.
  intros Hp Hpl Hwf. unfold fails, passes.
  rewrite (package_has_no_zero_bytes_file_run p w c Hp Hpl Hwf). cbv zeta.
  set (zero_bytes_ls := List.filter _ (List.filter _ _)).
  assert (Hin : forall x, In x zero_bytes_ls <->
                  exists q, x = p ++ q /\ seen (fs w) p q = Some (File 0)).
  { intros x. subst zero_bytes_ls.
    rewrite !filter_In, (In_walk_at (fs w) p c Hp Hpl Hwf p x (below_refl p)). split.
    - intros [[(q & y & -> & Hy) _] Hz]. exists q. split; [done|].
      rewrite (seen_resolve (fs w) p c Hp Hpl Hwf p q y (below_refl p) Hy) in Hz.
      destruct y as [sz| | | | |]; try done.
      apply N.eqb_eq in Hz. by subst.
    - intros (q & -> & Hy).
      pose proof (seen_resolve (fs w) p c Hp Hpl Hwf p q _ (below_refl p) Hy) as Hr.
      unfold is_file_at. rewrite Hr. repeat split. by exists q, (File 0). }
  destruct zero_bytes_ls as [|x0 rest] eqn:E; cbn [truthy fst snd].
  - assert (Hno : ~ exists q, seen (fs w) p q = Some (File 0)).
    { intros [q Hq]. by apply (proj2 (Hin (p ++ q))); exists q. }
    by repeat split.
  - assert (Hyes : exists q, seen (fs w) p q = Some (File 0)).
    { destruct (proj1 (Hin x0)) as (q & _ & Hq); [by left|]. by exists q. }
    split; [|split].
    + by split.
    + split; [done|]. by intros Hno.
    + intros _. by exists (x0 :: rest).
Qed.

Lemma package_has_no_zero_bytes_file_sees_witness :
  fails package_has_no_zero_bytes_file (Examples.package "ACQ_0000_000004") Examples.disk.
Proof.
  apply (proj1 (package_has_no_zero_bytes_file_sees
                  (Examples.package "ACQ_0000_000004") Examples.disk
                  Examples.zero_bytes_file eq_refl eq_refl eq_refl)).
  by exists ["objects"; "data"; "file.txt"].
Defined.

Lemma In_files_at n p c x y :
  resolve n p = Found c -> plain c = true -> well_formed c = true ->
  below p x ->
  In y (List.filter (is_file_at n) (walk_at n x)) <->
  exists q sz, y = x ++ q /\ seen n x q = Some (File sz).
Proof.
  intros Hp Hpl Hwf Hx.
  rewrite filter_In, (In_walk_at n p c Hp Hpl Hwf x y Hx). unfold is_file_at. split.
  - intros [(q & z & -> & Hz) Hf].
    rewrite (seen_resolve n p c Hp Hpl Hwf x q z Hx Hz) in Hf.
    destruct z as [sz| | | | |]; try done. by exists q, sz.
  - intros (q & sz & -> & Hz).
    rewrite (seen_resolve n p c Hp Hpl Hwf x q _ Hx Hz).
    split; [|done]. by exists q, (File sz).
Qed.

Lemma below_metadata p : below p (joinpath p "metadata").
Proof. apply below_joinpath, below_refl. Qed.

Lemma below_objects p : below p (joinpath p "objects").
Proof. apply below_joinpath, below_refl. Qed.

Lemma metadata_folder_has_files_run p w c :
  resolve (fs w) p = Found c -> plain c = true -> well_formed c = true ->
  metadata_folder_has_files p w =
  if truthy (List.filter (is_file_at (fs w)) (walk_at (fs w) (joinpath p "metadata")))
  then (Ok true, w)
  else (Ok false,
        emits w [{| levelname := WARNING; msg := msg_metadata_no_files (name p) |}]).
Proof.
  intros Hp Hpl Hwf.
  unfold metadata_folder_has_files. unfold bind at 1.
  rewrite (rglob_run (fs w) p c Hp Hpl Hwf _ w (below_metadata p) eq_refl).
  unfold bind at 1.
  rewrite (filterM_is_file_walk (fs w) p c Hp Hpl Hwf _ w (below_metadata p) eq_refl).
  by destruct (truthy _).
Qed.

(** X3.  On a package folder without symbolic links, in which every
    directory may be searched and no directory has two entries of one name,
    [metadata_folder_has_files] returns, and it passes exactly when the scan
    of the metadata folder sees a regular file, at any depth.  When the
    metadata folder is absent, is not a directory or may not be listed, the
    test does not raise: it fails and logs its WARNING record. *)
Theorem metadata_folder_has_files_sees (p : Path) (w : World) (c : node) :
  resolve (fs w) p = Found c -> plain c = true -> well_formed c = true ->
  (passes metadata_folder_has_files p w <->
   exists q sz, seen (fs w) (joinpath p "metadata") q = Some (File sz)) /\
  (fails metadata_folder_has_files p w <->
   ~ exists q sz, seen (fs w) (joinpath p "metadata") q = Some (File sz)) /\
  ((forall s es, resolve (fs w) (joinpath p "metadata") <> Found (Dir true s es)) ->
   metadata_folder_has_files p w =
   (Ok false,
    emits w [{| levelname := WARNING; msg := msg_metadata_no_files (name p) |}])).
Proof.
  intros Hp Hpl Hwf. unfold passes, fails.
  rewrite (metadata_folder_has_files_run p w c Hp Hpl Hwf).
  set (files := List.filter _ _).
  assert (Hin : forall x, In x files <->
            exists q sz, x = joinpath p "metadata" ++ q /\
                         seen (fs w) (joinpath p "metadata") q = Some (File sz))
    by (intros x; apply (In_files_at (fs w) p c); try done; apply below_metadata).
  assert (Hex : truthy files = true <->
                exists q sz, seen (fs w) (joinpath p "metadata") q = Some (File sz)).
  { split.
    - destruct files as [|x rest]; [done|]. intros _.
      destruct (proj1 (Hin x)) as (q & sz & _ & Hq); [by left|]. by exists q, sz.
    - intros (q & sz & Hq).
      assert (In (joinpath p "metadata" ++ q) files) by (apply Hin; by exists q, sz).
      by destruct files. }
  split; [|split].
  - rewrite <- Hex. by destruct (truthy files).
  - rewrite <- Hex. by destruct (truthy files).
  - intros Hnot. assert (truthy files = false) as ->; [|done].
    destruct (truthy files) eqn:E; [|done]. exfalso.
    destruct (proj1 Hex eq_refl) as (q & sz & Hq). unfold seen in Hq.
    destruct (resolve (fs w) (joinpath p "metadata")) as [[|[] s es| | | |]| | |] eqn:Hm;
      try (by destruct q).
    by apply (Hnot s es).
Qed.

Lemma metadata_folder_has_files_sees_witness :
  passes metadata_folder_has_files (Examples.package "ACQ_1234_123456") Examples.disk /\
  metadata_folder_has_files (Examples.package "ACQ_0000_000001") Examples.disk =
  (Ok false,
   emits Examples.disk
     [{| levelname := WARNING; msg := msg_metadata_no_files "ACQ_0000_000001" |}]).
Proof.
  split.
  - apply (proj1 (metadata_folder_has_files_sees
                    (Examples.package "ACQ_1234_123456") Examples.disk
                    Examples.good_package eq_refl eq_refl eq_refl)).
    by exists ["rclone.log"], 19%N.
  - apply (proj2 (proj2 (metadata_folder_has_files_sees
                           (Examples.package "ACQ_0000_000001") Examples.disk
                           Examples.no_metadata eq_refl eq_refl eq_refl))).
    intros s es H. vm_compute in H. discriminate H.
Defined.

Lemma fold_left_append_filter {A} (f : A -> bool) l : forall acc,
  List.fold_left (fun acc x => if f x then acc ++ [x] else acc) l acc =
  acc ++ List.filter f l.
Proof.
  induction l as [|x l IH]; intros acc; cbn [List.fold_left List.filter].
  - by rewrite app_nil_r.
  - rewrite IH. destruct (f x); [|done]. by rewrite <- app_assoc.
Qed.

Lemma metadata_has_correct_naming_convention_run p w c :
  resolve (fs w) p = Found c -> plain c = true -> well_formed c = true ->
  metadata_has_correct_naming_convention p w =
  let nonconforming :=
    List.filter (fun file => negb (in_list (name file) ["rclone.log"]))
      (List.filter (is_file_at (fs w)) (walk_at (fs w) (joinpath p "metadata"))) in
  if truthy nonconforming
  then (Ok false,
        emits w [{| levelname := ERROR;
                    msg := msg_nonconforming_metadata (name p) nonconforming |}])
  else (Ok true, w).
Proof.
  intros Hp Hpl Hwf.
  unfold metadata_has_correct_naming_convention. unfold bind at 1.
  rewrite (rglob_run (fs w) p c Hp Hpl Hwf _ w (below_metadata p) eq_refl).
  unfold bind at 1.
  rewrite (filterM_is_file_walk (fs w) p c Hp Hpl Hwf _ w (below_metadata p) eq_refl).
  rewrite fold_left_append_filter. cbn [app]. cbv zeta. by destruct (truthy _).
Qed.

(** X4.  On a package folder without symbolic links, in which every
    directory may be searched and no directory has two entries of one name,
    [metadata_has_correct_naming_convention] returns, and it passes exactly
    when every regular file the scan of the metadata folder sees, at any
    depth, is called rclone.log.  In particular it passes when the metadata
    folder is absent or holds no file.  The record it logs on failure lists
    exactly the files with another name. *)
Theorem metadata_has_correct_naming_convention_sees (p : Path) (w : World) (c : node) :
  resolve (fs w) p = Found c -> plain c = true -> well_formed c = true ->
  (passes metadata_has_correct_naming_convention p w <->
   forall q sz, seen (fs w) (joinpath p "metadata") q = Some (File sz) ->
                name q = "rclone.log") /\
  (fails metadata_has_correct_naming_convention p w <->
   exists q sz, seen (fs w) (joinpath p "metadata") q = Some (File sz) /\
                name q <> "rclone.log") /\
  (fails metadata_has_correct_naming_convention p w ->
   exists nonconforming,
     snd (metadata_has_correct_naming_convention p w) =
       emits w [{| levelname := ERROR;
                   msg := msg_nonconforming_metadata (name p) nonconforming |}] /\
     forall x, In x nonconforming <->
       exists q sz, x = joinpath p "metadata" ++ q /\
                    seen (fs w) (joinpath p "metadata") q = Some (File sz) /\
                    name q <> "rclone.log").
Proof.
  intros Hp Hpl Hwf. unfold passes, fails.
  rewrite (metadata_has_correct_naming_convention_run p w c Hp Hpl Hwf). cbv zeta.
  set (nonconforming := List.filter _ (List.filter _ _)).
  assert (Hname : forall s, negb (in_list s ["rclone.log"]) = true <-> s <> "rclone.log").
  { intros s. unfold in_list. cbn [existsb]. rewrite orb_false_r, negb_true_iff.
    destruct (String.eqb_spec s "rclone.log"); split; congruence. }
  assert (Hin : forall x, In x nonconforming <->
            exists q sz, x = joinpath p "metadata" ++ q /\
                         seen (fs w) (joinpath p "metadata") q = Some (File sz) /\
                         name q <> "rclone.log").
  { intros x. subst nonconforming.
    rewrite filter_In,
      (In_files_at (fs w) p c _ x Hp Hpl Hwf (below_metadata p)), Hname.
    split.
    - intros [(q & sz & -> & Hq) Hn]. exists q, sz. repeat split; [done|].
      by rewrite <- (name_below (joinpath p "metadata") q (seen_nonempty _ _ _ _ Hq)).
    - intros (q & sz & -> & Hq & Hn). split; [by exists q, sz|].
      by rewrite (name_below (joinpath p "metadata") q (seen_nonempty _ _ _ _ Hq)). }
  assert (Hex : truthy nonconforming = true <->
            exists q sz, seen (fs w) (joinpath p "metadata") q = Some (File sz) /\
                         name q <> "rclone.log").
  { split.
    - destruct nonconforming as [|x rest]; [done|]. intros _.
      destruct (proj1 (Hin x)) as (q & sz & _ & Hq); [by left|]. by exists q, sz.
    - intros (q & sz & Hq & Hn).
      assert (In (joinpath p "metadata" ++ q) nonconforming)
        by (apply Hin; by exists q, sz).
      by destruct nonconforming. }
  split; [|split].
  - destruct (truthy nonconforming) eqn:E; cbn [fst].
    + split; [done|]. intros Hall. exfalso.
      destruct (proj1 Hex eq_refl) as (q & sz & Hq & Hn). by apply Hn, (Hall q sz).
    + split; [intros _|done]. intros q sz Hq.
      destruct (String.eqb_spec (name q) "rclone.log") as [|Hn]; [done|].
      exfalso. assert (false = true) as Habs; [|discriminate Habs].
      apply Hex. by exists q, sz.
  - rewrite <- Hex. by destruct (truthy nonconforming).
  - intros Hf. exists nonconforming. split; [|exact Hin].
    by destruct (truthy nonconforming).
Qed.

Lemma metadata_has_correct_naming_convention_sees_witness :
  passes metadata_has_correct_naming_convention
    (Examples.package "ACQ_0000_000001") Examples.disk.
Proof.
  apply (proj1 (metadata_has_correct_naming_convention_sees
                  (Examples.package "ACQ_0000_000001") Examples.disk
                  Examples.no_metadata eq_refl eq_refl eq_refl)).
  intros q sz H. vm_compute in H. destruct q; discriminate H.
Defined.

(** ** objects_folder_has_no_empty_folder *)

Lemma empty_loop n : forall folders empty w,
  fs w = n ->
  (forall x, In x folders -> is_dir_at n x = true) ->
  foldM
    (fun empty folder =>
       let* entries := iterdir folder in
       ret (if negb (truthy entries) then empty ++ [folder] else empty))
    empty folders w =
  if existsb (unreadable_at n) folders then (Raise PermissionError, w)
  else (Ok (empty ++ List.filter (empty_at n) folders), w).
Proof.
  induction folders as [|x folders IH]; intros empty w Hw Hdirs.
  - cbn. unfold ret. by rewrite app_nil_r.
  - assert (Hx : is_dir_at n x = true) by (apply Hdirs; by left).
    assert (Hrest : forall y, In y folders -> is_dir_at n y = true)
      by (intros y Hy; apply Hdirs; by right).
    unfold is_dir_at in Hx.
    destruct (resolve n x) as [[|r s es| | | |]| | |] eqn:Hr; try done.
    cbn [foldM existsb List.filter].
    assert (unreadable_at n x = negb r) as ->
      by (unfold unreadable_at; rewrite Hr; by destruct r).
    assert (empty_at n x = negb (truthy es)) as ->
      by (unfold empty_at; rewrite Hr; by destruct es).
    unfold bind at 1, bind at 1, iterdir at 1. rewrite Hw, Hr.
    destruct r; [|done]. cbn [negb orb].
    unfold ret at 1. rewrite (IH _ w Hw Hrest).
    destruct (existsb (unreadable_at n) folders); [done|].
    destruct es; cbn [List.map truthy negb]; by rewrite <- ?app_assoc.
Qed.

Lemma objects_folder_has_no_empty_folder_run p w c :
  resolve (fs w) p = Found c -> plain c = true -> well_formed c = true ->
  objects_folder_has_no_empty_folder p w =
  let folder_in_obj :=
    List.filter (is_dir_at (fs w)) (walk_at (fs w) (joinpath p "objects")) in
  if existsb (unreadable_at (fs w)) folder_in_obj then (Raise PermissionError, w)
  else if truthy (List.filter (empty_at (fs w)) folder_in_obj)
       then (Ok false,
             emits w [{| levelname := ERROR;
                         msg := msg_empty_folder (name p)
                                  (List.filter (empty_at (fs w)) folder_in_obj) |}])
       else (Ok true, w).
Proof.
  intros Hp Hpl Hwf.
  unfold objects_folder_has_no_empty_folder. unfold bind at 1.
  rewrite (rglob_run (fs w) p c Hp Hpl Hwf _ w (below_objects p) eq_refl).
  unfold bind at 1.
  rewrite (filterM_is_dir_walk (fs w) p c Hp Hpl Hwf _ w (below_objects p) eq_refl).
  unfold bind at 1.
  rewrite (empty_loop (fs w)); [|done|by intros x [_ Hx]%filter_In].
  cbv zeta. destruct (existsb _ _); [done|]. cbn [app].
  by destruct (truthy _).
Qed.

Lemma In_folders_at n p c x y :
  resolve n p = Found c -> plain c = true -> well_formed c = true ->
  below p x ->
  In y (List.filter (is_dir_at n) (walk_at n x)) <->
  exists q r s es, y = x ++ q /\ seen n x q = Some (Dir r s es).
Proof.
  intros Hp Hpl Hwf Hx.
  rewrite filter_In, (In_walk_at n p c Hp Hpl Hwf x y Hx). unfold is_dir_at. split.
  - intros [(q & z & -> & Hz) Hf].
    rewrite (seen_resolve n p c Hp Hpl Hwf x q z Hx Hz) in Hf.
    destruct z as [|r s es| | | |]; try done. by exists q, r, s, es.
  - intros (q & r & s & es & -> & Hz).
    rewrite (seen_resolve n p c Hp Hpl Hwf x q _ Hx Hz).
    split; [|done]. by exists q, (Dir r s es).
Qed.

(** X5.  On a package folder without symbolic links, in which every
    directory may be searched and no directory has two entries of one name,
    [objects_folder_has_no_empty_folder] raises exactly when the scan of the
    objects folder sees a directory that may not be listed, and the
    exception is then [PermissionError]; it never raises another one.
    Otherwise it fails exactly when the scan sees a directory without
    entries, and passes exactly when every directory the scan sees can be
    listed and has an entry.  Files play no part: a directory that holds
    only an empty file is not empty. *)
Theorem objects_folder_has_no_empty_folder_sees (p : Path) (w : World) (c : node) :
  resolve (fs w) p = Found c -> plain c = true -> well_formed c = true ->
  let objects := joinpath p "objects" in
  (raises (objects_folder_has_no_empty_folder p) PermissionError w <->
   exists q s es, seen (fs w) objects q = Some (Dir false s es)) /\
  (forall e, raises (objects_folder_has_no_empty_folder p) e w -> e = PermissionError) /\
  (fails objects_folder_has_no_empty_folder p w <->
   (~ exists q s es, seen (fs w) objects q = Some (Dir false s es)) /\
   exists q s, seen (fs w) objects q = Some (Dir true s [])) /\
  (passes objects_folder_has_no_empty_folder p w <->
   forall q r s es, seen (fs w) objects q = Some (Dir r s es) -> r = true /\ es <> []).
Proof.
  intros Hp Hpl Hwf objects. unfold raises, fails, passes.
  rewrite (objects_folder_has_no_empty_folder_run p w c Hp Hpl Hwf). cbv zeta.
  fold objects.
  assert (Hseen : forall q z, seen (fs w) objects q = Some z ->
                    resolve (fs w) (objects ++ q) = Found z)
    by (intros q z; apply (seen_resolve (fs w) p c Hp Hpl Hwf); apply below_objects).
  set (folders := List.filter (is_dir_at (fs w)) (walk_at (fs w) objects)).
  assert (Hin : forall x, In x folders <->
            exists q r s es, x = objects ++ q /\
                             seen (fs w) objects q = Some (Dir r s es))
    by (intros x; apply (In_folders_at (fs w) p c); try done; apply below_objects).
  assert (Hunreadable : existsb (unreadable_at (fs w)) folders = true <->
            exists q s es, seen (fs w) objects q = Some (Dir false s es)).
  { rewrite existsb_exists. unfold unreadable_at. split.
    - intros (x & Hx & Hu). apply Hin in Hx as (q & r & s & es & -> & Hq).
      rewrite (Hseen _ _ Hq) in Hu. destruct r; [done|]. by exists q, s, es.
    - intros (q & s & es & Hq). exists (objects ++ q). split.
      + apply Hin. by exists q, false, s, es.
      + by rewrite (Hseen _ _ Hq). }
  assert (Hempty : existsb (unreadable_at (fs w)) folders = false ->
            (truthy (List.filter (empty_at (fs w)) folders) = true <->
             exists q s, seen (fs w) objects q = Some (Dir true s []))).
  { intros Hnone. rewrite truthy_filter, existsb_exists. unfold empty_at. split.
    - intros (x & Hx & He). apply Hin in Hx as (q & r & s & es & -> & Hq).
      rewrite (Hseen _ _ Hq) in He. destruct es; [|done].
      destruct r; [by exists q, s|]. exfalso.
      assert (existsb (unreadable_at (fs w)) folders = true); [|congruence].
      apply Hunreadable. by exists q, s, [].
    - intros (q & s & Hq). exists (objects ++ q). split.
      + apply Hin. by exists q, true, s, [].
      + by rewrite (Hseen _ _ Hq). }
  destruct (existsb (unreadable_at (fs w)) folders) eqn:Eu; cbn [fst].
  - destruct (proj1 Hunreadable eq_refl) as (q0 & s0 & es0 & Hq0).
    split; [split; [intros _; by exists q0, s0, es0|done]|].
    split; [by intros e [= <-]|]. split.
    + split; [done|]. intros [Hno _]. exfalso. apply Hno. by exists q0, s0, es0.
    + split; [done|]. intros Hall. by destruct (Hall q0 false s0 es0 Hq0).
  - assert (Hno : ~ exists q s es, seen (fs w) objects q = Some (Dir false s es)).
    { intros H. apply Hunreadable in H. discriminate H. }
    specialize (Hempty eq_refl).
    destruct (truthy (List.filter (empty_at (fs w)) folders)) eqn:Ee; cbn [fst].
    + destruct (proj1 Hempty eq_refl) as (q0 & s0 & Hq0).
      split; [split; [done|by intros H; destruct (Hno H)]|].
      split; [done|]. split.
      * split; [intros _; split; [done|by exists q0, s0]|done].
      * split; [done|]. intros Hall. by destruct (Hall q0 true s0 [] Hq0).
    + split; [split; [done|by intros H; destruct (Hno H)]|].
      split; [done|]. split.
      * split; [done|]. intros [_ H]. apply Hempty in H. discriminate H.
      * split; [intros _|done]. intros q r s es Hq. split.
        -- destruct r; [done|]. exfalso. apply Hno. by exists q, s, es.
        -- intros ->. destruct r.
           ++ assert (false = true) as Habs; [|discriminate Habs].
              apply Hempty. by exists q, s.
           ++ apply Hno. by exists q, s, [].
Qed.

Lemma objects_folder_has_no_empty_folder_sees_witness :
  raises (objects_folder_has_no_empty_folder []) PermissionError locked_data.
Proof.
  apply (proj1 (objects_folder_has_no_empty_folder_sees [] locked_data _
                  eq_refl eq_refl eq_refl)).
  by exists ["data"], true, [].
Defined.

(** ** The tests that list one directory *)

(** In a directory with distinct names and without links, the children that
    [is_dir] takes for directories are the entries that are directories. *)
Lemma filter_is_dir_children n d r s es :
  resolve n d = Found (Dir r s es) ->
  plain (Dir r s es) = true ->
  distinct (List.map fst es) = true ->
  List.filter (is_dir_at n) (List.map (fun e => joinpath d (fst e)) es) =
  subfolders d es.
Proof.
  intros Hd Hpl Hdistinct. unfold subfolders.
  pose proof (plain_searchable r s es Hpl) as ->.
  assert (Hkind : forall e, In e es ->
            is_dir_at n (joinpath d (fst e)) = is_directory (snd e)).
  { intros [nm c] He. unfold is_dir_at. rewrite resolve_joinpath, Hd. cbn [fst snd].
    rewrite (In_child nm es c Hdistinct He).
    by rewrite (plain_follow c (plain_In nm es c r true Hpl He)). }
  clear Hd Hdistinct Hpl. induction es as [|e es IH]; [done|].
  cbn [List.map List.filter]. rewrite (Hkind e) by (by left).
  rewrite IH by (intros x Hx; apply Hkind; by right).
  by destruct (is_directory (snd e)).
Qed.

Lemma iterdir_run p w :
  iterdir p w =
  (match resolve (fs w) p with
   | Found (Dir true _ es) => Ok (List.map (fun e => joinpath p (fst e)) es)
   | Found (Dir false _ _) => Raise PermissionError
   | Found _ => Raise NotADirectoryError
   | ENOENT => Raise FileNotFoundError
   | ENOTDIR => Raise NotADirectoryError
   | EACCES => Raise PermissionError
   end, w).
Proof. unfold iterdir. by destruct (resolve (fs w) p) as [[|[] ? ?| | | |]| | |]. Qed.

(** What [is_dir] keeps of the listing of a directory of a package without
    links. *)
Lemma list_subfolders p c d r s es w :
  resolve (fs w) p = Found c -> plain c = true -> well_formed c = true ->
  below p d -> resolve (fs w) d = Found (Dir r s es) ->
  filterM is_dir (List.map (fun e => joinpath d (fst e)) es) w =
  (Ok (subfolders d es), w).
Proof.
  intros Hp Hpl Hwf Hd Hes.
  destruct (below_found (fs w) p c Hp Hpl Hwf d Hd)
    as [(m & Hm & Hplm & Hwfm)|[Hm|Hm]]; rewrite Hm in Hes; try done.
  injection Hes as ->. rewrite filterM_is_dir.
  - rewrite (filter_is_dir_children (fs w) d r s es Hm Hplm); [done|].
    cbn [well_formed] in Hwfm. by apply andb_prop in Hwfm as [? _].
  - intros x Hx. apply in_map_iff in Hx as [e [<- _]].
    destruct (below_joinpath p d (fst e) Hd) as [q ->].
    by apply (plain_below (fs w) p c q).
Qed.

Lemma metadata_folder_is_flat_run p w c s ms :
  resolve (fs w) p = Found c -> plain c = true -> well_formed c = true ->
  resolve (fs w) (joinpath p "metadata") = Found (Dir true s ms) ->
  metadata_folder_is_flat p w =
  if truthy (subfolders (joinpath p "metadata") ms)
  then (Ok false,
        emits w [{| levelname := ERROR;
                    msg := msg_unexpected_directory (name p)
                             (subfolders (joinpath p "metadata") ms) |}])
  else (Ok true, w).
Proof.
  intros Hp Hpl Hwf Hm.
  unfold metadata_folder_is_flat. unfold bind at 1. rewrite iterdir_run, Hm.
  unfold bind at 1.
  rewrite (list_subfolders p c _ true s ms w Hp Hpl Hwf (below_metadata p) Hm).
  by destruct (truthy _).
Qed.

(** X6.  The exception of the listing of the metadata folder is the
    exception of [metadata_folder_is_flat].  On a package folder without
    symbolic links, in which every directory may be searched and no
    directory has two entries of one name, the test returns exactly when
    the metadata folder is a directory that can be listed; it then passes
    exactly when no entry of the metadata folder is a directory, whatever
    lies deeper, and on failure it logs one ERROR record with the paths of
    the entries that are directories, in listing order. *)
Theorem metadata_folder_is_flat_entries (p : Path) (w : World) (c : node) :
  resolve (fs w) p = Found c -> plain c = true -> well_formed c = true ->
  (forall e, raises (iterdir (joinpath p "metadata")) e w ->
     raises (metadata_folder_is_flat p) e w) /\
  (returns (metadata_folder_is_flat p) w <->
   exists s ms, resolve (fs w) (joinpath p "metadata") = Found (Dir true s ms)) /\
  (forall s ms,
     resolve (fs w) (joinpath p "metadata") = Found (Dir true s ms) ->
     (passes metadata_folder_is_flat p w <->
      Forall (fun e => is_directory (snd e) = false) ms) /\
     metadata_folder_is_flat p w =
       if truthy (subfolders (joinpath p "metadata") ms)
       then (Ok false,
             emits w [{| levelname := ERROR;
                         msg := msg_unexpected_directory (name p)
                                  (subfolders (joinpath p "metadata") ms) |}])
       else (Ok true, w)).
Proof.
  intros Hp Hpl Hwf. split; [|split].
  - intros e He. unfold raises. by rewrite (metadata_folder_is_flat_raises p w e He).
  - destruct (resolve (fs w) (joinpath p "metadata")) as [[|[] s ms| | | |]| | |] eqn:Hm;
      try (split;
           [ unfold returns, metadata_folder_is_flat; unfold bind at 1;
             rewrite iterdir_run, Hm; by intros [? ?]
           | by intros (? & ? & ?) ]).
    split; [by exists s, ms|intros _]. unfold returns.
    rewrite (metadata_folder_is_flat_run p w c s ms Hp Hpl Hwf Hm).
    destruct (truthy _); cbn; eauto.
  - intros s ms Hm.
    pose proof (metadata_folder_is_flat_run p w c s ms Hp Hpl Hwf Hm) as Hrun.
    split; [|exact Hrun]. unfold passes. rewrite Hrun. unfold subfolders.
    rewrite List.Forall_forall. clear Hrun Hm.
    induction ms as [|e ms IH]; [by split|]. cbn [List.filter].
    destruct (is_directory (snd e)) eqn:E; cbn [List.map truthy fst].
    + split; [done|]. intros H. specialize (H e (or_introl eq_refl)). congruence.
    + rewrite IH. split.
      * intros H x [<-|Hx]; [done|by apply H].
      * intros H x Hx. apply H. by right.
Qed.

Lemma metadata_folder_is_flat_entries_witness :
  passes metadata_folder_is_flat (Examples.package "ACQ_1234_123456") Examples.disk.
Proof.
  apply (proj1 (proj2 (proj2 (metadata_folder_is_flat_entries
                  (Examples.package "ACQ_1234_123456") Examples.disk
                  Examples.good_package eq_refl eq_refl eq_refl))
                 true [("rclone.log", Examples.some_bytes)] eq_refl)).
  apply List.Forall_cons; [reflexivity|apply List.Forall_nil].
Defined.

Lemma package_has_two_subfolders_run p w s es :
  resolve (fs w) p = Found (Dir true s es) ->
  plain (Dir true s es) = true -> well_formed (Dir true s es) = true ->
  package_has_two_subfolders p w =
  if Nat.eqb (List.length (List.filter (fun e => is_directory (snd e)) es)) 2
  then (Ok true, w)
  else (Ok false, emits w [{| levelname := ERROR; msg := msg_not_two_subfolders p |}]).
Proof.
  intros Hp Hpl Hwf. unfold package_has_two_subfolders.
  unfold bind at 1. rewrite iterdir_run, Hp. unfold bind at 1.
  rewrite (list_subfolders p _ p true s es w Hp Hpl Hwf (below_refl p) Hp).
  unfold subfolders. rewrite length_map. by destruct (Nat.eqb _ 2).
Qed.

(** X7.  The exception of the listing of the package folder is the exception
    of [package_has_two_subfolders].  On a package folder without symbolic
    links, in which every directory may be searched and no directory has two
    entries of one name, the test returns exactly when the package folder
    can be listed; it then passes exactly when two of the entries of the
    package folder are directories; entries of another kind are not counted,
    and what the directories are called plays no part. *)
Theorem package_has_two_subfolders_entries (p : Path) (w : World) (c : node) :
  resolve (fs w) p = Found c -> plain c = true -> well_formed c = true ->
  (forall e, raises (iterdir p) e w -> raises (package_has_two_subfolders p) e w) /\
  (returns (package_has_two_subfolders p) w <-> exists s es, c = Dir true s es) /\
  (forall s es,
     c = Dir true s es ->
     (passes package_has_two_subfolders p w <->
      List.length (List.filter (fun e => is_directory (snd e)) es) = 2) /\
     (fails package_has_two_subfolders p w ->
      snd (package_has_two_subfolders p w) =
        emits w [{| levelname := ERROR; msg := msg_not_two_subfolders p |}])).
Proof.
  intros Hp Hpl Hwf. split; [|split].
  - intros e He. unfold raises, package_has_two_subfolders. unfold bind at 1.
    unfold raises in He. rewrite (reader_iterdir _ w) in He |- *. cbn [fst] in He.
    by rewrite He.
  - destruct c as [|[] s es| | | |];
      try (split;
           [ unfold returns, package_has_two_subfolders; unfold bind at 1;
             rewrite iterdir_run, Hp; by intros [? ?]
           | by intros (? & ? & ?) ]).
    split; [by exists s, es|intros _]. unfold returns.
    rewrite (package_has_two_subfolders_run p w s es Hp Hpl Hwf).
    destruct (Nat.eqb _ 2); cbn; eauto.
  - intros s es ->. unfold passes, fails.
    rewrite (package_has_two_subfolders_run p w s es Hp Hpl Hwf).
    destruct (Nat.eqb_spec
                (List.length (List.filter (fun e => is_directory (snd e)) es)) 2)
      as [Heq|Hne]; cbn [fst snd].
    + split; [by split|]. intros H. discriminate H.
    + split; [|done]. split; [intros H; discriminate H|done].
Qed.

Lemma package_has_two_subfolders_entries_witness :
  passes package_has_two_subfolders (Examples.package "ACQ_0000_000002") Examples.disk.
Proof.
  apply (proj1 (proj2 (proj2 (package_has_two_subfolders_entries
                  (Examples.package "ACQ_0000_000002") Examples.disk
                  Examples.stray_file eq_refl eq_refl eq_refl))
                 true [("objects", Examples.good_objects);
                       ("metadata", Examples.good_metadata);
                       ("notes.txt", Examples.some_bytes)] eq_refl)).
  reflexivity.
Defined.

Lemma distinct_NoDup xs : distinct xs = true -> List.NoDup xs.
Proof.
  induction xs as [|x xs IH]; [constructor|]. cbn [distinct].
  intros [Hx Hxs]%andb_prop. constructor; [|by apply IH].
  intros Hin. apply in_list_In in Hin. by rewrite Hin in Hx.
Qed.

Lemma entry_names_elem n p r s es x :
  resolve n p = Found (Dir r s es) ->
  x ∈ entry_names n p <-> In x (List.map fst es).
Proof.
  intros Hp. unfold entry_names. rewrite Hp, elem_of_list_to_set.
  apply list_elem_of_In.
Qed.

Lemma entry_tests_iff (p : Path) (w : World) (s : bool) (es : list (string * node)) :
  resolve (fs w) p = Found (Dir true s es) ->
  plain (Dir true s es) = true -> well_formed (Dir true s es) = true ->
  (passes package_has_two_subfolders p w /\
   passes package_has_valid_subfolder_names p w) <->
  (List.length es = 2 /\
   (exists r x c, child "objects" es = Some (Dir r x c)) /\
   (exists r x c, child "metadata" es = Some (Dir r x c))).
Proof.
  intros Hp Hpl Hwf.
  assert (Hdistinct : distinct (List.map fst es) = true).
  { cbn [well_formed] in Hwf. by apply andb_prop in Hwf as [? _]. }
  rewrite (package_has_valid_subfolder_names_spec p w s es Hp).
  unfold passes at 1. rewrite (package_has_two_subfolders_run p w s es Hp Hpl Hwf).
  assert (Hnames : entry_names (fs w) p = {[ "objects"; "metadata" ]} <->
            forall x, In x (List.map fst es) <-> In x ["objects"; "metadata"]).
  { split.
    - intros E x. rewrite <- (entry_names_elem _ _ _ _ _ x Hp), E. cbn [In].
      rewrite elem_of_union, !elem_of_singleton. intuition congruence.
    - intros H. apply set_eq. intros x. rewrite (entry_names_elem _ _ _ _ _ x Hp), H.
      cbn [In]. rewrite elem_of_union, !elem_of_singleton. intuition congruence. }
  rewrite Hnames. clear Hnames. split.
  - intros [Hcount Hset].
    assert (Hlen : List.length (List.map fst es) = 2).
    { apply (Permutation.Permutation_length (l' := ["objects"; "metadata"])).
      apply Permutation.NoDup_Permutation; [by apply distinct_NoDup| |done].
      repeat constructor; cbn [In]; intuition discriminate. }
    rewrite length_map in Hlen.
    destruct es as [|[k1 c1] [|[k2 c2] [|? ?]]]; try discriminate Hlen.
    split; [done|].
    assert (Hdirs : is_directory c1 = true /\ is_directory c2 = true).
    { cbn [List.filter snd] in Hcount.
      destruct (is_directory c1), (is_directory c2); by cbn in Hcount. }
    destruct Hdirs as [H1 H2].
    destruct c1 as [|r1 s1 x1| | | |]; try discriminate H1.
    destruct c2 as [|r2 s2 x2| | | |]; try discriminate H2.
    assert (Hk1 : k1 = "objects" \/ k1 = "metadata").
    { destruct (proj1 (Hset k1)) as [<-|[<-|[]]]; [by left|tauto..]. }
    assert (Hk2 : k2 = "objects" \/ k2 = "metadata").
    { destruct (proj1 (Hset k2)) as [<-|[<-|[]]]; [right; by left|tauto..]. }
    assert (Hne : k1 <> k2).
    { apply distinct_NoDup in Hdistinct. cbn [List.map fst] in Hdistinct.
      inversion Hdistinct as [|? ? Hnotin _]. intros ->. apply Hnotin. by left. }
    destruct Hk1 as [-> | ->], Hk2 as [-> | ->]; try done; split; cbn; eauto.
  - intros (Hlen & (r1 & s1 & x1 & Ho) & (r2 & s2 & x2 & Hm)).
    destruct es as [|[k1 c1] [|[k2 c2] [|? ?]]]; try discriminate Hlen.
    cbn [child] in Ho, Hm. cbn [List.map fst distinct in_list existsb] in Hdistinct.
    destruct (String.eqb_spec k1 "objects") as [->|Hk1o].
    + injection Ho as ->. cbn in Hm.
      destruct (String.eqb_spec k2 "metadata") as [->|]; [|done]. injection Hm as ->.
      split; [done|]. intros x. cbn [List.map fst In]. tauto.
    + destruct (String.eqb_spec k2 "objects") as [->|]; [|done]. injection Ho as ->.
      destruct (String.eqb_spec k1 "metadata") as [->|]; [|done]. injection Hm as ->.
      split; [done|]. intros x. cbn [List.map fst In]. tauto.
Qed.


(** X8.  The two tests on the entries of the package folder complement each
    other.  On a package folder that can be listed, without symbolic links,
    in which every directory may be searched and no directory has two
    entries of one name, [package_has_two_subfolders] and
    [package_has_valid_subfolder_names] both pass exactly when the package
    folder has two entries and no more, a directory called objects and a
    directory called metadata. *)
Theorem entry_tests_together (p : Path) (w : World) (s : bool)
    (es : list (string * node)) :
  resolve (fs w) p = Found (Dir true s es) ->
  plain (Dir true s es) = true -> well_formed (Dir true s es) = true ->
  (passes package_has_two_subfolders p w /\
   passes package_has_valid_subfolder_names p w) <->
  (List.length es = 2 /\
   (exists r x c, child "objects" es = Some (Dir r x c)) /\
   (exists r x c, child "metadata" es = Some (Dir r x c))).
Proof. intros Hp Hpl Hwf. by apply (entry_tests_iff p w s es). Qed.

Lemma entry_tests_together_witness :
  passes package_has_two_subfolders (Examples.package "ACQ_1234_123456") Examples.disk /\
  passes package_has_valid_subfolder_names (Examples.package "ACQ_1234_123456")
    Examples.disk.
Proof.
  apply (proj2 (entry_tests_together
                  (Examples.package "ACQ_1234_123456") Examples.disk true
                  [("objects", Examples.good_objects);
                   ("metadata", Examples.good_metadata)] eq_refl eq_refl eq_refl)).
  split; [done|]. split; cbn; eauto.
Defined.

(** ** The verdict and the levels of the records *)

Lemma diagnostics_of_checks lvl p n ts :
  (forall t, In t ts -> check lvl (t p)) ->
  (forall r, In r (flat_map (fun t => diagnostics (t p) n) ts) -> levelname r = lvl) /\
  (flat_map (fun t => diagnostics (t p) n) ts = [] <-> existsb (failed p n) ts = false).
Proof.
  induction ts as [|t ts IH]; intros Hts; [by split|].
  destruct IH as [IHl IHe]; [intros u Hu; apply Hts; by right|].
  destruct (Hts t (or_introl eq_refl)) as [_ Hshape]. specialize (Hshape n).
  unfold one_record_on_failure in Hshape.
  cbn [flat_map existsb]. unfold failed at 1.
  destruct (result (t p) n) as [[|]|e].
  - rewrite Hshape. cbn [app orb]. by split.
  - destruct Hshape as (r & -> & Hr). cbn [app orb]. split; [|by split].
    intros r' [<-|Hr']; [done|by apply IHl].
  - rewrite Hshape. cbn [app orb]. by split.
Qed.

(** X9.  The verdict can be read off the records of a run.  When
    [lint_package] returns, it returns ["valid"] exactly when it has logged
    nothing, ["invalid"] exactly when it has logged a record of level ERROR,
    and ["needs review"] exactly when it has logged something and every
    record it has logged is of level WARNING. *)
Theorem verdict_and_levels (p : Path) (w : World) (v : string) :
  fst (lint_package p w) = Ok v ->
  exists d, snd (lint_package p w) = emits w d /\
    (v = "valid" <-> d = []) /\
    (v = "invalid" <-> exists r, In r d /\ levelname r = ERROR) /\
    (v = "needs review" <->
       d <> [] /\ forall r, In r d -> levelname r = WARNING).
Proof.
  intros Hv. rewrite lint_package_spec in Hv |- *. cbn [fst snd] in Hv |- *.
  destruct (first_raise p (fs w) all_tests) eqn:E; [discriminate Hv|].
  injection Hv as <-. rewrite (ran_all _ _ _ E). eexists. split; [reflexivity|].
  unfold all_tests. rewrite flat_map_app.
  destruct (diagnostics_of_checks WARNING p (fs w) less_strict_tests)
    as [Hwl Hwe]; [intros t Ht; by apply check_less_strict_tests|].
  destruct (diagnostics_of_checks ERROR p (fs w) strict_tests)
    as [Hel Hee]; [intros t Ht; by apply check_strict_tests|].
  set (dl := flat_map _ less_strict_tests) in *.
  set (ds := flat_map _ strict_tests) in *.
  unfold verdict.
  destruct (existsb (failed p (fs w)) strict_tests) eqn:Es.
  - assert (Hds : ds <> []) by (intros H; apply Hee in H; discriminate H).
    destruct ds as [|r0 ds'] eqn:Eds; [done|].
    split; [|split].
    + split; [done|]. intros H. by apply app_eq_nil in H as [_ ?].
    + split; [intros _|done]. exists r0. split; [apply in_app_iff; right; by left|].
      apply Hel. by left.
    + split; [done|]. intros [_ Hall].
      assert (levelname r0 = WARNING) by (apply Hall, in_app_iff; right; by left).
      assert (levelname r0 = ERROR) by (apply Hel; by left). congruence.
  - assert (Hds : ds = []) by (by apply Hee). rewrite Hds, app_nil_r.
    destruct (existsb (failed p (fs w)) less_strict_tests) eqn:El.
    + assert (Hdl : dl <> []) by (intros H; apply Hwe in H; discriminate H).
      split; [by split|]. split; [|by split].
      split; [done|]. intros (r & Hr & Hlvl). apply Hwl in Hr. congruence.
    + assert (Hdl : dl = []) by (by apply Hwe). rewrite Hdl.
      split; [by split|]. split.
      * split; [done|]. by intros (r & [] & _).
      * split; [done|]. by intros [? _].
Qed.

Lemma verdict_and_levels_witness :
  exists d,
    snd (lint_package (Examples.package "ACQ_0000_000005") Examples.disk) =
      emits Examples.disk d /\
    ("invalid" = "invalid" <-> exists r, In r d /\ levelname r = ERROR).
Proof.
  destruct (verdict_and_levels (Examples.package "ACQ_0000_000005") Examples.disk
              "invalid") as (d & Hd & _ & Hinvalid & _).
  - vm_compute. reflexivity.
  - by exists d.
Defined.

(** ** Which tests can raise *)


(** ** parse_args: extant_dir and list_of_paths *)

Lemma child_dirs_loop n : forall children child_dirs w,
  fs w = n ->
  (forall x, In x children -> denied_at n x = false) ->
  foldM
    (fun child_dirs child =>
       let* d := is_dir child in
       ret (if d then child_dirs ++ [child] else child_dirs))
    child_dirs children w =
  (Ok (child_dirs ++ List.filter (is_dir_at n) children), w).
Proof.
  induction children as [|c children IH]; intros child_dirs w Hw Hd.
  - cbn. unfold ret. by rewrite app_nil_r.
  - cbn [foldM List.filter]. unfold bind at 1, bind at 1.
    rewrite is_dir_run by (rewrite Hw; apply Hd; by left).
    unfold ret at 1. rewrite IH; [|done|intros x Hx; apply Hd; by right].
    rewrite Hw. destruct (is_dir_at n c); by rewrite <- ?app_assoc.
Qed.

(** What the loop of [list_of_paths] keeps, when it ends, are children that
    are directories. *)
Lemma child_dirs_kept n children : forall child_dirs,
  on_tree n denied_only
    (fun l => forall x, In x l ->
                In x child_dirs \/ (In x children /\ is_dir_at n x = true))
    (foldM
       (fun child_dirs child =>
          let* d := is_dir child in
          ret (if d then child_dirs ++ [child] else child_dirs))
       child_dirs children).
Proof.
  induction children as [|c children IH]; intros child_dirs; cbn [foldM].
  - apply on_tree_ret. tauto.
  - eapply on_tree_bind.
    { eapply on_tree_bind; [apply is_dir_on_tree|]. intros d Hd.
      apply (on_tree_ret n denied_only
               (fun l => forall x, In x l ->
                           In x child_dirs \/ (x = c /\ is_dir_at n c = true))).
      intros x Hx. destruct d; [|tauto].
      apply in_app_iff in Hx as [Hx|[<-|[]]]; [tauto|]. right. by split; [|apply Hd]. }
    intros l Hl. eapply on_tree_weaken; [| |apply IH]; [done|].
    intros l' Hl' x Hx. destruct (Hl' x Hx) as [Hin|[Hin Hdir]].
    + destruct (Hl x Hin) as [?|[-> ?]]; [tauto|]. right. split; [by left|done].
    + right. split; [by right|done].
Qed.

Lemma list_of_paths_run d w :
  (forall nm, denied_at (fs w) (joinpath d nm) = false) ->
  list_of_paths d w =
  (match resolve (fs w) d with
   | Found (Dir true _ es) =>
       Ok (Converted (List.filter (is_dir_at (fs w))
                        (List.map (fun e => joinpath d (fst e)) es)))
   | Found (Dir false _ _) => Raise PermissionError
   | EACCES => Raise PermissionError
   | _ => Ok (ArgumentTypeError d)
   end, w).
Proof.
  intros Hchildren.
  unfold list_of_paths, extant_dir. unfold bind at 1, bind at 1, is_dir at 1.
  destruct (resolve (fs w) d) as [[|[] s es| | | |]| | |] eqn:Hd; cbn [negb]; try done.
  - unfold ret at 1. unfold bind at 1. rewrite iterdir_run, Hd.
    unfold bind at 1. rewrite (child_dirs_loop (fs w)); [done..|].
    intros x Hx. apply in_map_iff in Hx as [e [<- _]]. apply Hchildren.
  - unfold ret at 1. unfold bind at 1. by rewrite iterdir_run, Hd.
Qed.



Lemma returns_or_raises {A} P (Q : A -> Prop) m w :
  on_tree (fs w) P Q m -> returns m w \/ exists e, raises m e w /\ P e.
Proof.
  intros H. specialize (H w eq_refl). unfold returns, raises.
  destruct (m w) as [[a|e] w']; cbn [fst]; [left; by exists a|right; by exists e].
Qed.



(** ** When a package is valid *)

Lemma lint_package_valid_iff p w :
  fst (lint_package p w) = Ok "valid" <-> forall t, In t all_tests -> passes t p w.
Proof.
  rewrite lint_package_spec. cbn [fst]. split.
  - destruct (first_raise p (fs w) all_tests) eqn:E; [done|]. intros [= Hv].
    apply verdict_valid; [|done]. by apply all_return_first_raise.
  - intros Hall.
    assert (Hret : forall t, In t all_tests -> returns (t p) w).
    { intros t Ht. exists true. by apply Hall. }
    rewrite (proj1 (all_return_first_raise p w) Hret). f_equal.
    by apply verdict_valid.
Qed.

Lemma passes_package_has_no_hidden_file p w c :
  resolve (fs w) p = Found c -> plain c = true -> well_formed c = true ->
  passes package_has_no_hidden_file p w <->
  forall q y, seen (fs w) p q = Some y -> hidden_name (name q) = false.
Proof.
  intros Hp Hpl Hwf. unfold passes. rewrite (package_has_no_hidden_file_run p w c Hp Hpl Hwf).
  destruct (existsb _ (walk_at (fs w) p)) eqn:E; cbn [fst].
  - split; [done|]. intros Hall. exfalso.
    apply existsb_exists in E as (x & Hx & Hh).
    apply (In_walk_at (fs w) p c Hp Hpl Hwf p x (below_refl p)) in Hx
      as (q & y & -> & Hy).
    rewrite (name_below p q (seen_nonempty _ _ _ _ Hy)) in Hh.
    rewrite (Hall q y Hy) in Hh. discriminate Hh.
  - split; [intros _|done]. intros q y Hy.
    destruct (hidden_name (name q)) eqn:Hh; [|done].
    assert (existsb (fun h => hidden_name (name h)) (walk_at (fs w) p) = true);
      [|congruence].
    apply existsb_exists. exists (p ++ q). split.
    + apply (In_walk_at (fs w) p c Hp Hpl Hwf p _ (below_refl p)). by exists q, y.
    + by rewrite (name_below p q (seen_nonempty _ _ _ _ Hy)).
Qed.

Lemma passes_package_has_no_zero_bytes_file p w c :
  resolve (fs w) p = Found c -> plain c = true -> well_formed c = true ->
  passes package_has_no_zero_bytes_file p w <->
  forall q y, seen (fs w) p q = Some y -> y <> File 0.
Proof.
  intros Hp Hpl Hwf. unfold passes. rewrite (package_has_no_zero_bytes_file_run p w c Hp Hpl Hwf). cbv zeta.
  set (zero_bytes_ls := List.filter _ (List.filter _ _)).
  assert (Hin : forall x, In x zero_bytes_ls <->
                  exists q, x = p ++ q /\ seen (fs w) p q = Some (File 0)).
  { intros x. subst zero_bytes_ls.
    rewrite !filter_In, (In_walk_at (fs w) p c Hp Hpl Hwf p x (below_refl p)). split.
    - intros [[(q & y & -> & Hy) _] Hz]. exists q. split; [done|].
      rewrite (seen_resolve (fs w) p c Hp Hpl Hwf p q y (below_refl p) Hy) in Hz.
      destruct y as [sz| | | | |]; try done.
      apply N.eqb_eq in Hz. by subst.
    - intros (q & -> & Hy).
      pose proof (seen_resolve (fs w) p c Hp Hpl Hwf p q _ (below_refl p) Hy) as Hr.
      unfold is_file_at. rewrite Hr. repeat split. by exists q, (File 0). }
  destruct zero_bytes_ls as [|x0 rest]; cbn [truthy fst].
  - split; [intros _|done]. intros q y Hy ->.
    by apply (proj2 (Hin (p ++ q))); exists q.
  - split; [done|]. intros Hall. exfalso.
    destruct (proj1 (Hin x0)) as (q & _ & Hq); [by left|]. by apply (Hall q _ Hq).
Qed.

Lemma passes_metadata_folder_has_files p w c :
  resolve (fs w) p = Found c -> plain c = true -> well_formed c = true ->
  passes metadata_folder_has_files p w <->
  exists q sz, seen (fs w) (joinpath p "metadata") q = Some (File sz).
Proof.
  intros Hp Hpl Hwf. unfold passes. rewrite (metadata_folder_has_files_run p w c Hp Hpl Hwf).
  set (files := List.filter _ _).
  assert (Hin : forall x, In x files <->
            exists q sz, x = joinpath p "metadata" ++ q /\
                         seen (fs w) (joinpath p "metadata") q = Some (File sz))
    by (intros x; apply (In_files_at (fs w) p c); try done; apply below_metadata).
  destruct files as [|x rest]; cbn [truthy fst].
  - split; [done|]. intros (q & sz & Hq). exfalso.
    by apply (proj2 (Hin (joinpath p "metadata" ++ q))); exists q, sz.
  - split; [intros _|done].
    destruct (proj1 (Hin x)) as (q & sz & _ & Hq); [by left|]. by exists q, sz.
Qed.

Lemma passes_metadata_has_correct_naming_convention p w c :
  resolve (fs w) p = Found c -> plain c = true -> well_formed c = true ->
  passes metadata_has_correct_naming_convention p w <->
  forall q sz, seen (fs w) (joinpath p "metadata") q = Some (File sz) ->
               name q = "rclone.log".
Proof.
  intros Hp Hpl Hwf. unfold passes.
  rewrite (metadata_has_correct_naming_convention_run p w c Hp Hpl Hwf). cbv zeta.
  set (nonconforming := List.filter _ (List.filter _ _)).
  assert (Hname : forall s, negb (in_list s ["rclone.log"]) = true <-> s <> "rclone.log").
  { intros s. unfold in_list. cbn [existsb]. rewrite orb_false_r, negb_true_iff.
    destruct (String.eqb_spec s "rclone.log"); split; congruence. }
  assert (Hin : forall x, In x nonconforming <->
            exists q sz, x = joinpath p "metadata" ++ q /\
                         seen (fs w) (joinpath p "metadata") q = Some (File sz) /\
                         name q <> "rclone.log").
  { intros x. subst nonconforming.
    rewrite filter_In,
      (In_files_at (fs w) p c _ x Hp Hpl Hwf (below_metadata p)), Hname.
    split.
    - intros [(q & sz & -> & Hq) Hn]. exists q, sz. repeat split; [done|].
      by rewrite <- (name_below (joinpath p "metadata") q (seen_nonempty _ _ _ _ Hq)).
    - intros (q & sz & -> & Hq & Hn). split; [by exists q, sz|].
      by rewrite (name_below (joinpath p "metadata") q (seen_nonempty _ _ _ _ Hq)). }
  destruct nonconforming as [|x rest]; cbn [truthy fst].
  - split; [intros _|done]. intros q sz Hq.
    destruct (String.eqb_spec (name q) "rclone.log") as [|Hn]; [done|]. exfalso.
    by apply (proj2 (Hin (joinpath p "metadata" ++ q))); exists q, sz.
  - split; [done|]. intros Hall. exfalso.
    destruct (proj1 (Hin x)) as (q & sz & _ & Hq & Hn); [by left|].
    by apply Hn, (Hall q sz).
Qed.

Lemma passes_objects_folder_has_no_empty_folder p w c :
  resolve (fs w) p = Found c -> plain c = true -> well_formed c = true ->
  passes objects_folder_has_no_empty_folder p w <->
  forall q r s es, seen (fs w) (joinpath p "objects") q = Some (Dir r s es) ->
                   r = true /\ es <> [].
Proof.
  intros Hp Hpl Hwf. unfold passes.
  rewrite (objects_folder_has_no_empty_folder_run p w c Hp Hpl Hwf). cbv zeta.
  set (folders := List.filter (is_dir_at (fs w)) (walk_at (fs w) (joinpath p "objects"))).
  assert (Hin : forall x, In x folders <->
            exists q r s es, x = joinpath p "objects" ++ q /\
                             seen (fs w) (joinpath p "objects") q = Some (Dir r s es))
    by (intros x; apply (In_folders_at (fs w) p c); try done; apply below_objects).
  assert (Hmem : forall q r s es,
            seen (fs w) (joinpath p "objects") q = Some (Dir r s es) ->
            In (joinpath p "objects" ++ q) folders /\
            unreadable_at (fs w) (joinpath p "objects" ++ q) = negb r /\
            empty_at (fs w) (joinpath p "objects" ++ q) = negb (truthy es)).
  { intros q r s es Hq. split; [apply Hin; by exists q, r, s, es|].
    unfold unreadable_at, empty_at.
    rewrite (seen_resolve (fs w) p c Hp Hpl Hwf _ q _ (below_objects p) Hq).
    split; [by destruct r|by destruct es]. }
  destruct (existsb (unreadable_at (fs w)) folders) eqn:Eu; cbn [fst].
  - split; [done|]. intros Hall. exfalso.
    apply existsb_exists in Eu as (x & Hx & Hu).
    apply Hin in Hx as (q & r & s & es & -> & Hq).
    destruct (Hmem q r s es Hq) as (_ & Hr & _). rewrite Hr in Hu.
    destruct (Hall q r s es Hq) as [-> _]. discriminate Hu.
  - rewrite truthy_filter.
    destruct (existsb (empty_at (fs w)) folders) eqn:Ee; cbn [fst].
    + split; [done|]. intros Hall. exfalso.
      apply existsb_exists in Ee as (x & Hx & He).
      apply Hin in Hx as (q & r & s & es & -> & Hq).
      destruct (Hmem q r s es Hq) as (_ & _ & Hes). rewrite Hes in He.
      destruct (Hall q r s es Hq) as [_ Hne]. by destruct es.
    + split; [intros _|done]. intros q r s es Hq.
      destruct (Hmem q r s es Hq) as (Hx & Hr & Hes). split.
      * destruct r; [done|]. exfalso.
        assert (existsb (unreadable_at (fs w)) folders = true); [|congruence].
        apply existsb_exists. exists (joinpath p "objects" ++ q). by rewrite Hr.
      * intros ->. assert (existsb (empty_at (fs w)) folders = true); [|congruence].
        apply existsb_exists. exists (joinpath p "objects" ++ q). by rewrite Hes.
Qed.

Lemma passes_metadata_folder_is_flat p w c :
  resolve (fs w) p = Found c -> plain c = true -> well_formed c = true ->
  passes metadata_folder_is_flat p w <->
  exists s ms, resolve (fs w) (joinpath p "metadata") = Found (Dir true s ms) /\
               Forall (fun e => is_directory (snd e) = false) ms.
Proof.
  intros Hp Hpl Hwf.
  destruct (resolve (fs w) (joinpath p "metadata")) as [[|[] s ms| | | |]| | |] eqn:Hm;
    try (split;
         [ unfold passes, metadata_folder_is_flat; unfold bind at 1;
           rewrite iterdir_run, Hm; by intros ?
         | by intros (? & ? & ? & _) ]).
  unfold passes. rewrite (metadata_folder_is_flat_run p w c s ms Hp Hpl Hwf Hm).
  assert (Hflat : truthy (subfolders (joinpath p "metadata") ms) = false <->
                  Forall (fun e => is_directory (snd e) = false) ms).
  { unfold subfolders. rewrite List.Forall_forall. clear Hm.
    induction ms as [|e ms IH]; [by split|]. cbn [List.filter].
    destruct (is_directory (snd e)) eqn:E; cbn [List.map truthy].
    - split; [done|]. intros H. specialize (H e (or_introl eq_refl)). congruence.
    - rewrite IH. split.
      + intros H x [<-|Hx]; [done|by apply H].
      + intros H x Hx. apply H. by right. }
  destruct (truthy (subfolders (joinpath p "metadata") ms)); cbn [fst].
  - split; [done|]. intros (s' & ms' & [= <- <-] & Hall). by apply Hflat in Hall.
  - split; [intros _|done]. exists s, ms. split; [done|]. by apply Hflat.
Qed.

Lemma passes_package_has_valid_name p w :
  passes package_has_valid_name p w <-> conforms_to_ACQ (name p).
Proof.
  rewrite <- ACQ_pattern_conforms. unfold passes. rewrite package_has_valid_name_run.
  by destruct (re_fullmatch ACQ_pattern (name p)).
Qed.

Lemma passes_objects_folder_correct_structure p w :
  passes objects_folder_correct_structure p w <->
  Forall (fun nm => exists_at (fs w) (joinpath (joinpath p "objects") nm) = true)
    required_in_objects.
Proof.
  unfold passes. rewrite objects_folder_correct_structure_run, List.Forall_forall.
  destruct (existsb _ required_in_objects) eqn:Ed.
  - split; [done|]. intros Hall. exfalso.
    apply existsb_exists in Ed as (nm & Hnm & Hd). specialize (Hall nm Hnm).
    unfold denied_at in Hd. unfold exists_at in Hall.
    by destruct (resolve (fs w) _).
  - destruct (forallb _ required_in_objects) eqn:E; cbn [fst].
    + split; [intros _|done]. by apply forallb_forall.
    + split; [done|]. intros H. apply forallb_forall in H. congruence.
Qed.

Lemma passes_listing p w c :
  resolve (fs w) p = Found c ->
  passes package_has_two_subfolders p w -> exists s es, c = Dir true s es.
Proof.
  intros Hp. unfold passes, package_has_two_subfolders. unfold bind at 1.
  rewrite iterdir_run, Hp.
  destruct c as [|[] s es| | | |]; try done. by exists s, es.
Qed.

(** X14.  On a package folder without symbolic links, in which every
    directory may be searched and no directory has two entries of one name,
    [lint_package] returns ["valid"] if and only if the package has the
    conforming layout: the name of its folder conforms; the folder has
    exactly two entries, the directories objects and metadata; no entry of
    metadata is a directory; the scan of the package sees no entry with a
    hidden name and no empty file; the scan of metadata sees a file, and
    only files called rclone.log; data and the four sidecar files exist
    below objects; and every directory the scan of objects sees can be
    listed and has an entry. *)
Theorem valid_iff_conforming_layout (p : Path) (w : World) (c : node) :
  resolve (fs w) p = Found c -> plain c = true -> well_formed c = true ->
  fst (lint_package p w) = Ok "valid" <-> conforming_layout (fs w) p.
Proof.
  intros Hp Hpl Hwf. rewrite lint_package_valid_iff.
  assert (Hall : (forall t, In t all_tests -> passes t p w) <->
            (passes package_has_no_hidden_file p w /\
             passes package_has_no_zero_bytes_file p w /\
             passes metadata_folder_has_files p w /\
             passes package_has_valid_name p w /\
             (passes package_has_two_subfolders p w /\
              passes package_has_valid_subfolder_names p w) /\
             passes metadata_folder_is_flat p w /\
             passes metadata_has_correct_naming_convention p w /\
             passes objects_folder_correct_structure p w /\
             passes objects_folder_has_no_empty_folder p w)).
  { unfold all_tests, less_strict_tests, strict_tests. cbn [app In]. split.
    - intros H. repeat split; apply H; tauto.
    - intros (H1 & H2 & H3 & H4 & [H5 H6] & H7 & H8 & H9 & H10) t
        [<-|[<-|[<-|[<-|[<-|[<-|[<-|[<-|[<-|[<-|[]]]]]]]]]]]; done. }
  rewrite Hall. clear Hall.
  rewrite (passes_package_has_no_hidden_file p w c Hp Hpl Hwf),
          (passes_package_has_no_zero_bytes_file p w c Hp Hpl Hwf),
          (passes_metadata_folder_has_files p w c Hp Hpl Hwf),
          (passes_package_has_valid_name p w),
          (passes_metadata_folder_is_flat p w c Hp Hpl Hwf),
          (passes_metadata_has_correct_naming_convention p w c Hp Hpl Hwf),
          (passes_objects_folder_correct_structure p w),
          (passes_objects_folder_has_no_empty_folder p w c Hp Hpl Hwf).
  unfold conforming_layout. split.
  - intros (Hhid & Hzero & Hfile & Hname & [Htwo Hnames] & (sm & ms & Hm & Hflat) &
            Hconv & Hstruct & Hempty).
    destruct (passes_listing p w c Hp Htwo) as (s & es & ->).
    pose proof (plain_searchable true s es Hpl) as ->.
    destruct (proj1 (entry_tests_iff p w true es Hp Hpl Hwf) (conj Htwo Hnames))
      as (Hlen & Hobj & Hmd).
    split; [done|]. split.
    + exists es. repeat split; [done..|].
      exists sm, ms. split; [|done].
      rewrite resolve_joinpath, Hp in Hm.
      destruct (child "metadata" es) as [x|] eqn:Hx; [|done].
      apply child_In in Hx.
      rewrite (plain_follow x (plain_In "metadata" es x true true Hpl Hx)) in Hm.
      by injection Hm as ->.
    + split; [|done]. intros q y Hy. split; [by apply (Hhid q y)|by apply (Hzero q y)].
  - intros (Hname & (es & Hes & Hlen & Hobj & sm & ms & Hmd & Hflat) & Hseen & Hfile &
            Hconv & Hstruct & Hempty).
    rewrite Hp in Hes. injection Hes as ->.
    split; [intros q y Hy; by apply (Hseen q y)|].
    split; [intros q y Hy; by apply (Hseen q y)|].
    split; [done|]. split; [done|]. split.
    { apply (entry_tests_iff p w true es Hp Hpl Hwf). repeat split; [done..|].
      by exists true, sm, ms. }
    split; [|done]. exists sm, ms. split; [|done].
    by rewrite resolve_joinpath, Hp, Hmd.
Qed.

Lemma valid_iff_conforming_layout_witness :
  conforming_layout (fs Examples.disk) (Examples.package "ACQ_1234_123456").
Proof.
  apply (proj1 (valid_iff_conforming_layout
                  (Examples.package "ACQ_1234_123456") Examples.disk
                  Examples.good_package eq_refl eq_refl eq_refl)).
  vm_compute. reflexivity.
Defined.
